(** * Merlin process/protocol core of the Sublime Text plugin

    A shallow embedding of [merlin/process.py] and of [fmtpos] from
    [merlin/helpers.py], followed by the properties established about them.

    Python text ([str]) is represented by its UTF-8 bytes in a [string];
    Python's unbounded [int] by [Z] (or [nat] for the verbosity count, which
    starts at 0 and is only ever incremented). *)

From Stdlib Require Import ZArith Ascii String List Lia.
From stdpp Require Import base option strings gmap list pretty.

Open Scope string_scope.
Open Scope list_scope.

(** ** Python values

    The values that [json.loads] can return and that the editor's settings
    store holds: [None], [bool], [int], [float], [str], [list], [dict].
    A float keeps the lexeme it was read from; a dict is kept in insertion
    order with one binding per key. *)

#[local] Unset Elimination Schemes.
Inductive pyval : Type :=
  | VNone
  | VBool (b : bool)
  | VInt (z : Z)
  | VFloat (lexeme : string)
  | VStr (s : string)
  | VList (xs : list pyval)
  | VDict (kvs : list (string * pyval)).
#[local] Set Elimination Schemes.

(** [d[k] = v] on a dict under construction: an existing key keeps its
    position and takes the new value, a new key goes last. *)
Fixpoint dict_set (k : string) (v : pyval) (kvs : list (string * pyval))
  : list (string * pyval) :=
  match kvs with
  | [] => [(k, v)]
  | (k', v') :: rest =>
      if String.eqb k k' then (k, v) :: rest else (k', v') :: dict_set k v rest
  end.

Fixpoint dict_get (k : string) (kvs : list (string * pyval)) : option pyval :=
  match kvs with
  | [] => None
  | (k', v) :: rest => if String.eqb k k' then Some v else dict_get k rest
  end.

(** Truth value of a float lexeme: false when every digit of the mantissa
    is 0 ([NaN] and [Infinity] are true; a lexeme so small that the float
    it denotes rounds to zero is not told apart from a non-zero one). *)
Fixpoint mantissa_is_zero (cs : list ascii) : bool :=
  match cs with
  | [] => true
  | c :: rest =>
      if (Ascii.eqb c "e" || Ascii.eqb c "E")%bool then true
      else if (Ascii.eqb c "-" || Ascii.eqb c "." || Ascii.eqb c "0")%bool
           then mantissa_is_zero rest
           else false
  end.

(** Python truthiness, as used by [if x:], [x or []] and [x and a or b]. *)
Definition truthy (v : pyval) : bool :=
  match v with
  | VNone => false
  | VBool b => b
  | VInt z => negb (Z.eqb z 0)
  | VFloat lx => negb (mantissa_is_zero (list_ascii_of_string lx))
  | VStr s => negb (String.eqb s "")
  | VList xs => match xs with [] => false | _ => true end
  | VDict kvs => match kvs with [] => false | _ => true end
  end.

(** ** Exceptions

    The three classes the module declares, and the built-in ones its code
    can let escape. [JSONDecodeError] is the decoder's own error and
    [UnicodeDecodeError] the one of [bytes.decode] (both subclasses of
    [ValueError] in Python); [OSError] carries which of its subclasses was
    raised. *)

Inductive oserror : Type :=
  | FileNotFoundError
  | PermissionError
  | OtherOSError.

Inductive exn : Type :=
  | Failure (value : pyval)
  | Error (value : pyval)
  | MerlinException (value : pyval)
  | OSError (e : oserror)
  | JSONDecodeError
  | KeyError (key : string)
  | TypeError
  | ValueError (msg : string)
  | AttributeError
  | UnicodeDecodeError.

Inductive outcome (A : Type) : Type :=
  | Ok (a : A)
  | Raised (e : exn).
Arguments Ok {A} a.
Arguments Raised {A} e.

(** ** [json.loads]

    A recursive-descent reading of the decoder the module calls: optional
    white space, one value, optional white space, end of text. Values are
    [null], [true], [false], [NaN], [Infinity], [-Infinity], numbers,
    strings (strict: no raw control character; a backslash escapes a quote,
    a backslash, a slash, one of the letters b f n r t, or u and four
    hexadecimal digits, surrogate pairs being joined), arrays and objects
    (a repeated key keeps its last value). *)

Module Json.

Inductive scan (A : Type) : Type :=
  | Scanned (a : A) (rest : list ascii)
  | Bad
  | OutOfFuel.
Arguments Scanned {A} a rest.
Arguments Bad {A}.
Arguments OutOfFuel {A}.

Definition is_ws (c : ascii) : bool :=
  (Ascii.eqb c " " || Ascii.eqb c "009" || Ascii.eqb c "010" || Ascii.eqb c "013")%bool.

Fixpoint skip_ws (s : list ascii) : list ascii :=
  match s with
  | c :: rest => if is_ws c then skip_ws rest else s
  | [] => []
  end.

Fixpoint strip_prefix (p s : list ascii) : option (list ascii) :=
  match p, s with
  | [], _ => Some s
  | a :: p', b :: s' => if Ascii.eqb a b then strip_prefix p' s' else None
  | _ :: _, [] => None
  end.

Definition is_digit (c : ascii) : bool :=
  let n := nat_of_ascii c in (Nat.leb 48 n && Nat.leb n 57)%bool.

Definition digit_val (c : ascii) : Z := Z.of_nat (nat_of_ascii c) - 48.

(** The longest run of digits at the head of [s]. *)
Fixpoint span_digits (s : list ascii) : list ascii * list ascii :=
  match s with
  | c :: rest =>
      if is_digit c then let '(ds, r) := span_digits rest in (c :: ds, r)
      else ([], s)
  | [] => ([], [])
  end.

Definition Z_of_digits (ds : list ascii) : Z :=
  fold_left (fun acc c => 10 * acc + digit_val c)%Z ds 0%Z.

(** Integer part [0|[1-9][0-9]*] of a number. *)
Definition scan_intpart (s : list ascii) : option (list ascii * list ascii) :=
  match s with
  | c :: rest =>
      if Ascii.eqb c "0" then Some ([c], rest)
      else if is_digit c then let '(ds, r) := span_digits rest in Some (c :: ds, r)
      else None
  | [] => None
  end.

(** Optional fraction [\.[0-9]+]: absent when no digit follows the dot. *)
Definition scan_frac (s : list ascii) : list ascii * list ascii :=
  match s with
  | c :: rest =>
      if Ascii.eqb c "." then
        match span_digits rest with
        | ([], _) => ([], s)
        | (ds, r) => (c :: ds, r)
        end
      else ([], s)
  | [] => ([], [])
  end.

(** Optional exponent [[eE][-+]?[0-9]+]. *)
Definition scan_exp (s : list ascii) : list ascii * list ascii :=
  match s with
  | e :: rest =>
      if (Ascii.eqb e "e" || Ascii.eqb e "E")%bool then
        let '(sign, rest') :=
          match rest with
          | c :: r' =>
              if (Ascii.eqb c "+" || Ascii.eqb c "-")%bool then ([c], r') else ([], rest)
          | [] => ([], [])
          end in
        match span_digits rest' with
        | ([], _) => ([], s)
        | (ds, r) => (e :: sign ++ ds, r)
        end
      else ([], s)
  | [] => ([], [])
  end.

Definition scan_number (s : list ascii) : scan pyval :=
  let '(neg, s1) :=
    match s with
    | c :: r => if Ascii.eqb c "-" then (true, r) else (false, s)
    | [] => (false, s)
    end in
  match scan_intpart s1 with
  | None => Bad
  | Some (ip, s2) =>
      let '(fr, s3) := scan_frac s2 in
      let '(ex, s4) := scan_exp s3 in
      match fr, ex with
      | [], [] =>
          Scanned (VInt (if neg then - Z_of_digits ip else Z_of_digits ip)%Z) s4
      | _, _ =>
          Scanned (VFloat (string_of_list_ascii
                             ((if neg then ["-"%char] else []) ++ ip ++ fr ++ ex))) s4
      end
  end.

Definition hex_val (c : ascii) : option N :=
  let n := N_of_ascii c in
  if (N.leb 48 n && N.leb n 57)%bool then Some (n - 48)%N
  else if (N.leb 97 n && N.leb n 102)%bool then Some (n - 87)%N
  else if (N.leb 65 n && N.leb n 70)%bool then Some (n - 55)%N
  else None.

(** Four hexadecimal digits after [\u]. *)
Definition scan_hex4 (s : list ascii) : option (N * list ascii) :=
  match s with
  | a :: b :: c :: d :: rest =>
      match hex_val a, hex_val b, hex_val c, hex_val d with
      | Some x, Some y, Some z, Some w =>
          Some (((x * 16 + y) * 16 + z) * 16 + w, rest)%N
      | _, _, _, _ => None
      end
  | _ => None
  end.

(** UTF-8 bytes of a code point (a lone surrogate takes the three-byte form). *)
Definition utf8 (cp : N) : list ascii :=
  let byte n := ascii_of_N n in
  if (cp <? 128)%N then [byte cp]
  else if (cp <? 2048)%N then
    [byte (192 + cp / 64); byte (128 + cp mod 64)]%N
  else if (cp <? 65536)%N then
    [byte (224 + cp / 4096); byte (128 + (cp / 64) mod 64); byte (128 + cp mod 64)]%N
  else
    [byte (240 + cp / 262144); byte (128 + (cp / 4096) mod 64);
     byte (128 + (cp / 64) mod 64); byte (128 + cp mod 64)]%N.

(** The code point of a [\uXXXX] escape whose four digits gave [hi], with a
    following low surrogate joined to a high one. *)
Definition join_surrogate (hi : N) (s : list ascii) : N * list ascii :=
  if (N.leb 55296 hi && N.leb hi 56319)%bool then
    match s with
    | b :: u :: s' =>
        if (Ascii.eqb b "\" && Ascii.eqb u "u")%bool then
          match scan_hex4 s' with
          | Some (lo, s'') =>
              if (N.leb 56320 lo && N.leb lo 57343)%bool
              then (65536 + (hi - 55296) * 1024 + (lo - 56320), s'')%N
              else (hi, s)
          | None => (hi, s)
          end
        else (hi, s)
    | _ => (hi, s)
    end
  else (hi, s).

(** Body of a string literal, after the opening quote. *)
Fixpoint scan_chars (fuel : nat) (s acc : list ascii) : scan string :=
  match fuel with
  | O => OutOfFuel
  | S fuel' =>
      match s with
      | [] => Bad
      | c :: rest =>
          if Ascii.eqb c "034" then Scanned (string_of_list_ascii (rev acc)) rest
          else if Ascii.eqb c "\" then
            match rest with
            | [] => Bad
            | e :: rest' =>
                let plain x := scan_chars fuel' rest' (x :: acc) in
                if Ascii.eqb e "034" then plain "034"%char
                else if Ascii.eqb e "\" then plain "\"%char
                else if Ascii.eqb e "/" then plain "/"%char
                else if Ascii.eqb e "b" then plain "008"%char
                else if Ascii.eqb e "f" then plain "012"%char
                else if Ascii.eqb e "n" then plain "010"%char
                else if Ascii.eqb e "r" then plain "013"%char
                else if Ascii.eqb e "t" then plain "009"%char
                else if Ascii.eqb e "u" then
                  match scan_hex4 rest' with
                  | Some (hi, r1) =>
                      let '(cp, r2) := join_surrogate hi r1 in
                      scan_chars fuel' r2 (rev (utf8 cp) ++ acc)
                  | None => Bad
                  end
                else Bad
            end
          else if Nat.ltb (nat_of_ascii c) 32 then Bad
          else scan_chars fuel' rest (c :: acc)
      end
  end.

Definition scan_string (s : list ascii) : scan string :=
  scan_chars (S (length s)) s [].

Definition literal (word : string) (v : pyval) (s : list ascii) : scan pyval :=
  match strip_prefix (list_ascii_of_string word) s with
  | Some rest => Scanned v rest
  | None => Bad
  end.

(** One value at the head of [s]; the elements of an array once its opening
    bracket and the first white space are past; the members of an object
    once the first key's opening quote is due. *)
Fixpoint scan_value (fuel : nat) (s : list ascii) : scan pyval :=
  match fuel with
  | O => OutOfFuel
  | S fuel' =>
      match s with
      | [] => Bad
      | c :: rest =>
          if Ascii.eqb c "034" then
            match scan_string rest with
            | Scanned str r => Scanned (VStr str) r
            | Bad => Bad
            | OutOfFuel => OutOfFuel
            end
          else if Ascii.eqb c "{" then
            match skip_ws rest with
            | c' :: r' =>
                if Ascii.eqb c' "}" then Scanned (VDict []) r'
                else scan_members fuel' (c' :: r') []
            | [] => Bad
            end
          else if Ascii.eqb c "[" then
            match skip_ws rest with
            | c' :: r' =>
                if Ascii.eqb c' "]" then Scanned (VList []) r'
                else scan_elements fuel' (c' :: r') []
            | [] => Bad
            end
          else if Ascii.eqb c "n" then literal "null" VNone s
          else if Ascii.eqb c "t" then literal "true" (VBool true) s
          else if Ascii.eqb c "f" then literal "false" (VBool false) s
          else if Ascii.eqb c "N" then literal "NaN" (VFloat "NaN") s
          else if Ascii.eqb c "I" then literal "Infinity" (VFloat "Infinity") s
          else
            match scan_number s with
            | Scanned v r => Scanned v r
            | _ => if Ascii.eqb c "-"
                   then literal "-Infinity" (VFloat "-Infinity") s
                   else Bad
            end
      end
  end

with scan_elements (fuel : nat) (s : list ascii) (acc : list pyval) : scan pyval :=
  match fuel with
  | O => OutOfFuel
  | S fuel' =>
      match scan_value fuel' s with
      | Scanned v r =>
          match skip_ws r with
          | c :: r' =>
              if Ascii.eqb c "]" then Scanned (VList (rev (v :: acc))) r'
              else if Ascii.eqb c "," then scan_elements fuel' (skip_ws r') (v :: acc)
              else Bad
          | [] => Bad
          end
      | Bad => Bad
      | OutOfFuel => OutOfFuel
      end
  end

with scan_members (fuel : nat) (s : list ascii) (acc : list (string * pyval))
  : scan pyval :=
  match fuel with
  | O => OutOfFuel
  | S fuel' =>
      match s with
      | q :: s0 =>
          if Ascii.eqb q "034" then
            match scan_string s0 with
            | Scanned key r0 =>
                match skip_ws r0 with
                | colon :: r1 =>
                    if Ascii.eqb colon ":" then
                      match scan_value fuel' (skip_ws r1) with
                      | Scanned v r2 =>
                          match skip_ws r2 with
                          | c :: r3 =>
                              if Ascii.eqb c "}"
                              then Scanned (VDict (dict_set key v acc)) r3
                              else if Ascii.eqb c ","
                              then scan_members fuel' (skip_ws r3) (dict_set key v acc)
                              else Bad
                          | [] => Bad
                          end
                      | Bad => Bad
                      | OutOfFuel => OutOfFuel
                      end
                    else Bad
                | [] => Bad
                end
            | Bad => Bad
            | OutOfFuel => OutOfFuel
            end
          else Bad
      | [] => Bad
      end
  end.

(** [json.loads(text)]: [Raised JSONDecodeError] when the text is not one
    JSON value. The fuel, more than twice the length of the text, is never
    used up ([decode_fuel] below). *)
Definition decode (text : string) : scan pyval :=
  let s := list_ascii_of_string text in
  match scan_value (S (2 * length s)) (skip_ws s) with
  | Scanned v r =>
      match skip_ws r with
      | [] => Scanned v []
      | _ :: _ => Bad
      end
  | Bad => Bad
  | OutOfFuel => OutOfFuel
  end.

Definition loads (text : string) : outcome pyval :=
  match decode text with
  | Scanned v _ => Ok v
  | _ => Raised JSONDecodeError
  end.

End Json.

(** ** Indexing and iterating decoded values *)

(** [obj[key]] for a string key: only a dict can be indexed that way. *)
Definition getitem (obj : pyval) (key : string) : outcome pyval :=
  match obj with
  | VDict kvs =>
      match dict_get key kvs with
      | Some v => Ok v
      | None => Raised (KeyError key)
      end
  | _ => Raised TypeError
  end.

(** The characters of a text: each lead byte with its continuation bytes. *)
Fixpoint utf8_chars (cs : list ascii) (cur : list ascii) : list string :=
  let flush := match cur with [] => [] | _ => [string_of_list_ascii (rev cur)] end in
  match cs with
  | [] => flush
  | c :: rest =>
      let n := nat_of_ascii c in
      if (Nat.leb 128 n && Nat.ltb n 192)%bool
      then utf8_chars rest (c :: cur)
      else flush ++ utf8_chars rest [c]
  end.

(** [for msg in obj]: a list gives its elements, a text its characters, a
    dict its keys; nothing else can be iterated. *)
Definition iterate (obj : pyval) : outcome (list pyval) :=
  match obj with
  | VList xs => Ok xs
  | VStr s => Ok (map VStr (utf8_chars (list_ascii_of_string s) []))
  | VDict kvs => Ok (map (fun kv => VStr (fst kv)) kvs)
  | _ => Raised TypeError
  end.

(** ** Verbosity tracking keys

    What a caller may pass as [track_verbosity]: [None], a boolean, an
    integer, a text, or a list of texts (the argument list itself once
    [True] has been replaced by it). *)

Inductive track_key : Type :=
  | TNone
  | TBool (b : bool)
  | TInt (z : Z)
  | TStr (s : string)
  | TList (l : list string).

Definition key_truthy (k : track_key) : bool :=
  match k with
  | TNone => false
  | TBool b => b
  | TInt z => negb (Z.eqb z 0)
  | TStr s => negb (String.eqb s "")
  | TList l => match l with [] => false | _ => true end
  end.

(** Python's [==] on keys: a boolean equals the integer 0 or 1 it stands
    for, otherwise values of different types differ. *)
Definition key_eq (a b : track_key) : bool :=
  match a, b with
  | TNone, TNone => true
  | TBool x, TBool y => Bool.eqb x y
  | TBool x, TInt z | TInt z, TBool x => Z.eqb z (if x then 1 else 0)
  | TInt x, TInt y => Z.eqb x y
  | TStr x, TStr y => String.eqb x y
  | TList x, TList y => bool_decide (x = y)
  | _, _ => false
  end.

(** ** The world the module runs in

    The operating system is consulted through [Popen], which either fails
    to start the program or gives the function from the text sent on
    standard input to the pair (standard output, standard error); the
    editor through the two settings stores, the name and the text of the
    bound view. [stdout] is what the module itself has printed.
    [environ_PATH] holds the entries of [os.environ['PATH']], split at
    [os.pathsep]: a search path that is set has at least one entry (the
    empty text for an empty search path), and the empty list stands for an
    environment in which [PATH] is not set. [opam_config_var_bin] is what
    the shell command [opam config var bin] prints on its standard output,
    decoded: [None] when these bytes are not UTF-8. Texts are kept as the
    bytes of their UTF-8 form. *)

Inductive spawned : Type :=
  | SpawnFails (e : oserror)
  | Runs (communicate : option string -> string * string).

Inductive printed : Type :=
  | PrintCommand (command : list string)
  | PrintText (text : string)
  | PrintNotification (msg : pyval).

Inductive settings_ref : Type := MerlinSublimeSettings.

Record OS : Type := {
  Popen : list string -> list string -> spawned;
  opam_config_var_bin : option string;
  isfile_and_X_OK : string -> bool;
  win32 : bool
}.

Definition entry : Type := list string * option string * option string.

Record MerlinProcess : Type := {
  _settings : option settings_ref;
  _binary_path : option string;
  _last_commands : list entry;
  _verbosity_counter : track_key * option nat
}.

Record World : Type := {
  os : OS;
  environ_PATH : list string;
  merlin_settings : gmap string pyval;
  view_settings : gmap string pyval;
  view_file_name : option string;
  view_text : string;
  stdout : list printed;
  self : MerlinProcess
}.

Definition with_self (p : MerlinProcess) (w : World) : World :=
  {| os := os w; environ_PATH := environ_PATH w;
     merlin_settings := merlin_settings w; view_settings := view_settings w;
     view_file_name := view_file_name w; view_text := view_text w;
     stdout := stdout w; self := p |}.

Definition with_stdout (out : list printed) (w : World) : World :=
  {| os := os w; environ_PATH := environ_PATH w;
     merlin_settings := merlin_settings w; view_settings := view_settings w;
     view_file_name := view_file_name w; view_text := view_text w;
     stdout := out; self := self w |}.

Definition with_PATH (path : list string) (w : World) : World :=
  {| os := os w; environ_PATH := path;
     merlin_settings := merlin_settings w; view_settings := view_settings w;
     view_file_name := view_file_name w; view_text := view_text w;
     stdout := stdout w; self := self w |}.

Definition with_view_settings (m : gmap string pyval) (w : World) : World :=
  {| os := os w; environ_PATH := environ_PATH w;
     merlin_settings := merlin_settings w; view_settings := m;
     view_file_name := view_file_name w; view_text := view_text w;
     stdout := stdout w; self := self w |}.

(** ** Computations: state of the world, and exceptions

    A raised exception keeps the state reached when it was raised. *)

Definition M (A : Type) : Type := World -> outcome A * World.

Definition ret {A} (a : A) : M A := fun w => (Ok a, w).
Definition raise {A} (e : exn) : M A := fun w => (Raised e, w).

Definition bind {A B} (m : M A) (f : A -> M B) : M B :=
  fun w =>
    match m w with
    | (Ok a, w') => f a w'
    | (Raised e, w') => (Raised e, w')
    end.

Notation "x <- m ;; k" := (bind m (fun x => k))
  (at level 62, m at next level, right associativity).
Notation "m ;;; k" := (bind m (fun _ => k))
  (at level 62, right associativity).

Definition lift {A} (o : outcome A) : M A := fun w => (o, w).

(** [try: body except (...) as e: handler e] *)
Definition try_except {A} (body : M A) (handler : exn -> M A) : M A :=
  fun w =>
    match body w with
    | (Ok a, w') => (Ok a, w')
    | (Raised e, w') => handler e w'
    end.

Definition print (p : printed) : M unit :=
  fun w => (Ok tt, with_stdout (stdout w ++ [p]) w).

Fixpoint for_each {A} (xs : list A) (body : A -> M unit) : M unit :=
  match xs with
  | [] => ret tt
  | x :: rest => body x ;;; for_each rest body
  end.

(** [settings.get(key)]: the stored value, [None] when the key is unset. *)
Definition settings_get (m : gmap string pyval) (key : string) : pyval :=
  default VNone (m !! key).

(** The typed reading of a setting or of an argument taken from one: a
    text or [None] where a text is expected; where a list of texts is
    expected, a list of texts, or any false value, which [x or []] and
    [if x:] treat like [None]. A value of another type is outside what is
    modelled: the reading raises [TypeError] where the interpreter would go
    on with it. *)
Definition opt_str (v : pyval) : outcome (option string) :=
  match v with
  | VNone => Ok None
  | VStr s => Ok (Some s)
  | _ => Raised TypeError
  end.

Fixpoint strs (xs : list pyval) : option (list string) :=
  match xs with
  | [] => Some []
  | VStr s :: rest => option_map (cons s) (strs rest)
  | _ :: _ => None
  end.

Definition opt_strs (v : pyval) : outcome (option (list string)) :=
  if truthy v then
    match v with
    | VList xs =>
        match strs xs with
        | Some l => Ok (Some l)
        | None => Raised TypeError
        end
    | _ => Raised TypeError
    end
  else Ok None.

(** [x or []] *)
Definition or_empty (x : option (list string)) : list string :=
  match x with
  | Some l => l
  | None => []
  end.

(** The ASCII white space characters: tab to carriage return, the four
    separators 28 to 31, and the space. *)
Definition is_space (c : ascii) : bool :=
  let n := nat_of_ascii c in
  ((Nat.leb 9 n && Nat.leb n 13) || (Nat.leb 28 n && Nat.leb n 32))%bool.

(** The white space characters of [str.isspace] beyond ASCII, by the bytes
    of their UTF-8 form: U+0085 and U+00A0 on two bytes; U+1680, U+2000 to
    U+200A, U+2028, U+2029, U+202F, U+205F and U+3000 on three. *)
Definition is_space2 (b1 b2 : ascii) : bool :=
  (Nat.eqb (nat_of_ascii b1) 194
   && (Nat.eqb (nat_of_ascii b2) 133 || Nat.eqb (nat_of_ascii b2) 160))%bool.

Definition is_space3 (b1 b2 b3 : ascii) : bool :=
  let n1 := nat_of_ascii b1 in
  let n2 := nat_of_ascii b2 in
  let n3 := nat_of_ascii b3 in
  ((Nat.eqb n1 225 && Nat.eqb n2 154 && Nat.eqb n3 128)
   || (Nat.eqb n1 226 && Nat.eqb n2 128
       && ((Nat.leb 128 n3 && Nat.leb n3 138)
           || Nat.eqb n3 168 || Nat.eqb n3 169 || Nat.eqb n3 175))
   || (Nat.eqb n1 226 && Nat.eqb n2 129 && Nat.eqb n3 159)
   || (Nat.eqb n1 227 && Nat.eqb n2 128 && Nat.eqb n3 128))%bool.

(** The bytes of a text from its last one backwards, without the white
    space characters the text ends with. *)
Fixpoint strip_reversed (cs : list ascii) : list ascii :=
  match cs with
  | [] => []
  | b3 :: before =>
      if is_space b3 then strip_reversed before
      else
        match before with
        | [] => cs
        | b2 :: before2 =>
            if is_space2 b2 b3 then strip_reversed before2
            else
              match before2 with
              | [] => cs
              | b1 :: before3 =>
                  if is_space3 b1 b2 b3 then strip_reversed before3 else cs
              end
        end
  end.

(** [str.rstrip()]: the text without the white space characters at its
    end, those of [str.isspace]. *)
Definition rstrip (s : string) : string :=
  string_of_list_ascii (rev (strip_reversed (rev (list_ascii_of_string s)))).

(** Keyword arguments of [MerlinProcess.command], with their defaults. *)
Module kw.
Record t : Type := {
  binary_path : option string;
  filename : option string;
  extensions : option (list string);
  packages : option (list string);
  dot_merlins : option (list string);
  input : option string;
  other_flags : option (list string);
  debug : bool;
  build_path : option (list string);
  source_path : option (list string);
  track_verbosity : track_key
}.

Definition defaults : t :=
  {| binary_path := None; filename := None; extensions := None;
     packages := None; dot_merlins := None; input := None;
     other_flags := None; debug := false; build_path := None;
     source_path := None; track_verbosity := TNone |}.
End kw.

(** ** [class MerlinProcess] *)

Module MerlinProcess.

(** The object as [__init__] (that is, [clear]) leaves it. *)
Definition fresh : MerlinProcess :=
  {| _settings := None; _binary_path := None; _last_commands := [];
     _verbosity_counter := (TNone, None) |}.

Definition clear : M unit :=
  fun w => (Ok tt, with_self fresh w).

Definition settings : M (gmap string pyval) :=
  fun w =>
    let p := self w in
    let p' :=
      match _settings p with
      | None =>
          {| _settings := Some MerlinSublimeSettings;
             _binary_path := _binary_path p;
             _last_commands := _last_commands p;
             _verbosity_counter := _verbosity_counter p |}
      | Some _ => p
      end in
    (Ok (merlin_settings w), with_self p' w).

Definition set_binary_path (path : string) : M unit :=
  fun w =>
    let p := self w in
    (Ok tt, with_self {| _settings := _settings p;
                         _binary_path := Some path;
                         _last_commands := _last_commands p;
                         _verbosity_counter := _verbosity_counter p |} w).

Definition binary_path : M string :=
  cached <- (fun w => (Ok (_binary_path (self w)), w)) ;;
  match cached with
  | Some path => ret path
  | None =>
      s <- settings ;;
      let merlin_path := settings_get s "ocamlmerlin_path" in
      if truthy merlin_path then
        (* A true value that is not a text (a number, a list, ...) cannot
           be started: the code caches it and the spawn that follows
           raises [TypeError]. The cache holds texts only, so that
           [TypeError] is raised here, without the cached value and the
           pending entry that the code leaves behind in this case. *)
        path <- lift (match merlin_path with
                      | VStr p => Ok p
                      | _ => Raised TypeError
                      end) ;;
        set_binary_path path ;;;
        ret path
      else
        (* [os.environ['PATH']] raises [KeyError] when [PATH] is not set *)
        (fun w =>
           match environ_PATH w with
           | [] => (Raised (KeyError "PATH"), w)
           | _ :: _ =>
               if bool_decide ("/usr/local/bin" ∈ environ_PATH w) then (Ok tt, w)
               else (Ok tt, with_PATH (environ_PATH w ++ ["/usr/local/bin"]) w)
           end) ;;;
        opam_bin <-
          (fun w => (match opam_config_var_bin (os w) with
                     | Some out => Ok out
                     | None => Raised UnicodeDecodeError
                     end, w)) ;;
        let opam_bin_path := rstrip opam_bin +:+ "/ocamlmerlin" in
        usable <- (fun w => (Ok (isfile_and_X_OK (os w) opam_bin_path), w)) ;;
        let path := if (usable : bool) then opam_bin_path else "ocamlmerlin" in
        set_binary_path path ;;;
        ret path
  end.

(** [store_last_command] on the list itself. *)
Definition stored (command : list string) (response errors : option string)
    (last_commands : list entry) : list entry :=
  match last_commands with
  | front :: rest =>
      if bool_decide (front = (command, None, None))
      then (command, response, errors) :: rest
      else
        let inserted := (command, response, errors) :: last_commands in
        if Nat.ltb 5 (length inserted) then removelast inserted else inserted
  | [] =>
      let inserted := [(command, response, errors)] in
      if Nat.ltb 5 (length inserted) then removelast inserted else inserted
  end.

Definition store_last_command (command : list string)
    (response errors : option string) : M unit :=
  fun w =>
    let p := self w in
    (Ok tt, with_self {| _settings := _settings p;
                         _binary_path := _binary_path p;
                         _last_commands :=
                           stored command response errors (_last_commands p);
                         _verbosity_counter := _verbosity_counter p |} w).

Definition set_verbosity_counter (c : track_key * option nat) : M unit :=
  fun w =>
    let p := self w in
    (Ok tt, with_self {| _settings := _settings p;
                         _binary_path := _binary_path p;
                         _last_commands := _last_commands p;
                         _verbosity_counter := c |} w).

Definition track_verbosity (key : track_key) (args : list string)
  : M (list string) :=
  if key_truthy key then
    let key := match key with TBool true => TList args | _ => key end in
    counter <- (fun w => (Ok (_verbosity_counter (self w)), w)) ;;
    count <-
      (if key_eq (fst counter) key then
         match snd counter with
         | Some n => ret (n + 1)%nat
         | None => raise TypeError
         end
       else ret 0%nat) ;;
    set_verbosity_counter (key, Some count) ;;;
    ret ["-verbosity"; pretty count]
  else ret [].

(** [subprocess.Popen(command, ...)]; both platform branches start the
    same program on the same pipes, the first one with its window hidden. *)
Definition popen (command : list string) : M (option string -> string * string) :=
  fun w =>
    let started :=
      if win32 (os w) then Popen (os w) (environ_PATH w) command
      else Popen (os w) (environ_PATH w) command in
    match started with
    | SpawnFails e => (Raised (OSError e), w)
    | Runs communicate => (Ok communicate, w)
    end.

Definition spawn_failure_message : string :=
  "Failed starting ocamlmerlin. Please ensure that ocamlmerlinbinary is executable.".

Definition exec (arguments : list string) (binary_path_arg : option string)
    (input : option string) : M string :=
  try_except
    (path <- match binary_path_arg with
             | None => binary_path
             | Some path => ret path
             end ;;
     let command := [path] ++ arguments in
     store_last_command command None None ;;;
     process <- popen command ;;
     print (PrintCommand command) ;;;
     let '(response, errors) := process input in
     store_last_command command (Some response) (Some errors) ;;;
     ret response)
    (fun e =>
       match e with
       | OSError _ => print (PrintText spawn_failure_message) ;;; raise e
       | _ => raise e
       end).

Definition restart : M unit :=
  exec ["server"; "stop-server"] None (Some "") ;;;
  clear.

Fixpoint for_extend (flag : string) (items cmdline : list string) : list string :=
  match items with
  | [] => cmdline
  | item :: rest => for_extend flag rest (cmdline ++ [flag; item])
  end.

(** The argument list that [command] hands to [exec]. *)
Definition cmdline (args : list string) (k : kw.t) : M (list string) :=
  let cmdline := ["server"] in
  let cmdline := cmdline ++ args in
  let cmdline :=
    match kw.filename k with
    | Some filename =>
        if negb (String.eqb filename "")
        then cmdline ++ ["-filename"; filename] else cmdline
    | None => cmdline
    end in
  verbosity <- track_verbosity (kw.track_verbosity k) args ;;
  let cmdline := cmdline ++ verbosity in
  let cmdline := for_extend "-extension" (or_empty (kw.extensions k)) cmdline in
  let cmdline := for_extend "-package" (or_empty (kw.packages k)) cmdline in
  let cmdline := for_extend "-dot-merlin" (or_empty (kw.dot_merlins k)) cmdline in
  let cmdline := for_extend "-build-path" (or_empty (kw.build_path k)) cmdline in
  let cmdline := for_extend "-source-path" (or_empty (kw.source_path k)) cmdline in
  let cmdline := if kw.debug k then cmdline ++ ["-log-file"; "-"] else cmdline in
  s <- settings ;;
  flags <- lift (opt_strs (settings_get s "ocamlmerlin_flags")) ;;
  let flags := or_empty flags in
  let cmdline := cmdline ++ flags in
  let cmdline :=
    match kw.other_flags k with
    | Some (f :: fs) => cmdline ++ (f :: fs)
    | _ => cmdline
    end in
  ret cmdline.

Definition is_class (class_ : pyval) (name : string) : bool :=
  match class_ with
  | VStr s => String.eqb s name
  | _ => false
  end.

(** What [command] does with the text [exec] returned. *)
Definition response (result : string) : M pyval :=
  print (PrintText result) ;;;
  result <- lift (Json.loads result) ;;
  class_ <- lift (getitem result "class") ;;
  content <- lift (getitem result "value") ;;
  notifications <- lift (getitem result "notifications") ;;
  msgs <- lift (iterate notifications) ;;
  for_each msgs (fun msg => print (PrintNotification msg)) ;;;
  if is_class class_ "return" then ret content
  else if is_class class_ "failure" then raise (Failure content)
  else if is_class class_ "error" then raise (Error content)
  else if is_class class_ "exception" then raise (MerlinException content)
  else ret VNone.

Definition command (args : list string) (k : kw.t) : M pyval :=
  cmdline <- cmdline args k ;;
  result <- exec cmdline (kw.binary_path k) (kw.input k) ;;
  response result.

End MerlinProcess.

(** ** [fmtpos] (helpers.py)

    The argument is [None], a dict, a tuple, a list, or something else (a
    bare number or text); a coordinate is a number or a text, which
    [format] prints as it is. *)

Inductive coord : Type :=
  | CInt (z : Z)
  | CStr (s : string).

Inductive posarg : Type :=
  | PosNone
  | PosDict (d : gmap string coord)
  | PosTuple (items : list coord)
  | PosList (items : list coord)
  | PosOther (c : coord).

Definition format_coord (c : coord) : string :=
  match c with
  | CInt z => pretty z
  | CStr s => s
  end.

Definition fmtpos_message : string :=
  "fmtpos takes None, (line,col) or { 'line' : _, 'col' : _ }".

(** [(line, col) = arg]: the interpreter's own [ValueError] when [arg] does
    not hold exactly two items. *)
Definition unpack2 (items : list coord) : outcome (coord * coord) :=
  match items with
  | [line; col] => Ok (line, col)
  | _ => Raised (ValueError "unpack")
  end.

Definition fmtpos (arg : posarg) : outcome string :=
  match arg with
  | PosNone => Ok "end"
  | _ =>
      match
        match arg with
        | PosDict d =>
            match d !! "line" with
            | None => Raised (KeyError "line")
            | Some line =>
                match d !! "col" with
                | None => Raised (KeyError "col")
                | Some col => Ok (line, col)
                end
            end
        | PosTuple items | PosList items => unpack2 items
        | _ => Raised (ValueError fmtpos_message)
        end
      with
      | Ok (line, col) => Ok (format_coord line +:+ ":" +:+ format_coord col)
      | Raised e => Raised e
      end
  end.

(** ** [class MerlinView] *)

Module MerlinView.

(** [self.view.settings().get(key)] *)
Definition view_get (key : string) : M pyval :=
  fun w => (Ok (settings_get (view_settings w) key), w).

(** [self.view.settings().set(key, value)] *)
Definition view_set (key : string) (value : pyval) : M unit :=
  fun w => (Ok tt, with_view_settings (<[key := value]> (view_settings w)) w).

Definition command (args : list string) (track_verbosity : track_key) : M pyval :=
  binary_path <- view_get "ocamlmerlin_path" ;;
  dot_merlins <- view_get "ocamlmerlin_dot_merlins" ;;
  extensions <- view_get "ocamlmerlin_extensions" ;;
  filename <- (fun w => (Ok (view_file_name w), w)) ;;
  input <- (fun w => (Ok (view_text w), w)) ;;
  other_flags <- view_get "ocamlmerlin_flags" ;;
  packages <- view_get "ocamlmerlin_packages" ;;
  build_path <- view_get "ocamlmerlin_buildpath" ;;
  source_path <- view_get "ocamlmerlin_sourcepath" ;;
  binary_path <- lift (opt_str binary_path) ;;
  dot_merlins <- lift (opt_strs dot_merlins) ;;
  extensions <- lift (opt_strs extensions) ;;
  other_flags <- lift (opt_strs other_flags) ;;
  packages <- lift (opt_strs packages) ;;
  build_path <- lift (opt_strs build_path) ;;
  source_path <- lift (opt_strs source_path) ;;
  MerlinProcess.command args
    {| kw.binary_path := binary_path; kw.filename := filename;
       kw.extensions := extensions; kw.packages := packages;
       kw.dot_merlins := dot_merlins; kw.input := Some input;
       kw.other_flags := other_flags; kw.debug := false;
       kw.build_path := build_path; kw.source_path := source_path;
       kw.track_verbosity := track_verbosity |}.

Definition complete_cursor (base : string) (line col : Z) : M pyval :=
  s <- MerlinProcess.settings ;;
  let with_doc := settings_get s "ocamlmerlin_complete_with_doc" in
  let cmd := ["complete-prefix"] in
  pos <- lift (fmtpos (PosTuple [CInt line; CInt col])) ;;
  let cmd := cmd ++ ["-position"; pos; "-prefix"; base] in
  let cmd := cmd ++ ["-doc"; if truthy with_doc then "y" else "n"] in
  command cmd (TBool true).

Definition report_errors : M pyval := command ["errors"] TNone.

Definition find_list : M pyval := command ["findlib-list"] TNone.

Definition set_packages (packages : pyval) : M unit :=
  view_set "ocamlmerlin_packages" packages.

(** [project] calls [self.send_query], which the class does not define. *)
Definition project : M (pyval * pyval) := raise AttributeError.

(** [x or []] on a stored value. *)
Definition or_list (v : pyval) : pyval := if truthy v then v else VList [].

Definition list_build_path : M pyval :=
  v <- view_get "ocamlmerlin_buildpath" ;; ret (or_list v).

Definition list_source_path : M pyval :=
  v <- view_get "ocamlmerlin_sourcepath" ;; ret (or_list v).

(** [paths.append(path)]: only a list has the method. *)
Definition append (paths path : pyval) : outcome pyval :=
  match paths with
  | VList xs => Ok (VList (xs ++ [path]))
  | _ => Raised AttributeError
  end.

(** [self.view.settings.set(key, value)], written without the call of
    [settings]: the bound method [self.view.settings] has no attribute
    [set], so the attribute lookup raises before anything is stored. *)
Definition view_settings_method_set (key : string) (value : pyval) : M unit :=
  raise AttributeError.

Definition add_build_path (path : pyval) : M unit :=
  paths <- list_build_path ;;
  paths <- lift (append paths path) ;;
  view_settings_method_set "ocamlmerlin_buildpath" paths.

Definition add_source_path (path : pyval) : M unit :=
  paths <- list_source_path ;;
  paths <- lift (append paths path) ;;
  view_settings_method_set "ocamlmerlin_sourcepath" paths.

Definition which_path (names : list string) : M pyval :=
  command (MerlinProcess.for_extend "-file" names ["path-of-source"]) TNone.

Definition which_with_ext (extensions : list string) : M pyval :=
  command (MerlinProcess.for_extend "-ext" extensions ["list-modules"]) TNone.

Definition type_enclosing (line col : Z) : M pyval :=
  pos <- lift (fmtpos (PosTuple [CInt line; CInt col])) ;;
  command ["type-enclosing"; "-position"; pos] (TBool true).

Definition extension_list : M pyval := command ["extension-list"] TNone.

Definition is_str (ext : string) (v : pyval) : bool :=
  match v with
  | VStr s => String.eqb s ext
  | _ => false
  end.

(** [ext in merlin_exts] for a text [ext]. *)
Definition contains (merlin_exts : pyval) (ext : string) : outcome bool :=
  match merlin_exts with
  | VList xs => Ok (existsb (is_str ext) xs)
  | VDict kvs => Ok (existsb (fun kv => String.eqb (fst kv) ext) kvs)
  | VStr s =>
      Ok (match String.index 0 ext s with Some _ => true | None => false end)
  | _ => Raised TypeError
  end.

(** [merlin_exts.remove(ext)], called only when [ext in merlin_exts]. *)
Fixpoint remove_first (ext : string) (xs : list pyval) : list pyval :=
  match xs with
  | [] => []
  | x :: rest => if is_str ext x then rest else x :: remove_first ext rest
  end.

Definition remove (merlin_exts : pyval) (ext : string) : outcome pyval :=
  match merlin_exts with
  | VList xs => Ok (VList (remove_first ext xs))
  | _ => Raised AttributeError
  end.

Fixpoint enable_loop (exts : list string) (merlin_exts : pyval) : outcome pyval :=
  match exts with
  | [] => Ok merlin_exts
  | ext :: rest =>
      match contains merlin_exts ext with
      | Raised e => Raised e
      | Ok true => enable_loop rest merlin_exts
      | Ok false =>
          match append merlin_exts (VStr ext) with
          | Raised e => Raised e
          | Ok merlin_exts' => enable_loop rest merlin_exts'
          end
      end
  end.

Fixpoint disable_loop (exts : list string) (merlin_exts : pyval) : outcome pyval :=
  match exts with
  | [] => Ok merlin_exts
  | ext :: rest =>
      match contains merlin_exts ext with
      | Raised e => Raised e
      | Ok false => disable_loop rest merlin_exts
      | Ok true =>
          match remove merlin_exts ext with
          | Raised e => Raised e
          | Ok merlin_exts' => disable_loop rest merlin_exts'
          end
      end
  end.

Definition extension_enable (exts : list string) : M unit :=
  merlin_exts <- view_get "ocamlmerlin_extensions" ;;
  merlin_exts <- lift (enable_loop exts merlin_exts) ;;
  view_set "ocamlmerlin_extensions" merlin_exts.

Definition extension_disable (exts : list string) : M unit :=
  merlin_exts <- view_get "ocamlmerlin_extensions" ;;
  merlin_exts <- lift (disable_loop exts merlin_exts) ;;
  view_set "ocamlmerlin_extensions" merlin_exts.

Definition locate (line col : option Z) (ident kind : string) : M pyval :=
  let cmd := ["locate"; "-look-for"; kind] in
  let cmd :=
    match line, col with
    | Some _, Some _ => cmd ++ ["-prefix"; ident]
    | _, _ => cmd
    end in
  command cmd TNone.

End MerlinView.

(** * Vocabulary of the properties *)

(** The command history and the verbosity counter of the process. *)
Definition history (w : World) : list entry := _last_commands (self w).

Definition counter (w : World) : track_key * option nat :=
  _verbosity_counter (self w).

(** The counter holds a count whenever it holds a key: true of a fresh
    object and kept by every call. *)
Definition counter_ok (w : World) : Prop :=
  snd (counter w) = None -> fst (counter w) = TNone.

(** The key a call tracks: the argument list when [True] was passed. *)
Definition tracked (key : track_key) (args : list string) : track_key :=
  match key with
  | TBool true => TList args
  | _ => key
  end.

(** A run of [store_last_command] calls, one per record. *)
Definition record_all (records : list entry) : M unit :=
  for_each records
    (fun r => MerlinProcess.store_last_command (fst (fst r)) (snd (fst r)) (snd r)).

(** One flag before each item. *)
Definition flagged (flag : string) (items : option (list string)) : list string :=
  flat_map (fun item => [flag; item]) (or_empty items).

Definition groups_before (args : list string) (k : kw.t) : list string :=
  ["server"] ++ args
  ++ match kw.filename k with
     | Some name => if String.eqb name "" then [] else ["-filename"; name]
     | None => []
     end.

Definition groups_after (k : kw.t) (global_flags : list string) : list string :=
  flagged "-extension" (kw.extensions k)
  ++ flagged "-package" (kw.packages k)
  ++ flagged "-dot-merlin" (kw.dot_merlins k)
  ++ flagged "-build-path" (kw.build_path k)
  ++ flagged "-source-path" (kw.source_path k)
  ++ (if kw.debug k then ["-log-file"; "-"] else [])
  ++ global_flags
  ++ or_empty (kw.other_flags k).

(** The argument list as the specification describes it: the groups, in
    their order, around the verbosity tokens of the call and with the
    global extra flags read from the settings. *)
Definition argument_groups (args : list string) (k : kw.t)
    (verbosity global_flags : list string) : list string :=
  groups_before args k ++ verbosity ++ groups_after k global_flags.

(** The global extra flags as [command] reads them. *)
Definition global_flags (w : World) : outcome (option (list string)) :=
  opt_strs (settings_get (merlin_settings w) "ocamlmerlin_flags").

(** The program [exec] starts: the path it was given, else the resolved one. *)
Definition chosen_path (binary_path_arg : option string) : M string :=
  match binary_path_arg with
  | None => MerlinProcess.binary_path
  | Some path => ret path
  end.

(** The world once the pending entry of a command is recorded. *)
Definition pending (command : list string) (w : World) : World :=
  snd (MerlinProcess.store_last_command command None None w).

(** The first of the three fields that a decoded object lacks. *)
Definition missing_field (kvs : list (string * pyval)) : option string :=
  match dict_get "class" kvs with
  | None => Some "class"
  | Some _ =>
      match dict_get "value" kvs with
      | None => Some "value"
      | Some _ =>
          match dict_get "notifications" kvs with
          | None => Some "notifications"
          | Some _ => None
          end
      end
  end.

(** The world once [command] has printed the raw text and the messages. *)
Definition logged (raw : string) (msgs : list pyval) (w : World) : World :=
  with_stdout (stdout w ++ PrintText raw :: map PrintNotification msgs) w.

(** Everything but the view's settings store. *)
Definition same_outside_view_settings (w w' : World) : Prop :=
  os w' = os w /\ environ_PATH w' = environ_PATH w
  /\ merlin_settings w' = merlin_settings w
  /\ view_file_name w' = view_file_name w /\ view_text w' = view_text w
  /\ stdout w' = stdout w /\ self w' = self w.

(** The keyword arguments [MerlinView.command] passes on, once read. *)
Definition view_kwargs (w : World) (track_verbosity : track_key)
    (binary_path : option string)
    (dot_merlins extensions other_flags packages build_path source_path
       : option (list string)) : kw.t :=
  {| kw.binary_path := binary_path; kw.filename := view_file_name w;
     kw.extensions := extensions; kw.packages := packages;
     kw.dot_merlins := dot_merlins; kw.input := Some (view_text w);
     kw.other_flags := other_flags; kw.debug := false;
     kw.build_path := build_path; kw.source_path := source_path;
     kw.track_verbosity := track_verbosity |}.

(** The settings of the view have the types the requests expect. *)
Definition view_settings_typed (w : World) (binary_path : option string)
    (dot_merlins extensions other_flags packages build_path source_path
       : option (list string)) : Prop :=
  opt_str (settings_get (view_settings w) "ocamlmerlin_path") = Ok binary_path
  /\ opt_strs (settings_get (view_settings w) "ocamlmerlin_dot_merlins") = Ok dot_merlins
  /\ opt_strs (settings_get (view_settings w) "ocamlmerlin_extensions") = Ok extensions
  /\ opt_strs (settings_get (view_settings w) "ocamlmerlin_flags") = Ok other_flags
  /\ opt_strs (settings_get (view_settings w) "ocamlmerlin_packages") = Ok packages
  /\ opt_strs (settings_get (view_settings w) "ocamlmerlin_buildpath") = Ok build_path
  /\ opt_strs (settings_get (view_settings w) "ocamlmerlin_sourcepath") = Ok source_path.

(** The verb and positional flags of a completion of [Li] at (10,3). *)
Definition complete_prefix_Li_10_3 : list string :=
  ["complete-prefix"; "-position"; "10:3"; "-prefix"; "Li"; "-doc"; "n"].

(** * Sample sessions *)

(** The text [s] with each apostrophe turned into a double quote. *)
Fixpoint dq (s : string) : string :=
  match s with
  | EmptyString => EmptyString
  | String c rest => String (if Ascii.eqb c "'" then "034"%char else c) (dq rest)
  end.

(** A system without the tool and without opam. *)
Definition sample_os : OS :=
  {| Popen := fun _ _ => SpawnFails FileNotFoundError;
     opam_config_var_bin := Some "";
     isfile_and_X_OK := fun _ => false;
     win32 := false |}.

(** A fresh process in an editor without settings, on a system where the
    tool cannot be started. *)
Definition bare_world : World :=
  {| os := sample_os; environ_PATH := ["/usr/bin"];
     merlin_settings := ∅; view_settings := ∅;
     view_file_name := None; view_text := "";
     stdout := []; self := MerlinProcess.fresh |}.

(** A fresh process in an editor without settings, on a system where the
    tool starts and prints [out]. *)
Definition tool_world (out : string) : World :=
  {| os := {| Popen := fun _ _ => Runs (fun _ => (out, ""));
              opam_config_var_bin :=
                Some ("/home/dev/.opam/default/bin"
                      +:+ String "010"%char EmptyString);
              isfile_and_X_OK := fun _ => true;
              win32 := false |};
     environ_PATH := ["/usr/bin"];
     merlin_settings := ∅; view_settings := ∅;
     view_file_name := None; view_text := "";
     stdout := []; self := MerlinProcess.fresh |}.

(** Texts the tool may print. *)
Definition return_text : string :=
  dq "{'class': 'return', 'value': [1, 'a'], 'notifications': ['hint', 7]}".

Definition unknown_class_text : string :=
  dq "{'class': 'warning', 'value': 'deprecated', 'notifications': []}".

(** A request for the errors of the buffer, where the tool cannot start. *)
Definition failed_run : outcome pyval * World :=
  MerlinProcess.command ["errors"] kw.defaults bare_world.

(** The scenario itself: packages [core], no extension, nothing else set. *)
Definition completion_world : World :=
  {| os := sample_os; environ_PATH := ["/usr/bin"];
     merlin_settings := ∅;
     view_settings :=
       <["ocamlmerlin_packages" := VList [VStr "core"]]>
         (<["ocamlmerlin_extensions" := VList []]> ∅);
     view_file_name := Some "src/main.ml"; view_text := "let x = Li";
     stdout := []; self := MerlinProcess.fresh |}.

(** A request with every group present and tracking on. *)
Definition tracking_kwargs : kw.t :=
  {| kw.binary_path := None; kw.filename := Some "a.ml";
     kw.extensions := Some ["lwt"]; kw.packages := Some ["core"; "str"];
     kw.dot_merlins := Some [".merlin"]; kw.input := Some "";
     kw.other_flags := Some ["-w"; "+a"]; kw.debug := true;
     kw.build_path := Some ["_build"]; kw.source_path := Some ["src"];
     kw.track_verbosity := TBool true |}.

(** A session that has tracked the arguments [type-enclosing] four times. *)
Definition seasoned_world : World :=
  with_self
    {| _settings := None; _binary_path := None; _last_commands := [];
       _verbosity_counter := (TList ["type-enclosing"], Some 3) |}
    bare_world.

(** Six distinct commands recorded on a fresh process. *)
Definition six_commands : list entry :=
  [(["m"; "one"], Some "1", Some ""); (["m"; "two"], Some "2", Some "");
   (["m"; "three"], Some "3", Some ""); (["m"; "four"], Some "4", Some "");
   (["m"; "five"], Some "5", Some ""); (["m"; "six"], Some "6", Some "")].

(** * Further code: [clean_whitespace] (helpers.py)

    [' '.join(text.split())]. A text is a list of characters; which
    characters [str.split] takes for white space ([str.isspace]) and the
    space character that [join] puts between the words are parameters. *)

Section CleanWhitespace.

Context {char : Type} (isspace : char -> bool) (space : char).

(** [text.split()]: the maximal runs of characters that are not white
    space, [word] being the run under way. *)
Fixpoint split_from (word text : list char) : list (list char) :=
  match text with
  | [] => match word with [] => [] | _ => [word] end
  | c :: rest =>
      if isspace c then
        match word with
        | [] => split_from [] rest
        | _ => word :: split_from [] rest
        end
      else split_from (word ++ [c]) rest
  end.

Definition split (text : list char) : list (list char) := split_from [] text.

(** [sep.join(words)] *)
Fixpoint join (sep : list char) (words : list (list char)) : list char :=
  match words with
  | [] => []
  | [w] => w
  | w :: rest => w ++ sep ++ join sep rest
  end.

Definition clean_whitespace (text : list char) : list char :=
  join [space] (split text).

(** The characters that are not white space. *)
Definition not_space (c : char) : bool := negb (isspace c).

(** A word as [split] gives them: not empty, no white space in it. *)
Definition is_word (w : list char) : Prop :=
  w <> [] /\ forallb not_space w = true.

End CleanWhitespace.

(** [clean_whitespace] on the texts of this development, with the ASCII
    white space characters. *)
Definition clean_whitespace_ascii (text : string) : string :=
  string_of_list_ascii
    (clean_whitespace is_space " "%char (list_ascii_of_string text)).

(** A text without the colon that separates line and column. *)
Fixpoint colon_free (s : string) : bool :=
  match s with
  | EmptyString => true
  | String c rest => (negb (Ascii.eqb c ":") && colon_free rest)%bool
  end.

(** A text with a tab between two spaces. *)
Definition tabbed_text : list ascii := ["a"; " "; "009"; " "; "b"]%char.

(** The world after [n] calls of [track_verbosity] with the same key and
    arguments. *)
Fixpoint after_tracks (n : nat) (key : track_key) (args : list string)
    (w : World) : World :=
  match n with
  | O => w
  | S n' => snd (MerlinProcess.track_verbosity key args (after_tracks n' key args w))
  end.

(** A view whose settings name the binary, bound to a process that has
    cached another one. *)
Definition pinned_world : World :=
  {| os := sample_os; environ_PATH := ["/usr/bin"];
     merlin_settings := ∅;
     view_settings := <["ocamlmerlin_path" := VStr "/opt/merlin"]> ∅;
     view_file_name := None; view_text := "";
     stdout := [];
     self := {| _settings := None; _binary_path := Some "ocamlmerlin";
                _last_commands := [];
                _verbosity_counter := (TNone, None) |} |}.

(** Whether the text [ext] is among the stored values, and how many times. *)
Definition stored_ext (ext : string) (xs : list pyval) : bool :=
  existsb (MerlinView.is_str ext) xs.

Definition occurrences (ext : string) (xs : list pyval) : nat :=
  length (List.filter (MerlinView.is_str ext) xs).

(** How many times the text [ext] is listed in a request. *)
Definition listed (ext : string) (exts : list string) : nat :=
  length (List.filter (String.eqb ext) exts).

(** An entry of the history that holds a response. *)
Definition with_response (en : entry) : bool :=
  match en with
  | (_, Some _, _) => true
  | (_, None, _) => false
  end.

(** [ys] is [xs] without the first stored occurrence of the text [ext],
    and [xs] itself when [ext] is not stored. *)
Definition without_first (ext : string) (xs ys : list pyval) : Prop :=
  (stored_ext ext xs = false /\ ys = xs)
  \/ exists before after,
       xs = before ++ VStr ext :: after
       /\ stored_ext ext before = false
       /\ ys = before ++ after.

(** [ys] is what is left of [xs] once, for each extension of the request
    in turn, its first stored occurrence is removed. *)
Fixpoint without_firsts (exts : list string) (xs ys : list pyval) : Prop :=
  match exts with
  | [] => ys = xs
  | ext :: rest =>
      exists mid, without_first ext xs mid /\ without_firsts rest mid ys
  end.

(** * Properties *)

Ltac run := unfold bind, ret, raise, lift, try_except; cbn.

(** ** Command history *)

Section History.

Implicit Types (command : list string) (response errors : option string).
Implicit Types (h : list entry).

Lemma stored_pending command response errors h :
  MerlinProcess.stored command response errors ((command, None, None) :: h)
  = (command, response, errors) :: h.
Proof.
  unfold MerlinProcess.stored. rewrite bool_decide_eq_true_2; reflexivity.
Qed.

Lemma stored_insert command response errors h :
  head h <> Some (command, None, None) ->
  length h <= 5 ->
  MerlinProcess.stored command response errors h
  = (command, response, errors) :: take 4 h.
Proof.
  intros Hfront Hlen. unfold MerlinProcess.stored.
  destruct h as [|e0 h]; [reflexivity|].
  rewrite bool_decide_eq_false_2 by (intros ->; apply Hfront; reflexivity).
  destruct h as [|e1 [|e2 [|e3 [|e4 [|e5 h]]]]]; try reflexivity.
  cbn in Hlen. lia.
Qed.

Lemma stored_length command response errors h :
  length h <= 5 ->
  length (MerlinProcess.stored command response errors h) <= 5.
Proof.
  intros Hlen.
  destruct (decide (head h = Some (command, None, None))) as [Hp|Hp].
  - destruct h as [|e0 h]; [discriminate|]. injection Hp as ->.
    rewrite stored_pending. exact Hlen.
  - rewrite stored_insert by assumption. cbn [length].
    rewrite length_take. lia.
Qed.

Lemma stored_front command response errors h :
  exists rest,
    MerlinProcess.stored command response errors h
    = (command, response, errors) :: rest.
Proof.
  unfold MerlinProcess.stored.
  destruct h as [|e0 h]; [eexists; reflexivity|].
  case_bool_decide; [eexists; reflexivity|].
  destruct (Nat.ltb 5 _); [|eexists; reflexivity].
  cbn [removelast]. eexists; reflexivity.
Qed.

Lemma removelast_elem_of (en : entry) (l : list entry) :
  en ∈ removelast l -> en ∈ l.
Proof.
  induction l as [|a [|b l] IH]; cbn [removelast].
  - intros H. exact H.
  - intros H. apply elem_of_nil in H. contradiction.
  - rewrite !elem_of_cons. intros [->|H]; [left; reflexivity|].
    right. apply elem_of_cons, IH, H.
Qed.

(** Recording adds the recorded entry and no other. *)
Lemma stored_elem_of command response errors h en :
  en ∈ MerlinProcess.stored command response errors h ->
  en = (command, response, errors) \/ en ∈ h.
Proof.
  unfold MerlinProcess.stored. destruct h as [|front rest].
  - cbn. rewrite list_elem_of_singleton. intros ->. left. reflexivity.
  - case_bool_decide.
    + rewrite !elem_of_cons. intros [->|H']; [left; reflexivity|right; right; exact H'].
    + destruct (Nat.ltb 5 _); [intros Hin; apply removelast_elem_of in Hin|intros Hin];
        apply elem_of_cons in Hin as [->|Hin]; auto.
Qed.

Lemma record_all_bound records :
  forall w, length (history w) <= 5 ->
            length (history (snd (record_all records w))) <= 5.
Proof.
  induction records as [|[[c r] e] records IH]; intros w Hw; [exact Hw|].
  unfold record_all in *. cbn [for_each]. run.
  apply IH. unfold history. cbn. apply stored_length. exact Hw.
Qed.

End History.

(** ** Verbosity counter *)

Section Verbosity.

Implicit Types (key : track_key) (args : list string) (w : World).

Lemma key_eq_refl key : key_eq key key = true.
Proof.
  destruct key as [|[]|z|s|l]; cbn; try reflexivity.
  - apply Z.eqb_refl.
  - apply String.eqb_refl.
  - apply bool_decide_eq_true_2. reflexivity.
Qed.

(** A call with a key other than the stored one. *)
Lemma track_verbosity_reset key args w :
  key_truthy key = true ->
  key_eq (fst (counter w)) (tracked key args) = false ->
  MerlinProcess.track_verbosity key args w
  = (Ok ["-verbosity"; "0"],
     snd (MerlinProcess.set_verbosity_counter (tracked key args, Some 0) w)).
Proof.
  intros Hk Hne. unfold MerlinProcess.track_verbosity. rewrite Hk. run.
  fold (counter w). fold (tracked key args). rewrite Hne. reflexivity.
Qed.

(** A call with the stored key. *)
Lemma track_verbosity_again key args w n :
  key_truthy key = true ->
  key_eq (fst (counter w)) (tracked key args) = true ->
  snd (counter w) = Some n ->
  MerlinProcess.track_verbosity key args w
  = (Ok ["-verbosity"; pretty (n + 1)],
     snd (MerlinProcess.set_verbosity_counter (tracked key args, Some (n + 1)) w)).
Proof.
  intros Hk He Hn. unfold MerlinProcess.track_verbosity. rewrite Hk. run.
  fold (counter w). fold (tracked key args). rewrite He, Hn. reflexivity.
Qed.

Lemma track_verbosity_off key args w :
  key_truthy key = false ->
  MerlinProcess.track_verbosity key args w = (Ok [], w).
Proof.
  intros Hk. unfold MerlinProcess.track_verbosity. rewrite Hk. reflexivity.
Qed.

Lemma key_eq_None_truthy key args :
  key_truthy key = true -> key_eq TNone (tracked key args) = false.
Proof. destruct key as [|[]|z|s|l]; cbn; intros; congruence. Qed.

(** With a sound counter the call never raises: it gives no token, or the
    flag with a count, and the counter stays sound. *)
Lemma track_verbosity_total key args w :
  counter_ok w ->
  exists tokens w',
    MerlinProcess.track_verbosity key args w = (Ok tokens, w')
    /\ counter_ok w'
    /\ (key_truthy key = false -> tokens = [] /\ w' = w)
    /\ (key_truthy key = true ->
        exists n : nat, tokens = ["-verbosity"; pretty n]
                  /\ counter w' = (tracked key args, Some n))
    /\ os w' = os w /\ environ_PATH w' = environ_PATH w
    /\ merlin_settings w' = merlin_settings w
    /\ view_settings w' = view_settings w
    /\ view_file_name w' = view_file_name w /\ view_text w' = view_text w
    /\ stdout w' = stdout w
    /\ _settings (self w') = _settings (self w)
    /\ _binary_path (self w') = _binary_path (self w)
    /\ history w' = history w.
Proof.
  intros Hok. destruct (key_truthy key) eqn:Hk.
  - destruct (key_eq (fst (counter w)) (tracked key args)) eqn:He.
    + destruct (snd (counter w)) as [n|] eqn:Hn.
      * rewrite (track_verbosity_again key args w n) by assumption.
        do 2 eexists. split; [reflexivity|].
        split; [intros H; discriminate H|].
        split; [discriminate|].
        split; [intros _; exists (n + 1); split; reflexivity|].
        repeat split.
      * rewrite (Hok Hn), key_eq_None_truthy in He by assumption. discriminate.
    + rewrite track_verbosity_reset by assumption.
      do 2 eexists. split; [reflexivity|].
      split; [intros H; discriminate H|].
      split; [discriminate|].
      split; [intros _; exists 0; split; reflexivity|].
      repeat split.
  - rewrite track_verbosity_off by assumption.
    do 2 eexists. split; [reflexivity|].
    split; [assumption|]. split; [intros _; split; reflexivity|].
    split; [discriminate|]. repeat split.
Qed.

End Verbosity.

(** C5, as the code has it. The key of a call counts as supplied when it is
    true in Python's sense: not [None], [False], 0, the empty text or an
    empty list. For every such key [k]: a call whose key differs from the
    stored one emits the count 0 and stores [k] with that count; so two
    successive calls tracking the same [k], on a session that was not
    already tracking it, emit 0 then 1; while the stored key stays the same
    each call emits the stored count plus one. A call whose key is false,
    [None] or any other false value, emits no token and leaves the session
    as it was. *)
Theorem verbosity_counts_per_key :
  forall (key : track_key) (args : list string) (w : World),
    (key_truthy key = true ->
     key_eq (fst (counter w)) (tracked key args) = false ->
     exists w1,
       MerlinProcess.track_verbosity key args w = (Ok ["-verbosity"; "0"], w1)
       /\ counter w1 = (tracked key args, Some 0))
    /\ (key_truthy key = true ->
        key_eq (fst (counter w)) (tracked key args) = false ->
        exists w1 w2,
          MerlinProcess.track_verbosity key args w = (Ok ["-verbosity"; "0"], w1)
          /\ MerlinProcess.track_verbosity key args w1
             = (Ok ["-verbosity"; "1"], w2)
          /\ counter w2 = (tracked key args, Some 1))
    /\ (forall n,
         key_truthy key = true ->
         key_eq (fst (counter w)) (tracked key args) = true ->
         snd (counter w) = Some n ->
         exists w1,
           MerlinProcess.track_verbosity key args w
           = (Ok ["-verbosity"; pretty (n + 1)], w1)
           /\ counter w1 = (tracked key args, Some (n + 1)))
    /\ (key_truthy key = false ->
        MerlinProcess.track_verbosity key args w = (Ok [], w)).
Proof.
  intros key args w. split; [|split; [|split]].
  - intros Hk Hne. eexists.
    split; [apply track_verbosity_reset; assumption|reflexivity].
  - intros Hk Hne. do 2 eexists.
    split; [apply track_verbosity_reset; assumption|].
    split.
    { rewrite (track_verbosity_again key args _ 0);
      [reflexivity|assumption| |reflexivity].
      cbn. apply key_eq_refl. }
    reflexivity.
  - intros n Hk He Hn. eexists.
    split; [apply track_verbosity_again; assumption|reflexivity].
  - apply track_verbosity_off.
Qed.

Lemma verbosity_counts_per_key_witness :
  exists w1 w2,
    MerlinProcess.track_verbosity (TBool true) ["type-enclosing"] bare_world
    = (Ok ["-verbosity"; "0"], w1)
    /\ MerlinProcess.track_verbosity (TBool true) ["type-enclosing"] w1
       = (Ok ["-verbosity"; "1"], w2)
    /\ counter w2 = (TList ["type-enclosing"], Some 1).
Proof.
  apply (proj1 (proj2 (verbosity_counts_per_key (TBool true) ["type-enclosing"]
                         bare_world)));
    reflexivity.
Defined.

(** C5, counterexample. The keys 0, the empty text and the empty list are
    values a caller can pass as the tracking key, and the code takes them
    as no key: two successive calls tracking the number 0 emit no token
    instead of the counts 0 and 1, and store nothing. *)
Lemma verbosity_false_key_emits_nothing :
  MerlinProcess.track_verbosity (TInt 0) ["type-enclosing"] bare_world
  = (Ok [], bare_world)
  /\ MerlinProcess.track_verbosity (TInt 0) ["type-enclosing"]
       (snd (MerlinProcess.track_verbosity (TInt 0) ["type-enclosing"] bare_world))
     = (Ok [], bare_world)
  /\ counter bare_world = (TNone, None)
  /\ MerlinProcess.track_verbosity (TStr "") ["type-enclosing"] bare_world
     = (Ok [], bare_world)
  /\ MerlinProcess.track_verbosity (TList []) ["type-enclosing"] bare_world
     = (Ok [], bare_world).
Proof. repeat split; vm_compute; reflexivity. Qed.

(** ** Invocation builder *)

Section Builder.

Implicit Types (args cl : list string) (k : kw.t) (w : World).

Lemma for_extend_flat_map flag items :
  forall cl,
    MerlinProcess.for_extend flag items cl
    = cl ++ flat_map (fun item => [flag; item]) items.
Proof.
  induction items as [|item items IH]; intros cl; cbn [MerlinProcess.for_extend flat_map].
  - rewrite app_nil_r. reflexivity.
  - rewrite IH, <- app_assoc. reflexivity.
Qed.

(** Whatever [track_verbosity] and [cmdline] do, they leave the history,
    what was printed, the system and the editor's stores alone. *)
Lemma track_verbosity_frame key args w r w' :
  MerlinProcess.track_verbosity key args w = (r, w') ->
  history w' = history w /\ stdout w' = stdout w /\ os w' = os w
  /\ environ_PATH w' = environ_PATH w
  /\ merlin_settings w' = merlin_settings w
  /\ view_settings w' = view_settings w
  /\ _binary_path (self w') = _binary_path (self w).
Proof.
  unfold MerlinProcess.track_verbosity. destruct (key_truthy key).
  - run. destruct (key_eq _ _); [destruct (snd _)|]; cbn;
      intros [= <- <-]; repeat split.
  - intros [= <- <-]. repeat split.
Qed.

Lemma cmdline_frame args k w r w' :
  MerlinProcess.cmdline args k w = (r, w') ->
  history w' = history w /\ stdout w' = stdout w /\ os w' = os w
  /\ environ_PATH w' = environ_PATH w
  /\ merlin_settings w' = merlin_settings w
  /\ view_settings w' = view_settings w
  /\ _binary_path (self w') = _binary_path (self w).
Proof.
  unfold MerlinProcess.cmdline, bind.
  destruct (MerlinProcess.track_verbosity _ _ _) as [[v|e] w1] eqn:Htv;
    destruct (track_verbosity_frame _ _ _ _ _ Htv)
      as (Hh & Hout & Hos & Hpath & Hms & Hvs & Hbp).
  - cbn. unfold lift. destruct (opt_strs _); cbn; intros [= <- <-];
      unfold history in *; cbn; destruct (_settings (self w1));
      repeat split; assumption.
  - intros [= <- <-]. repeat split; assumption.
Qed.

Lemma settings_run w :
  exists w',
    MerlinProcess.settings w = (Ok (merlin_settings w), w')
    /\ os w' = os w /\ environ_PATH w' = environ_PATH w
    /\ merlin_settings w' = merlin_settings w
    /\ view_settings w' = view_settings w
    /\ view_file_name w' = view_file_name w /\ view_text w' = view_text w
    /\ stdout w' = stdout w
    /\ _binary_path (self w') = _binary_path (self w)
    /\ history w' = history w
    /\ counter w' = counter w.
Proof.
  eexists. split; [reflexivity|].
  unfold history, counter. cbn. destruct (_settings (self w)); repeat split.
Qed.

(** [cmdline] builds exactly the groups of the specification, and changes
    nothing in the world but the verbosity counter and the cached settings
    reference. *)
Lemma cmdline_groups args k w flags :
  counter_ok w ->
  global_flags w = Ok flags ->
  exists verbosity w',
    MerlinProcess.cmdline args k w
    = (Ok (argument_groups args k verbosity (or_empty flags)), w')
    /\ (exists w1, MerlinProcess.track_verbosity (kw.track_verbosity k) args w
                   = (Ok verbosity, w1))
    /\ (key_truthy (kw.track_verbosity k) = false -> verbosity = [])
    /\ (key_truthy (kw.track_verbosity k) = true ->
        exists n : nat, verbosity = ["-verbosity"; pretty n])
    /\ counter_ok w'
    /\ os w' = os w /\ environ_PATH w' = environ_PATH w
    /\ merlin_settings w' = merlin_settings w
    /\ view_settings w' = view_settings w
    /\ view_file_name w' = view_file_name w /\ view_text w' = view_text w
    /\ stdout w' = stdout w
    /\ _binary_path (self w') = _binary_path (self w)
    /\ history w' = history w.
Proof.
  intros Hok Hflags.
  destruct (track_verbosity_total (kw.track_verbosity k) args w Hok)
    as (verbosity & w1 & Htv & Hok1 & Hoff & Hon & Hos & Hpath & Hms & Hvs
        & Hfn & Htx & Hout & Hset & Hbp & Hh).
  destruct (settings_run w1)
    as (w2 & Hs & Hos2 & Hpath2 & Hms2 & Hvs2 & Hfn2 & Htx2 & Hout2 & Hbp2 & Hh2 & Hc2).
  exists verbosity, w2.
  split.
  { unfold MerlinProcess.cmdline, bind. rewrite Htv, Hs.
    unfold global_flags in Hflags. rewrite Hms, Hflags. unfold lift, ret.
    f_equal. f_equal.
    rewrite !for_extend_flat_map.
    unfold argument_groups, groups_before, groups_after, flagged.
    rewrite <- !app_assoc. cbn [app]. f_equal. f_equal.
    assert (Hother : forall cl,
               match kw.other_flags k with
               | Some (f :: fs) => cl ++ f :: fs
               | _ => cl
               end = cl ++ or_empty (kw.other_flags k)).
    { intros cl. destruct (kw.other_flags k) as [[|f fs]|]; cbn;
        rewrite ?app_nil_r; reflexivity. }
    rewrite Hother.
    destruct (kw.filename k) as [name|]; [destruct (String.eqb name "")|];
      destruct (kw.debug k); cbn [negb app];
      rewrite <- ?app_assoc; cbn [app]; rewrite ?app_nil_r; reflexivity. }
  split; [exists w1; exact Htv|].
  split; [intros H; apply Hoff; exact H|].
  split; [intros H; destruct (Hon H) as (n & -> & _); exists n; reflexivity|].
  split; [unfold counter_ok in *; rewrite Hc2; exact Hok1|].
  repeat split; congruence.
Qed.

End Builder.

(** C7. The invocation builder emits the groups in the fixed order: the
    mode token and the verb's tokens, [-filename], [-verbosity], one
    [-extension] per extension, one [-package] per package, one
    [-dot-merlin] per descriptor, the [-build-path] then the [-source-path]
    entries, [-log-file -] when debugging, the global extra flags, the
    call's extra flags; and two calls with the same inputs, in whatever
    state of the session, build the same list up to the count that follows
    [-verbosity] when tracking is on. *)
Theorem builder_order_stable :
  forall (args : list string) (k : kw.t) (flags : option (list string))
         (w1 w2 : World),
    counter_ok w1 -> counter_ok w2 ->
    global_flags w1 = Ok flags -> global_flags w2 = Ok flags ->
    exists v1 v2 w1' w2',
      MerlinProcess.cmdline args k w1
      = (Ok (argument_groups args k v1 (or_empty flags)), w1')
      /\ MerlinProcess.cmdline args k w2
         = (Ok (argument_groups args k v2 (or_empty flags)), w2')
      /\ (key_truthy (kw.track_verbosity k) = false -> v1 = [] /\ v2 = [])
      /\ (key_truthy (kw.track_verbosity k) = true ->
          exists n1 n2 : nat, v1 = ["-verbosity"; pretty n1]
                        /\ v2 = ["-verbosity"; pretty n2]).
Proof.
  intros args k flags w1 w2 Hok1 Hok2 Hf1 Hf2.
  destruct (cmdline_groups args k w1 flags Hok1 Hf1)
    as (v1 & w1' & Hc1 & _ & Hoff1 & Hon1 & _).
  destruct (cmdline_groups args k w2 flags Hok2 Hf2)
    as (v2 & w2' & Hc2 & _ & Hoff2 & Hon2 & _).
  exists v1, v2, w1', w2'.
  split; [exact Hc1|]. split; [exact Hc2|].
  split.
  - intros H. split; [apply Hoff1|apply Hoff2]; exact H.
  - intros H. destruct (Hon1 H) as (n1 & ->). destruct (Hon2 H) as (n2 & ->).
    exists n1, n2. split; reflexivity.
Qed.

(** ** Process runner *)

Section Runner.

Implicit Types (cl : list string) (w : World) (path : string).

(** Resolving the binary touches neither the history, the counter, what was
    printed, nor the editor's stores. *)
Lemma chosen_path_frame bp w r w' :
  chosen_path bp w = (r, w') ->
  history w' = history w /\ counter w' = counter w /\ stdout w' = stdout w
  /\ os w' = os w /\ merlin_settings w' = merlin_settings w
  /\ view_settings w' = view_settings w
  /\ view_file_name w' = view_file_name w /\ view_text w' = view_text w.
Proof.
  unfold chosen_path, MerlinProcess.binary_path, history, counter.
  destruct bp as [path|].
  - intros [= <- <-]. repeat split.
  - run. destruct (_binary_path (self w)) as [path|].
    + intros [= <- <-]. repeat split.
    + destruct (truthy _).
      * destruct (settings_get _ _); cbn; intros [= <- <-];
          destruct (_settings (self w)); repeat split.
      * destruct (environ_PATH _) as [|dir dirs]; cbn;
          [intros [= <- <-]; destruct (_settings (self w)); repeat split|].
        case_bool_decide; cbn;
          (destruct (opam_config_var_bin _); cbn;
           [destruct (isfile_and_X_OK _ _)|]);
          intros [= <- <-]; destruct (_settings (self w)); repeat split.
Qed.

Lemma exec_spawn_fails cl bp input w path w0 e :
  chosen_path bp w = (Ok path, w0) ->
  Popen (os w0) (environ_PATH w0) (path :: cl) = SpawnFails e ->
  MerlinProcess.exec cl bp input w
  = (Raised (OSError e),
     with_stdout (stdout w0 ++ [PrintText MerlinProcess.spawn_failure_message])
       (pending (path :: cl) w0)).
Proof.
  intros Hpath Hspawn. unfold MerlinProcess.exec, try_except, bind.
  fold (chosen_path bp). rewrite Hpath. cbn [app].
  unfold MerlinProcess.popen, MerlinProcess.store_last_command at 1. cbn.
  rewrite Hspawn. destruct (win32 (os w0)); reflexivity.
Qed.

Lemma exec_runs cl bp input w path w0 communicate out err :
  chosen_path bp w = (Ok path, w0) ->
  Popen (os w0) (environ_PATH w0) (path :: cl) = Runs communicate ->
  communicate input = (out, err) ->
  MerlinProcess.exec cl bp input w
  = (Ok out,
     snd (MerlinProcess.store_last_command (path :: cl) (Some out) (Some err)
            (with_stdout (stdout w0 ++ [PrintCommand (path :: cl)])
               (pending (path :: cl) w0)))).
Proof.
  intros Hpath Hspawn Hcomm. unfold MerlinProcess.exec, try_except, bind.
  fold (chosen_path bp). rewrite Hpath. cbn [app].
  unfold MerlinProcess.popen, MerlinProcess.store_last_command at 1. cbn.
  rewrite Hspawn. destruct (win32 (os w0)); cbn; rewrite Hcomm; reflexivity.
Qed.

(** An exception raised while the binary is resolved escapes as it is. *)
Lemma exec_path_raises cl bp input w e w0 :
  chosen_path bp w = (Raised e, w0) ->
  (forall o, e <> OSError o) ->
  MerlinProcess.exec cl bp input w = (Raised e, w0).
Proof.
  intros Hpath Hne. unfold MerlinProcess.exec, try_except, bind.
  fold (chosen_path bp). rewrite Hpath.
  destruct e; try reflexivity. exfalso. eapply Hne. reflexivity.
Qed.

End Runner.

(** ** Response envelope *)

Section Envelope.

Implicit Types (raw : string) (w : World) (kvs : list (string * pyval)).
Implicit Types (msgs : list pyval).

Lemma with_stdout_same w : with_stdout (stdout w) w = w.
Proof. destruct w; reflexivity. Qed.

Lemma for_each_print msgs :
  forall w,
    for_each msgs (fun msg => print (PrintNotification msg)) w
    = (Ok tt, with_stdout (stdout w ++ map PrintNotification msgs) w).
Proof.
  induction msgs as [|msg msgs IH]; intros w; cbn [for_each map].
  - rewrite app_nil_r, with_stdout_same. reflexivity.
  - unfold bind. cbn [print]. rewrite IH. cbn. rewrite <- app_assoc. reflexivity.
Qed.

(** The decoder has one way to fail. *)
Lemma loads_raises raw e : Json.loads raw = Raised e -> e = JSONDecodeError.
Proof.
  unfold Json.loads. destruct (Json.decode raw); intros [= <-]; reflexivity.
Qed.

(** A text that does not decode: the decoder's error escapes. *)
Lemma response_undecodable raw w :
  (forall v, Json.loads raw <> Ok v) ->
  MerlinProcess.response raw w
  = (Raised JSONDecodeError, with_stdout (stdout w ++ [PrintText raw]) w).
Proof.
  intros Hbad. unfold MerlinProcess.response, bind. cbn [print].
  unfold lift. destruct (Json.loads raw) as [v|e] eqn:Hl.
  - exfalso. exact (Hbad v eq_refl).
  - rewrite (loads_raises _ _ Hl). reflexivity.
Qed.

(** A decoded value from which one of the three fields cannot be taken. *)
Lemma response_not_envelope raw w obj e :
  Json.loads raw = Ok obj ->
  match getitem obj "class" with
  | Raised e' => e' = e
  | Ok _ =>
      match getitem obj "value" with
      | Raised e' => e' = e
      | Ok _ => getitem obj "notifications" = Raised e
      end
  end ->
  MerlinProcess.response raw w
  = (Raised e, with_stdout (stdout w ++ [PrintText raw]) w).
Proof.
  intros Hl Hget. unfold MerlinProcess.response, bind. cbn [print].
  unfold lift. rewrite Hl.
  destruct (getitem obj "class"); [|subst; reflexivity].
  destruct (getitem obj "value"); [|subst; reflexivity].
  rewrite Hget. reflexivity.
Qed.

(** A decoded envelope: the messages are printed, then the class decides. *)
Lemma response_envelope raw w kvs class_ content notifications msgs :
  Json.loads raw = Ok (VDict kvs) ->
  dict_get "class" kvs = Some class_ ->
  dict_get "value" kvs = Some content ->
  dict_get "notifications" kvs = Some notifications ->
  iterate notifications = Ok msgs ->
  MerlinProcess.response raw w
  = (if MerlinProcess.is_class class_ "return" then Ok content
     else if MerlinProcess.is_class class_ "failure" then Raised (Failure content)
     else if MerlinProcess.is_class class_ "error" then Raised (Error content)
     else if MerlinProcess.is_class class_ "exception"
          then Raised (MerlinException content)
     else Ok VNone,
     logged raw msgs w).
Proof.
  intros Hl Hc Hv Hn Hit. unfold MerlinProcess.response, bind. cbn [print].
  unfold lift, getitem. rewrite Hl, Hc, Hv, Hn, Hit, for_each_print.
  unfold logged. cbn [stdout with_stdout]. rewrite <- app_assoc. cbn [app].
  repeat (destruct (MerlinProcess.is_class class_ _); [reflexivity|]).
  reflexivity.
Qed.

(** Notifications that cannot be iterated (a number, a boolean, [None]):
    the loop raises before the class is looked at. *)
Lemma response_notifications_not_iterable raw w kvs class_ content notifications e :
  Json.loads raw = Ok (VDict kvs) ->
  dict_get "class" kvs = Some class_ ->
  dict_get "value" kvs = Some content ->
  dict_get "notifications" kvs = Some notifications ->
  iterate notifications = Raised e ->
  MerlinProcess.response raw w
  = (Raised TypeError, with_stdout (stdout w ++ [PrintText raw]) w).
Proof.
  intros Hl Hc Hv Hn Hit. unfold MerlinProcess.response, bind. cbn [print].
  unfold lift, getitem. rewrite Hl, Hc, Hv, Hn.
  destruct notifications; cbn in Hit; try discriminate; reflexivity.
Qed.

Lemma command_steps args k w cl w1 raw w2 :
  MerlinProcess.cmdline args k w = (Ok cl, w1) ->
  MerlinProcess.exec cl (kw.binary_path k) (kw.input k) w1 = (Ok raw, w2) ->
  MerlinProcess.command args k w = MerlinProcess.response raw w2.
Proof.
  intros Hc He. unfold MerlinProcess.command, bind. rewrite Hc, He. reflexivity.
Qed.

Lemma response_frame raw (w : World) r (w' : World) :
  MerlinProcess.response raw w = (r, w') ->
  self w' = self w /\ view_settings w' = view_settings w
  /\ merlin_settings w' = merlin_settings w.
Proof.
  unfold MerlinProcess.response, bind, lift. cbn [print].
  destruct (Json.loads raw) as [obj|e]; [|intros [= <- <-]; repeat split].
  destruct (getitem obj "class"); [|intros [= <- <-]; repeat split].
  destruct (getitem obj "value"); [|intros [= <- <-]; repeat split].
  destruct (getitem obj "notifications") as [n|]; [|intros [= <- <-]; repeat split].
  destruct (iterate n); [|intros [= <- <-]; repeat split].
  rewrite for_each_print.
  repeat (match goal with |- context [if ?b then _ else _] => destruct b end);
    intros [= <- <-]; repeat split.
Qed.

(** What a request leaves in the history once its argument list is handed
    to [exec]: the program and that list, pending when the program cannot
    be started, with the output and the error text when it runs. *)
Lemma request_recorded (cl : list string) bp input (w : World) path (w0 : World) :
  chosen_path bp w = (Ok path, w0) ->
  (forall e,
      Popen (os w0) (environ_PATH w0) (path :: cl) = SpawnFails e ->
      fst ((raw <- MerlinProcess.exec cl bp input ;; MerlinProcess.response raw) w)
      = Raised (OSError e)
      /\ exists rest,
           history (snd ((raw <- MerlinProcess.exec cl bp input ;;
                          MerlinProcess.response raw) w))
           = (path :: cl, None, None) :: rest)
  /\ (forall communicate out err,
         Popen (os w0) (environ_PATH w0) (path :: cl) = Runs communicate ->
         communicate input = (out, err) ->
         exists rest,
           history (snd ((raw <- MerlinProcess.exec cl bp input ;;
                          MerlinProcess.response raw) w))
           = (path :: cl, Some out, Some err) :: rest).
Proof.
  intros Hp. split.
  - intros e Hspawn. unfold bind.
    rewrite (exec_spawn_fails _ _ _ _ _ _ _ Hp Hspawn). cbn [fst snd].
    split; [reflexivity|]. apply stored_front.
  - intros communicate out err Hspawn Hcomm. unfold bind.
    rewrite (exec_runs _ _ _ _ _ _ _ _ _ Hp Hspawn Hcomm).
    destruct (MerlinProcess.response out _) as [r w3] eqn:Hr.
    destruct (response_frame _ _ _ _ Hr) as (Hself & _).
    cbn [snd]. unfold history. rewrite Hself. apply stored_front.
Qed.

End Envelope.

(** C1. When the text the tool printed decodes to an envelope, [command]
    dispatches on its class: for [return] it returns the decoded value and
    raises nothing; for [failure], [error] and [exception] it raises
    [Failure], [Error] and [MerlinException] carrying the value, whatever
    the value is. The notifications, whatever they hold, only add lines to
    what is printed. *)
Theorem command_dispatches_on_class :
  forall (args : list string) (k : kw.t) (w w1 w2 : World)
         (cl : list string) (raw : string) (kvs : list (string * pyval))
         (class_ : string) (value notifications : pyval) (msgs : list pyval),
    MerlinProcess.cmdline args k w = (Ok cl, w1) ->
    MerlinProcess.exec cl (kw.binary_path k) (kw.input k) w1 = (Ok raw, w2) ->
    Json.loads raw = Ok (VDict kvs) ->
    dict_get "class" kvs = Some (VStr class_) ->
    dict_get "value" kvs = Some value ->
    dict_get "notifications" kvs = Some notifications ->
    iterate notifications = Ok msgs ->
    (class_ = "return" ->
     MerlinProcess.command args k w = (Ok value, logged raw msgs w2))
    /\ (class_ = "failure" ->
        MerlinProcess.command args k w = (Raised (Failure value), logged raw msgs w2))
    /\ (class_ = "error" ->
        MerlinProcess.command args k w = (Raised (Error value), logged raw msgs w2))
    /\ (class_ = "exception" ->
        MerlinProcess.command args k w
        = (Raised (MerlinException value), logged raw msgs w2)).
Proof.
  intros args k w w1 w2 cl raw kvs class_ value notifications msgs
         Hc He Hl Hcl Hv Hn Hit.
  rewrite (command_steps _ _ _ _ _ _ _ Hc He).
  rewrite (response_envelope _ _ _ _ _ _ _ Hl Hcl Hv Hn Hit).
  repeat split; intros ->; reflexivity.
Qed.

(** C10. When the class of a decoded envelope is a text other than
    [return], [failure], [error] and [exception], [command] prints the
    notifications and returns [None]; nothing is raised. *)
Theorem command_unknown_class_returns_none :
  forall (args : list string) (k : kw.t) (w w1 w2 : World)
         (cl : list string) (raw : string) (kvs : list (string * pyval))
         (class_ : string) (value notifications : pyval) (msgs : list pyval),
    MerlinProcess.cmdline args k w = (Ok cl, w1) ->
    MerlinProcess.exec cl (kw.binary_path k) (kw.input k) w1 = (Ok raw, w2) ->
    Json.loads raw = Ok (VDict kvs) ->
    dict_get "class" kvs = Some (VStr class_) ->
    dict_get "value" kvs = Some value ->
    dict_get "notifications" kvs = Some notifications ->
    iterate notifications = Ok msgs ->
    class_ <> "return" -> class_ <> "failure" ->
    class_ <> "error" -> class_ <> "exception" ->
    MerlinProcess.command args k w = (Ok VNone, logged raw msgs w2).
Proof.
  intros args k w w1 w2 cl raw kvs class_ value notifications msgs
         Hc He Hl Hcl Hv Hn Hit Hr Hf Her Hex.
  rewrite (command_steps _ _ _ _ _ _ _ Hc He).
  rewrite (response_envelope _ _ _ _ _ _ _ Hl Hcl Hv Hn Hit).
  unfold MerlinProcess.is_class.
  rewrite !(proj2 (String.eqb_neq _ _)) by assumption. reflexivity.
Qed.

(** C2, as the code has it. When the text the tool printed is not JSON,
    the decoder's own [JSONDecodeError] escapes from [command]; when it
    decodes to an object that lacks [class], [value] or [notifications],
    the [KeyError] of the first missing one escapes; when it decodes to
    something that is not an object, a [TypeError] escapes. The module has
    no error class of its own for these cases. *)
Theorem command_malformed_output_escapes :
  forall (args : list string) (k : kw.t) (w w1 w2 : World)
         (cl : list string) (raw : string),
    MerlinProcess.cmdline args k w = (Ok cl, w1) ->
    MerlinProcess.exec cl (kw.binary_path k) (kw.input k) w1 = (Ok raw, w2) ->
    let w3 := with_stdout (stdout w2 ++ [PrintText raw]) w2 in
    ((forall v, Json.loads raw <> Ok v) ->
     MerlinProcess.command args k w = (Raised JSONDecodeError, w3))
    /\ (forall kvs key,
         Json.loads raw = Ok (VDict kvs) ->
         missing_field kvs = Some key ->
         MerlinProcess.command args k w = (Raised (KeyError key), w3))
    /\ (forall obj,
         Json.loads raw = Ok obj ->
         (forall kvs, obj <> VDict kvs) ->
         MerlinProcess.command args k w = (Raised TypeError, w3)).
Proof.
  intros args k w w1 w2 cl raw Hc He w3.
  rewrite (command_steps _ _ _ _ _ _ _ Hc He).
  split; [|split].
  - intros Hbad. apply response_undecodable. exact Hbad.
  - intros kvs key Hl Hkey. apply (response_not_envelope _ _ _ _ Hl).
    cbn [getitem]. unfold missing_field in Hkey.
    destruct (dict_get "class" kvs); [|congruence].
    destruct (dict_get "value" kvs); [|congruence].
    destruct (dict_get "notifications" kvs); congruence.
  - intros obj Hl Hnd. apply (response_not_envelope _ _ _ _ Hl).
    destruct obj; try reflexivity. exfalso. eapply Hnd. reflexivity.
Qed.

Lemma command_dispatches_on_class_witness :
  fst (MerlinProcess.command ["errors"] kw.defaults (tool_world return_text))
  = Ok (VList [VInt 1; VStr "a"]).
Proof.
  edestruct (command_dispatches_on_class ["errors"] kw.defaults
               (tool_world return_text)) as (Hreturn & _).
  - vm_compute. reflexivity.
  - vm_compute. reflexivity.
  - vm_compute. reflexivity.
  - vm_compute. reflexivity.
  - vm_compute. reflexivity.
  - vm_compute. reflexivity.
  - vm_compute. reflexivity.
  - rewrite Hreturn; reflexivity.
Defined.

Lemma command_unknown_class_returns_none_witness :
  fst (MerlinProcess.command ["errors"] kw.defaults (tool_world unknown_class_text))
  = Ok VNone.
Proof.
  erewrite (command_unknown_class_returns_none ["errors"] kw.defaults
              (tool_world unknown_class_text)).
  - reflexivity.
  - vm_compute. reflexivity.
  - vm_compute. reflexivity.
  - vm_compute. reflexivity.
  - vm_compute. reflexivity.
  - vm_compute. reflexivity.
  - vm_compute. reflexivity.
  - vm_compute. reflexivity.
  - discriminate.
  - discriminate.
  - discriminate.
  - discriminate.
Defined.

(** C2, counterexample. The tool prints a text that is not JSON: what
    escapes from [command] is the decoder's own [JSONDecodeError], the
    error any failed [json.loads] raises, and none of the module's classes. *)
Lemma command_garbage_raises_decoder_error :
  (forall v, Json.loads "Fatal error: exception Not_found" <> Ok v)
  /\ fst (MerlinProcess.command ["errors"] kw.defaults
            (tool_world "Fatal error: exception Not_found"))
     = Raised JSONDecodeError.
Proof. split; [intros v; vm_compute; discriminate|vm_compute; reflexivity]. Qed.

Lemma command_malformed_output_escapes_witness :
  fst (MerlinProcess.command ["errors"] kw.defaults
         (tool_world (dq "{'class': 'return', 'notifications': []}")))
  = Raised (KeyError "value").
Proof.
  edestruct (command_malformed_output_escapes ["errors"] kw.defaults
               (tool_world (dq "{'class': 'return', 'notifications': []}")))
    as (_ & Hkey & _).
  - vm_compute. reflexivity.
  - vm_compute. reflexivity.
  - erewrite Hkey.
    + reflexivity.
    + vm_compute. reflexivity.
    + vm_compute. reflexivity.
Defined.

(** ** Failed spawn *)

(** C3. When the tool cannot be started, [command] raises the [OSError] of
    the failed spawn, which nothing catches, and the failed spawn leaves
    the history as it was when the program was started: the command had
    been recorded just before, as the pending front entry without response
    and without error text, and it stays so. No response is recorded: every
    entry of the history that holds a response was in the history before
    the call, so a history without a response for that command is still
    without one. *)
Theorem command_spawn_failure_records_no_response :
  forall (args : list string) (k : kw.t) (w w1 w2 : World)
         (cl : list string) (path : string) (e : oserror),
    MerlinProcess.cmdline args k w = (Ok cl, w1) ->
    chosen_path (kw.binary_path k) w1 = (Ok path, w2) ->
    Popen (os w2) (environ_PATH w2) (path :: cl) = SpawnFails e ->
    exists w3,
      MerlinProcess.command args k w = (Raised (OSError e), w3)
      /\ history w3 = history (pending (path :: cl) w2)
      /\ history w3 = MerlinProcess.stored (path :: cl) None None (history w)
      /\ (exists rest, history w3 = (path :: cl, None, None) :: rest)
      /\ (forall en, en ∈ history w3 ->
            en = (path :: cl, None, None) \/ en ∈ history w)
      /\ (forall en, en ∈ history w3 -> with_response en = true ->
            en ∈ history w)
      /\ ((forall response errors,
             (path :: cl, Some response, errors) ∉ history w) ->
          forall response errors,
            (path :: cl, Some response, errors) ∉ history w3).
Proof.
  intros args k w w1 w2 cl path e Hc Hp Hs.
  eexists. split.
  { unfold MerlinProcess.command, bind. rewrite Hc.
    rewrite (exec_spawn_fails _ _ _ _ _ _ _ Hp Hs). reflexivity. }
  destruct (chosen_path_frame _ _ _ _ Hp) as (Hh & _).
  destruct (cmdline_frame _ _ _ _ _ Hc) as (Hh1 & _).
  split; [reflexivity|].
  assert (Hst : history
                  (with_stdout
                     (stdout w2 ++ [PrintText MerlinProcess.spawn_failure_message])
                     (pending (path :: cl) w2))
                = MerlinProcess.stored (path :: cl) None None (history w)).
  { rewrite <- Hh1. unfold history in *. cbn. rewrite Hh. reflexivity. }
  rewrite Hst. split; [reflexivity|].
  split; [apply stored_front|].
  assert (Hin : forall en,
             en ∈ MerlinProcess.stored (path :: cl) None None (history w) ->
             en = (path :: cl, None, None) \/ en ∈ history w)
    by (intros en; apply stored_elem_of).
  split; [exact Hin|]. split.
  - intros en Hen Hresp. destruct (Hin en Hen) as [->|Hold]; [discriminate|exact Hold].
  - intros Hnone response errors Hen.
    destruct (Hin _ Hen) as [[=]|Hold]. exact (Hnone _ _ Hold).
Qed.

Lemma command_spawn_failure_records_no_response_witness :
  exists w3,
    MerlinProcess.command ["errors"] kw.defaults bare_world
    = (Raised (OSError FileNotFoundError), w3)
    /\ history w3 = [(["ocamlmerlin"; "server"; "errors"], None, None)]
    /\ (forall en, en ∈ history w3 -> with_response en = false).
Proof.
  edestruct (command_spawn_failure_records_no_response ["errors"] kw.defaults
               bare_world) as (w3 & Hrun & _ & Hstored & _ & _ & Hresp & _).
  - vm_compute. reflexivity.
  - vm_compute. reflexivity.
  - vm_compute. reflexivity.
  - exists w3. split; [exact Hrun|].
    split; [rewrite Hstored; vm_compute; reflexivity|].
    intros en Hen. destruct (with_response en) eqn:Hr; [|reflexivity].
    apply (Hresp en Hen) in Hr. vm_compute in Hr.
    apply elem_of_nil in Hr. contradiction.
Defined.

(** The scenario run on a fresh process: the command is the one entry of
    the history, pending. *)
Example failed_spawn_recorded :
  fst failed_run = Raised (OSError FileNotFoundError)
  /\ history (snd failed_run)
     = [(["ocamlmerlin"; "server"; "errors"], None, None)].
Proof. split; vm_compute; reflexivity. Qed.

(** ** Configuration store *)

Section Store.

Implicit Types (w : World) (value path : pyval) (key : string).

(** [set_packages] stores the value under its key, returns nothing, starts
    no process and leaves every other key as it was. *)
Lemma set_packages_stores value w :
  exists w',
    MerlinView.set_packages value w = (Ok tt, w')
    /\ view_settings w' !! "ocamlmerlin_packages" = Some value
    /\ (forall key, key <> "ocamlmerlin_packages" ->
                    view_settings w' !! key = view_settings w !! key)
    /\ same_outside_view_settings w w'.
Proof.
  eexists. split; [reflexivity|]. cbn. split; [apply lookup_insert_eq|].
  split; [|repeat split].
  intros key Hne. apply lookup_insert_ne. congruence.
Qed.

Lemma enable_loop_list exts :
  forall xs, exists ys, MerlinView.enable_loop exts (VList xs) = Ok (VList ys).
Proof.
  induction exts as [|ext exts IH]; intros xs; cbn.
  - eexists; reflexivity.
  - destruct (existsb _ xs); apply IH.
Qed.

Lemma disable_loop_list exts :
  forall xs, exists ys, MerlinView.disable_loop exts (VList xs) = Ok (VList ys).
Proof.
  induction exts as [|ext exts IH]; intros xs; cbn.
  - eexists; reflexivity.
  - destruct (existsb _ xs); apply IH.
Qed.

(** With a list stored under the extensions key, enabling and disabling
    store a list back under that key and touch nothing else. *)
Lemma extension_enable_stores exts xs w :
  settings_get (view_settings w) "ocamlmerlin_extensions" = VList xs ->
  exists ys w',
    MerlinView.extension_enable exts w = (Ok tt, w')
    /\ MerlinView.enable_loop exts (VList xs) = Ok (VList ys)
    /\ view_settings w' !! "ocamlmerlin_extensions" = Some (VList ys)
    /\ (forall key, key <> "ocamlmerlin_extensions" ->
                    view_settings w' !! key = view_settings w !! key)
    /\ same_outside_view_settings w w'.
Proof.
  intros Hget. destruct (enable_loop_list exts xs) as (ys & Hys).
  exists ys. eexists. unfold MerlinView.extension_enable, bind.
  cbn [MerlinView.view_get]. rewrite Hget. unfold lift. rewrite Hys.
  split; [reflexivity|]. split; [reflexivity|]. cbn.
  split; [apply lookup_insert_eq|]. split; [|repeat split].
  intros key Hne. apply lookup_insert_ne. congruence.
Qed.

Lemma extension_disable_stores exts xs w :
  settings_get (view_settings w) "ocamlmerlin_extensions" = VList xs ->
  exists ys w',
    MerlinView.extension_disable exts w = (Ok tt, w')
    /\ MerlinView.disable_loop exts (VList xs) = Ok (VList ys)
    /\ view_settings w' !! "ocamlmerlin_extensions" = Some (VList ys)
    /\ (forall key, key <> "ocamlmerlin_extensions" ->
                    view_settings w' !! key = view_settings w !! key)
    /\ same_outside_view_settings w w'.
Proof.
  intros Hget. destruct (disable_loop_list exts xs) as (ys & Hys).
  exists ys. eexists. unfold MerlinView.extension_disable, bind.
  cbn [MerlinView.view_get]. rewrite Hget. unfold lift. rewrite Hys.
  split; [reflexivity|]. split; [reflexivity|]. cbn.
  split; [apply lookup_insert_eq|]. split; [|repeat split].
  intros key Hne. apply lookup_insert_ne. congruence.
Qed.

(** With no extensions setting, enabling or disabling an extension raises
    [TypeError] at the membership test and stores nothing. *)
Lemma extension_unset_raises ext exts w :
  settings_get (view_settings w) "ocamlmerlin_extensions" = VNone ->
  MerlinView.extension_enable (ext :: exts) w = (Raised TypeError, w)
  /\ MerlinView.extension_disable (ext :: exts) w = (Raised TypeError, w).
Proof.
  intros Hget.
  unfold MerlinView.extension_enable, MerlinView.extension_disable, bind.
  cbn [MerlinView.view_get]. rewrite Hget. split; reflexivity.
Qed.

End Store.

(** C4, where the code departs from it. [add_build_path] and
    [add_source_path] never store anything: whatever the path and the state
    of the editor, they raise [AttributeError] and leave the world as it
    was, because they reach for [set] on the method [self.view.settings]
    instead of on the settings object that calling it returns. *)
Theorem add_path_raises_and_stores_nothing :
  forall (path : pyval) (w : World),
    MerlinView.add_build_path path w = (Raised AttributeError, w)
    /\ MerlinView.add_source_path path w = (Raised AttributeError, w).
Proof.
  intros path w.
  unfold MerlinView.add_build_path, MerlinView.add_source_path,
    MerlinView.list_build_path, MerlinView.list_source_path,
    MerlinView.view_settings_method_set, MerlinView.or_list.
  run. split.
  - destruct (settings_get (view_settings w) "ocamlmerlin_buildpath") as [| | | | |xs|kvs];
      cbn; repeat (match goal with |- context [if ?b then _ else _] => destruct b end);
      cbn; try reflexivity; destruct xs; reflexivity.
  - destruct (settings_get (view_settings w) "ocamlmerlin_sourcepath") as [| | | | |xs|kvs];
      cbn; repeat (match goal with |- context [if ?b then _ else _] => destruct b end);
      cbn; try reflexivity; destruct xs; reflexivity.
Qed.

(** ** Cursor positions *)

Section Positions.

Implicit Types (line col : coord) (d : gmap string coord).

Lemma fmtpos_none : fmtpos PosNone = Ok "end".
Proof. reflexivity. Qed.

Lemma fmtpos_dict d line col :
  d !! "line" = Some line -> d !! "col" = Some col ->
  fmtpos (PosDict d) = Ok (format_coord line +:+ ":" +:+ format_coord col).
Proof. intros Hl Hc. cbn. rewrite Hl, Hc. reflexivity. Qed.

Lemma fmtpos_pair line col :
  fmtpos (PosTuple [line; col]) = Ok (format_coord line +:+ ":" +:+ format_coord col)
  /\ fmtpos (PosList [line; col]) = Ok (format_coord line +:+ ":" +:+ format_coord col).
Proof. split; reflexivity. Qed.

(** What is neither [None], a dict, a tuple nor a list, and a tuple or a
    list that does not hold two items, is refused with a [ValueError]. *)
Lemma fmtpos_refused :
  (forall c, exists msg, fmtpos (PosOther c) = Raised (ValueError msg))
  /\ (forall items, length items <> 2 ->
                    exists msg, fmtpos (PosTuple items) = Raised (ValueError msg)
                                /\ fmtpos (PosList items) = Raised (ValueError msg)).
Proof.
  split.
  - intros c. eexists. reflexivity.
  - intros [|a [|b [|c items]]] Hlen; cbn in Hlen; try lia;
      eexists; split; reflexivity.
Qed.

(** A dict without [line], or with [line] and without [col], is not
    refused that way: the lookup's [KeyError] escapes. *)
Lemma fmtpos_dict_lacking d :
  (d !! "line" = None -> fmtpos (PosDict d) = Raised (KeyError "line"))
  /\ (is_Some (d !! "line") -> d !! "col" = None ->
      fmtpos (PosDict d) = Raised (KeyError "col")).
Proof.
  split.
  - intros Hl. cbn. rewrite Hl. reflexivity.
  - intros [line Hl] Hc. cbn. rewrite Hl, Hc. reflexivity.
Qed.

Example fmtpos_dict_12_4 :
  fmtpos (PosDict (<["line" := CInt 12]> (<["col" := CInt 4]> ∅))) = Ok "12:4".
Proof. vm_compute. reflexivity. Qed.

Example fmtpos_pair_12_4 : fmtpos (PosTuple [CInt 12; CInt 4]) = Ok "12:4".
Proof. vm_compute. reflexivity. Qed.

End Positions.

(** C9, where the code departs from it. A mapping that has [line] and no
    [col] is none of the accepted shapes, yet [fmtpos] does not refuse it
    with the [ValueError] it raises for the other shapes: the [KeyError] of
    the failed lookup escapes. *)
Theorem fmtpos_dict_without_col_raises_key_error :
  fmtpos (PosDict (<["line" := CInt 12]> ∅)) = Raised (KeyError "col")
  /\ fmtpos (PosOther (CInt 12)) = Raised (ValueError fmtpos_message).
Proof. split; vm_compute; reflexivity. Qed.

(** ** Requests of a view *)

Section Requests.

Implicit Types (w : World) (args : list string).

Lemma view_command_run args tv w bp dm ex fl pk bu so :
  view_settings_typed w bp dm ex fl pk bu so ->
  MerlinView.command args tv w
  = MerlinProcess.command args (view_kwargs w tv bp dm ex fl pk bu so) w.
Proof.
  intros (Hbp & Hdm & Hex & Hfl & Hpk & Hbu & Hso).
  unfold MerlinView.command, bind, MerlinView.view_get, lift.
  rewrite Hbp, Hdm, Hex, Hfl, Hpk, Hbu, Hso. reflexivity.
Qed.

Lemma complete_cursor_run base line col w :
  MerlinView.complete_cursor base line col w
  = MerlinView.command
      (["complete-prefix"; "-position"; pretty line +:+ ":" +:+ pretty col;
        "-prefix"; base; "-doc";
        if truthy (settings_get (merlin_settings w) "ocamlmerlin_complete_with_doc")
        then "y" else "n"])
      (TBool true) (snd (MerlinProcess.settings w)).
Proof. reflexivity. Qed.

End Requests.

(** C8. Completing at the cursor with prefix [Li] at position (10,3), the
    documentation toggle being off and the packages of the view being
    [core], builds one argument list and hands it to [exec] with the text
    of the view: the groups of the builder for the verb [complete-prefix]
    with its positional flags, which hold, in this relative order, the
    tokens [complete-prefix -position 10:3 -prefix Li -doc n -package core].
    It is this list, after the program, that the operating system is asked
    to start and that the history records, whether the program starts or
    not. *)
Theorem complete_cursor_argument_list :
  forall (w : World) (bp : option string)
         (dm ex fl bu so gf : option (list string)),
    counter_ok w ->
    truthy (settings_get (merlin_settings w) "ocamlmerlin_complete_with_doc") = false ->
    view_settings_typed w bp dm ex fl (Some ["core"]) bu so ->
    global_flags w = Ok gf ->
    exists (cl : list string) (w1 : World),
      MerlinProcess.cmdline complete_prefix_Li_10_3
        (view_kwargs w (TBool true) bp dm ex fl (Some ["core"]) bu so)
        (snd (MerlinProcess.settings w))
      = (Ok cl, w1)
      /\ MerlinView.complete_cursor "Li" 10 3 w
         = (raw <- MerlinProcess.exec cl bp (Some (view_text w)) ;;
            MerlinProcess.response raw) w1
      /\ (complete_prefix_Li_10_3 ++ ["-package"; "core"]) `sublist_of` cl
      /\ (exists n : nat,
            cl = argument_groups complete_prefix_Li_10_3
                   (view_kwargs w (TBool true) bp dm ex fl (Some ["core"]) bu so)
                   ["-verbosity"; pretty n] (or_empty gf))
      /\ (forall (path : string) (w2 : World),
            chosen_path bp w1 = (Ok path, w2) ->
            (forall e,
                Popen (os w2) (environ_PATH w2) (path :: cl) = SpawnFails e ->
                fst (MerlinView.complete_cursor "Li" 10 3 w) = Raised (OSError e)
                /\ exists rest,
                     history (snd (MerlinView.complete_cursor "Li" 10 3 w))
                     = (path :: cl, None, None) :: rest)
            /\ (forall communicate out err,
                   Popen (os w2) (environ_PATH w2) (path :: cl) = Runs communicate ->
                   communicate (Some (view_text w)) = (out, err) ->
                   exists rest,
                     history (snd (MerlinView.complete_cursor "Li" 10 3 w))
                     = (path :: cl, Some out, Some err) :: rest)).
Proof.
  intros w bp dm ex fl bu so gf Hok Hdoc Htyped Hgf.
  destruct (settings_run w)
    as (w0 & Hs & Hos & Hpath & Hms & Hvs & Hfn & Htx & Hout & Hbp & Hh & Hc).
  assert (Hok0 : counter_ok w0) by (unfold counter_ok; rewrite Hc; exact Hok).
  assert (Hgf0 : global_flags w0 = Ok gf)
    by (unfold global_flags; rewrite Hms; exact Hgf).
  assert (Htyped0 : view_settings_typed w0 bp dm ex fl (Some ["core"]) bu so)
    by (unfold view_settings_typed; rewrite Hvs; exact Htyped).
  set (k := view_kwargs w (TBool true) bp dm ex fl (Some ["core"]) bu so).
  assert (Hk : view_kwargs w0 (TBool true) bp dm ex fl (Some ["core"]) bu so = k)
    by (unfold k, view_kwargs; rewrite Hfn, Htx; reflexivity).
  destruct (cmdline_groups complete_prefix_Li_10_3 k w0 gf Hok0 Hgf0)
    as (v & w1 & Hcl & _ & _ & Hv & _).
  destruct (Hv eq_refl) as (n & ->).
  set (cl := argument_groups complete_prefix_Li_10_3 k ["-verbosity"; pretty n]
               (or_empty gf)) in *.
  assert (Hrun : MerlinView.complete_cursor "Li" 10 3 w
                 = (raw <- MerlinProcess.exec cl bp (Some (view_text w)) ;;
                    MerlinProcess.response raw) w1).
  { rewrite complete_cursor_run, Hdoc, Hs. cbn [snd].
    rewrite (view_command_run _ _ _ _ _ _ _ _ _ _ Htyped0), Hk.
    change (MerlinProcess.command complete_prefix_Li_10_3 k w0
            = (raw <- MerlinProcess.exec cl bp (Some (view_text w)) ;;
               MerlinProcess.response raw) w1).
    unfold MerlinProcess.command. unfold bind at 1. rewrite Hcl. reflexivity. }
  exists cl, w1. rewrite Hs. cbn [snd].
  split; [exact Hcl|]. split; [exact Hrun|]. split.
  { unfold cl, argument_groups, groups_before, groups_after.
    apply sublist_app.
    - apply (sublist_inserts_l ["server"]), sublist_inserts_r. reflexivity.
    - apply sublist_inserts_l, sublist_inserts_l, sublist_inserts_r. reflexivity. }
  split; [exists n; reflexivity|].
  intros path w2 Hp. rewrite Hrun. exact (request_recorded _ _ _ _ _ _ Hp).
Qed.

Lemma complete_cursor_argument_list_witness :
  exists (cl : list string) (w1 : World),
    MerlinView.complete_cursor "Li" 10 3 completion_world
    = (raw <- MerlinProcess.exec cl None (Some "let x = Li") ;;
       MerlinProcess.response raw) w1
    /\ cl = ["server"; "complete-prefix"; "-position"; "10:3"; "-prefix"; "Li";
             "-doc"; "n"; "-filename"; "src/main.ml"; "-verbosity"; "0";
             "-package"; "core"]
    /\ exists rest,
         history (snd (MerlinView.complete_cursor "Li" 10 3 completion_world))
         = ("ocamlmerlin" :: cl, None, None) :: rest.
Proof.
  destruct (complete_cursor_argument_list completion_world None None None None
              None None None)
    as (cl & w1 & Hcl & Hrun & _ & _ & Hhist).
  - intros _. reflexivity.
  - vm_compute. reflexivity.
  - vm_compute. repeat split.
  - vm_compute. reflexivity.
  - vm_compute in Hcl. injection Hcl as <- <-.
    eexists. eexists. split; [exact Hrun|]. split; [reflexivity|].
    edestruct Hhist as [Hfails _]; [vm_compute; reflexivity|].
    apply (Hfails FileNotFoundError). vm_compute. reflexivity.
Defined.

(** The same scenario run: the command line recorded in the history. *)
Example complete_cursor_recorded :
  history (snd (MerlinView.complete_cursor "Li" 10 3 completion_world))
  = [(["ocamlmerlin"; "server"; "complete-prefix"; "-position"; "10:3";
       "-prefix"; "Li"; "-doc"; "n"; "-filename"; "src/main.ml";
       "-verbosity"; "0"; "-package"; "core"], None, None)].
Proof. vm_compute. reflexivity. Qed.

Lemma builder_order_stable_witness :
  exists v1 v2 w1' w2',
    MerlinProcess.cmdline ["type-enclosing"] tracking_kwargs bare_world
    = (Ok (argument_groups ["type-enclosing"] tracking_kwargs v1 []), w1')
    /\ MerlinProcess.cmdline ["type-enclosing"] tracking_kwargs seasoned_world
       = (Ok (argument_groups ["type-enclosing"] tracking_kwargs v2 []), w2')
    /\ (key_truthy (kw.track_verbosity tracking_kwargs) = false ->
        v1 = [] /\ v2 = [])
    /\ (key_truthy (kw.track_verbosity tracking_kwargs) = true ->
        exists n1 n2 : nat, v1 = ["-verbosity"; pretty n1]
                            /\ v2 = ["-verbosity"; pretty n2]).
Proof.
  apply (builder_order_stable ["type-enclosing"] tracking_kwargs None
           bare_world seasoned_world).
  - intros _. reflexivity.
  - cbn. discriminate.
  - vm_compute. reflexivity.
  - vm_compute. reflexivity.
Defined.

(** The two lists, run: they differ in the count alone. *)
Example builder_two_sessions :
  fst (MerlinProcess.cmdline ["type-enclosing"] tracking_kwargs bare_world)
  = Ok (["server"; "type-enclosing"; "-filename"; "a.ml"]
        ++ ["-verbosity"; "0"]
        ++ ["-extension"; "lwt"; "-package"; "core"; "-package"; "str";
            "-dot-merlin"; ".merlin"; "-build-path"; "_build";
            "-source-path"; "src"; "-log-file"; "-"; "-w"; "+a"])
  /\ fst (MerlinProcess.cmdline ["type-enclosing"] tracking_kwargs seasoned_world)
     = Ok (["server"; "type-enclosing"; "-filename"; "a.ml"]
           ++ ["-verbosity"; "4"]
           ++ ["-extension"; "lwt"; "-package"; "core"; "-package"; "str";
               "-dot-merlin"; ".merlin"; "-build-path"; "_build";
               "-source-path"; "src"; "-log-file"; "-"; "-w"; "+a"]).
Proof. split; vm_compute; reflexivity. Qed.


(** ** The history under whole operations *)

Section Operations.

Implicit Types (w : World) (cl args : list string).

Lemma exec_history_bound cl bp input w r w' :
  MerlinProcess.exec cl bp input w = (r, w') ->
  length (history w) <= 5 -> length (history w') <= 5.
Proof.
  unfold MerlinProcess.exec, try_except, bind. fold (chosen_path bp).
  destruct (chosen_path bp w) as [[path|e] w0] eqn:Hp;
    destruct (chosen_path_frame _ _ _ _ Hp) as (Hh & _).
  - cbn [app]. unfold MerlinProcess.popen, MerlinProcess.store_last_command at 1.
    cbn. destruct (if win32 (os w0) then _ else _) as [e|communicate].
    + cbn. intros [= <- <-] Hlen. unfold history in *. cbn.
      apply stored_length. rewrite Hh. exact Hlen.
    + cbn. destruct (communicate input) as [out err]. cbn.
      intros [= <- <-] Hlen. unfold history in *. cbn.
      apply stored_length, stored_length. rewrite Hh. exact Hlen.
  - destruct e; cbn; intros [= <- <-] Hlen; unfold history in *; cbn;
      rewrite Hh; exact Hlen.
Qed.

(** A whole [command], however it ends, keeps the history within five. *)
Lemma command_history_bound args k w :
  length (history w) <= 5 ->
  length (history (snd (MerlinProcess.command args k w))) <= 5.
Proof.
  intros Hlen. unfold MerlinProcess.command, bind.
  destruct (MerlinProcess.cmdline args k w) as [[cl|e] w1] eqn:Hc;
    destruct (cmdline_frame _ _ _ _ _ Hc) as (Hh1 & _); cbn [snd].
  - destruct (MerlinProcess.exec cl _ _ w1) as [[raw|e] w2] eqn:He.
    + destruct (MerlinProcess.response raw w2) as [r w3] eqn:Hr.
      destruct (response_frame _ _ _ _ Hr) as (Hself & _). cbn [snd].
      unfold history. rewrite Hself.
      apply (exec_history_bound _ _ _ _ _ _ He). rewrite Hh1. exact Hlen.
    + cbn [snd]. apply (exec_history_bound _ _ _ _ _ _ He).
      rewrite Hh1. exact Hlen.
  - rewrite Hh1. exact Hlen.
Qed.

End Operations.

(** C6. A history of at most five entries, such as the empty one of a
    fresh process, still has at most five after any run of recorded
    commands and after any whole [command], however it ends; on a full
    history a command that is not the pending front entry goes to the
    front, the previous entries follow in their order and the oldest is
    dropped; and when the front entry is the pending one of the command (no
    response, no errors), recording the result rewrites that entry and adds
    none. *)
Theorem history_bounded_recent_first_pending_updated :
  (forall (records : list entry) (w : World),
      length (history w) <= 5 ->
      length (history (snd (record_all records w))) <= 5)
  /\ (forall (args : list string) (k : kw.t) (w : World),
      length (history w) <= 5 ->
      length (history (snd (MerlinProcess.command args k w))) <= 5)
  /\ (forall command response errors (e1 e2 e3 e4 e5 : entry) (w : World),
      history w = [e1; e2; e3; e4; e5] ->
      e1 <> (command, None, None) ->
      history (snd (MerlinProcess.store_last_command command response errors w))
      = [(command, response, errors); e1; e2; e3; e4])
  /\ (forall command response errors (w : World),
      head (history w) <> Some (command, None, None) ->
      length (history w) < 5 ->
      history (snd (MerlinProcess.store_last_command command response errors w))
      = (command, response, errors) :: history w)
  /\ (forall command response errors (rest : list entry) (w : World),
      history w = (command, None, None) :: rest ->
      history (snd (MerlinProcess.store_last_command command response errors w))
      = (command, response, errors) :: rest).
Proof.
  split; [|split; [|split; [|split]]].
  - intros records w Hw. apply record_all_bound. exact Hw.
  - intros args k w Hw. apply command_history_bound. exact Hw.
  - intros c r e e1 e2 e3 e4 e5 w Hw Hne. unfold history in *. cbn.
    rewrite Hw, stored_insert; [reflexivity| |cbn; lia].
    cbn. intros [= ->]. apply Hne. reflexivity.
  - intros c r e w Hfront Hlen. unfold history in *. cbn.
    rewrite stored_insert by (assumption || lia).
    rewrite take_ge by lia. reflexivity.
  - intros c r e rest w Hw. unfold history in *. cbn.
    rewrite Hw. apply stored_pending.
Qed.

Lemma history_bounded_recent_first_pending_updated_witness :
  length (history (snd (record_all six_commands bare_world))) <= 5
  /\ history (snd (MerlinProcess.store_last_command ["m"; "six"] (Some "6") (Some "")
                     (snd (record_all (take 5 six_commands) bare_world))))
     = [(["m"; "six"], Some "6", Some ""); (["m"; "five"], Some "5", Some "");
        (["m"; "four"], Some "4", Some ""); (["m"; "three"], Some "3", Some "");
        (["m"; "two"], Some "2", Some "")]
  /\ history (snd (MerlinProcess.store_last_command ["m"; "one"] (Some "1") (Some "")
                     (pending ["m"; "one"] bare_world)))
     = [(["m"; "one"], Some "1", Some "")].
Proof.
  destruct history_bounded_recent_first_pending_updated
    as (Hbound & _ & Hevict & _ & Hpending).
  split; [|split].
  - apply Hbound. cbn. lia.
  - apply (Hevict _ _ _ _ _ _ _ (["m"; "one"], Some "1", Some "")).
    + vm_compute. reflexivity.
    + discriminate.
  - apply Hpending. vm_compute. reflexivity.
Defined.

(** ** The decoder always answers *)

Section Fuel.

Import Json.

Implicit Types (s r : list ascii) (fuel : nat).

Lemma skip_ws_length s : length (skip_ws s) <= length s.
Proof.
  induction s as [|c s IH]; cbn; [lia|]. destruct (is_ws c); cbn; lia.
Qed.

Lemma strip_prefix_length p : forall s r,
  strip_prefix p s = Some r -> length r <= length s.
Proof.
  induction p as [|a p IH]; intros [|b s] r; cbn; try congruence.
  - intros [= <-]. cbn. lia.
  - intros [= <-]. cbn. lia.
  - destruct (Ascii.eqb a b); [|congruence]. intros H. apply IH in H. lia.
Qed.

Lemma literal_rest word v s v' r :
  literal word v s = Scanned v' r -> length r <= length s.
Proof.
  unfold literal. destruct (strip_prefix _ s) as [rest|] eqn:H; [|congruence].
  intros [= _ <-]. eapply strip_prefix_length. exact H.
Qed.

Lemma span_digits_length s : length (snd (span_digits s)) <= length s.
Proof.
  induction s as [|c s IH]; cbn; [lia|].
  destruct (is_digit c); cbn; [|lia].
  destruct (span_digits s) as [ds r]. cbn in *. lia.
Qed.

Lemma scan_intpart_length s ip r :
  scan_intpart s = Some (ip, r) -> length r <= length s.
Proof.
  destruct s as [|c s]; cbn; [congruence|].
  destruct (Ascii.eqb c "0"); [intros [= _ <-]; lia|].
  destruct (is_digit c); [|congruence].
  pose proof (span_digits_length s) as H. destruct (span_digits s) as [ds r'].
  intros [= _ <-]. cbn in H. lia.
Qed.

Lemma scan_frac_length s : length (snd (scan_frac s)) <= length s.
Proof.
  destruct s as [|c s]; cbn; [lia|].
  destruct (Ascii.eqb c "."); [|cbn; lia].
  pose proof (span_digits_length s) as H.
  destruct (span_digits s) as [[|d ds] r]; cbn in *; lia.
Qed.

Lemma scan_exp_length s : length (snd (scan_exp s)) <= length s.
Proof.
  destruct s as [|e s]; cbn; [lia|].
  destruct (Ascii.eqb e "e" || Ascii.eqb e "E")%bool; [|cbn; lia].
  destruct s as [|c s]; cbn; [lia|].
  destruct (Ascii.eqb c "+" || Ascii.eqb c "-")%bool.
  - pose proof (span_digits_length s) as H.
    destruct (span_digits s) as [[|d ds] r]; cbn in *; lia.
  - pose proof (span_digits_length (c :: s)) as H.
    destruct (span_digits (c :: s)) as [[|d ds] r]; cbn in *; lia.
Qed.

Lemma scan_number_rest s v r :
  scan_number s = Scanned v r -> length r <= length s.
Proof.
  unfold scan_number.
  assert (Hneg : forall (p : bool * list ascii),
             p = match s with
                 | c :: r0 => if Ascii.eqb c "-" then (true, r0) else (false, s)
                 | [] => (false, s)
                 end -> length (snd p) <= length s).
  { intros p ->. destruct s as [|c s]; cbn; [lia|].
    destruct (Ascii.eqb c "-"); cbn; lia. }
  specialize (Hneg _ eq_refl).
  destruct (match s with [] => _ | _ => _ end) as [neg s1]. cbn in Hneg.
  destruct (scan_intpart s1) as [[ip s2]|] eqn:Hip; [|congruence].
  apply scan_intpart_length in Hip.
  pose proof (scan_frac_length s2) as Hfr. destruct (scan_frac s2) as [fr s3].
  pose proof (scan_exp_length s3) as Hex. destruct (scan_exp s3) as [ex s4].
  cbn in *. destruct fr, ex; intros [= _ <-]; lia.
Qed.

Lemma scan_hex4_length s n r :
  scan_hex4 s = Some (n, r) -> length r <= length s.
Proof.
  destruct s as [|a [|b [|c [|d s]]]]; cbn; try congruence.
  destruct (hex_val a), (hex_val b), (hex_val c), (hex_val d); try congruence.
  intros [= _ <-]. lia.
Qed.

Lemma join_surrogate_length hi s : length (snd (join_surrogate hi s)) <= length s.
Proof.
  unfold join_surrogate. destruct (_ && _)%bool; [|cbn; lia].
  destruct s as [|b [|u s]]; cbn [snd]; try lia.
  destruct (_ && _)%bool; [|cbn; lia].
  destruct (scan_hex4 s) as [[lo s'']|] eqn:H; [|cbn; lia].
  apply scan_hex4_length in H. destruct (_ && _)%bool; cbn in *; lia.
Qed.

Lemma scan_chars_total fuel : forall s acc,
  length s < fuel ->
  scan_chars fuel s acc <> OutOfFuel
  /\ forall str r, scan_chars fuel s acc = Scanned str r -> length r <= length s.
Proof.
  induction fuel as [|fuel IH]; intros s acc Hlen; [lia|].
  cbn [scan_chars]. destruct s as [|c rest]; [split; congruence|].
  cbn [length] in Hlen.
  destruct (Ascii.eqb c "034"); [split; [congruence|intros ? ? [= _ <-]; cbn; lia]|].
  destruct (Ascii.eqb c "\").
  - destruct rest as [|e rest']; [split; congruence|]. cbn [length] in *.
    assert (Hplain : forall x,
               scan_chars fuel rest' (x :: acc) <> OutOfFuel
               /\ forall str r, scan_chars fuel rest' (x :: acc) = Scanned str r ->
                                length r <= S (S (length rest'))).
    { intros x. destruct (IH rest' (x :: acc)) as [H1 H2]; [lia|].
      split; [exact H1|]. intros str r H. apply H2 in H. lia. }
    repeat (match goal with
            | |- context [if Ascii.eqb e ?x then _ else _] =>
                destruct (Ascii.eqb e x); [apply Hplain|]
            end).
    destruct (Ascii.eqb e "u"); [|split; congruence].
    destruct (scan_hex4 rest') as [[hi r1]|] eqn:Hhex; [|split; congruence].
    apply scan_hex4_length in Hhex.
    pose proof (join_surrogate_length hi r1) as Hj.
    destruct (join_surrogate hi r1) as [cp r2]. cbn [snd] in Hj.
    destruct (IH r2 (rev (utf8 cp) ++ acc)) as [H1 H2]; [lia|].
    split; [exact H1|]. intros str r H. apply H2 in H. lia.
  - destruct (Nat.ltb _ 32); [split; congruence|].
    destruct (IH rest (c :: acc)) as [H1 H2]; [lia|].
    split; [exact H1|]. intros str r H. apply H2 in H. cbn. lia.
Qed.

Lemma scan_string_total s :
  scan_string s <> OutOfFuel
  /\ forall str r, scan_string s = Scanned str r -> length r <= length s.
Proof. apply scan_chars_total. lia. Qed.

End Fuel.

Section FuelValues.

Import Json.

Implicit Types (s r : list ascii) (fuel : nat).

Ltac ws_facts :=
  repeat match goal with
    | H : skip_ws ?x = _ |- _ =>
        let L := fresh "L" in
        pose proof (skip_ws_length x) as L; rewrite H in L; revert H
    end;
  intros;
  repeat match goal with
    | |- context [skip_ws ?x] =>
        lazymatch goal with
        | _ : length (skip_ws x) <= length x |- _ => fail
        | _ => pose proof (skip_ws_length x)
        end
    | H : context [skip_ws ?x] |- _ =>
        lazymatch goal with
        | _ : length (skip_ws x) <= length x |- _ => fail
        | _ => pose proof (skip_ws_length x)
        end
    end;
  cbn [length] in *.

(** What a scan leaves is no longer than what it was given. *)
Lemma scan_rest fuel :
  (forall s v r, scan_value fuel s = Scanned v r -> length r <= length s)
  /\ (forall s acc v r, scan_elements fuel s acc = Scanned v r -> length r <= length s)
  /\ (forall s acc v r, scan_members fuel s acc = Scanned v r -> length r <= length s).
Proof.
  induction fuel as [|fuel (IHv & IHe & IHm)]; [repeat split; cbn; congruence|].
  split; [|split].
  - intros s v r. cbn [scan_value]. destruct s as [|c rest]; [congruence|].
    destruct (Ascii.eqb c "034").
    { destruct (scan_string_total rest) as [_ Hs].
      destruct (scan_string rest) as [str r0| |]; try congruence.
      intros [= _ <-]. specialize (Hs _ _ eq_refl). cbn. lia. }
    destruct (Ascii.eqb c "{").
    { destruct (skip_ws rest) as [|c' r'] eqn:Hws; [congruence|].
      destruct (Ascii.eqb c' "}").
      - intros [= _ <-]. ws_facts. lia.
      - intros H. apply IHm in H. ws_facts. lia. }
    destruct (Ascii.eqb c "[").
    { destruct (skip_ws rest) as [|c' r'] eqn:Hws; [congruence|].
      destruct (Ascii.eqb c' "]").
      - intros [= _ <-]. ws_facts. lia.
      - intros H. apply IHe in H. ws_facts. lia. }
    repeat (match goal with
            | |- context [if Ascii.eqb c ?x then literal _ _ _ else _] =>
                destruct (Ascii.eqb c x); [apply literal_rest|]
            end).
    destruct (scan_number (c :: rest)) as [v' r'| |] eqn:Hn.
    + intros [= _ <-]. apply scan_number_rest in Hn. exact Hn.
    + destruct (Ascii.eqb c "-"); [apply literal_rest|congruence].
    + destruct (Ascii.eqb c "-"); [apply literal_rest|congruence].
  - intros s acc v r. cbn [scan_elements].
    destruct (scan_value fuel s) as [v0 r0| |] eqn:Hv; try congruence.
    apply IHv in Hv.
    destruct (skip_ws r0) as [|c r'] eqn:Hws; [congruence|].
    destruct (Ascii.eqb c "]"); [intros [= _ <-]; ws_facts; lia|].
    destruct (Ascii.eqb c ","); [|congruence].
    intros H. apply IHe in H. ws_facts. lia.
  - intros s acc v r. cbn [scan_members].
    destruct s as [|q s0]; [congruence|].
    destruct (Ascii.eqb q "034"); [|congruence].
    destruct (scan_string_total s0) as [_ Hs].
    destruct (scan_string s0) as [key r0| |]; try congruence.
    specialize (Hs _ _ eq_refl).
    destruct (skip_ws r0) as [|colon r1] eqn:Hws0; [congruence|].
    destruct (Ascii.eqb colon ":"); [|congruence].
    destruct (scan_value fuel (skip_ws r1)) as [v0 r2| |] eqn:Hv; try congruence.
    apply IHv in Hv.
    destruct (skip_ws r2) as [|c r3] eqn:Hws2; [congruence|].
    destruct (Ascii.eqb c "}"); [intros [= _ <-]; ws_facts; lia|].
    destruct (Ascii.eqb c ","); [|congruence].
    intros H. apply IHm in H. ws_facts. lia.
Qed.

(** With more fuel than twice the length of the text, no scan runs out. *)
Lemma scan_fuel fuel :
  (forall s, 2 * length s < fuel -> scan_value fuel s <> OutOfFuel)
  /\ (forall s acc, 2 * length s + 1 < fuel -> scan_elements fuel s acc <> OutOfFuel)
  /\ (forall s acc, 2 * length s + 1 < fuel -> scan_members fuel s acc <> OutOfFuel).
Proof.
  induction fuel as [|fuel (IHv & IHe & IHm)]; [repeat split; intros; lia|].
  destruct (scan_rest fuel) as (Rv & Re & Rm).
  split; [|split].
  - intros s Hlen. cbn [scan_value]. destruct s as [|c rest]; [congruence|].
    cbn [length] in Hlen.
    destruct (Ascii.eqb c "034").
    { destruct (scan_string_total rest) as [Hs _].
      destruct (scan_string rest); congruence. }
    destruct (Ascii.eqb c "{").
    { destruct (skip_ws rest) as [|c' r'] eqn:Hws; [congruence|].
      destruct (Ascii.eqb c' "}"); [congruence|].
      apply IHm. ws_facts. lia. }
    destruct (Ascii.eqb c "[").
    { destruct (skip_ws rest) as [|c' r'] eqn:Hws; [congruence|].
      destruct (Ascii.eqb c' "]"); [congruence|].
      apply IHe. ws_facts. lia. }
    unfold literal. unfold scan_number.
    repeat (match goal with
            | |- context [match ?x with _ => _ end] =>
                lazymatch x with
                | scan_value _ _ => fail
                | _ => destruct x
                end
            end); congruence.
  - intros s acc Hlen. cbn [scan_elements].
    specialize (IHv s ltac:(lia)).
    destruct (scan_value fuel s) as [v0 r0| |] eqn:Hv; try congruence.
    apply Rv in Hv.
    destruct (skip_ws r0) as [|c r'] eqn:Hws; [congruence|].
    destruct (Ascii.eqb c "]"); [congruence|].
    destruct (Ascii.eqb c ","); [|congruence].
    apply IHe. ws_facts. lia.
  - intros s acc Hlen. cbn [scan_members].
    destruct s as [|q s0]; [congruence|]. cbn [length] in Hlen.
    destruct (Ascii.eqb q "034"); [|congruence].
    destruct (scan_string_total s0) as [Hf Hs].
    destruct (scan_string s0) as [key r0| |]; try congruence.
    specialize (Hs _ _ eq_refl).
    destruct (skip_ws r0) as [|colon r1] eqn:Hws0; [congruence|].
    destruct (Ascii.eqb colon ":"); [|congruence].
    assert (Hv1 : scan_value fuel (skip_ws r1) <> OutOfFuel).
    { apply IHv. ws_facts. lia. }
    destruct (scan_value fuel (skip_ws r1)) as [v0 r2| |] eqn:Hv; try congruence.
    apply Rv in Hv.
    destruct (skip_ws r2) as [|c r3] eqn:Hws2; [congruence|].
    destruct (Ascii.eqb c "}"); [congruence|].
    destruct (Ascii.eqb c ","); [|congruence].
    apply IHm. ws_facts. lia.
Qed.

(** [decode] never runs out of fuel: on every text [json.loads] returns a
    value or raises its error. *)
Lemma decode_fuel text : decode text <> OutOfFuel.
Proof.
  unfold decode.
  pose proof (proj1 (scan_fuel (S (2 * length (list_ascii_of_string text))))
                (skip_ws (list_ascii_of_string text))) as H.
  destruct (scan_value _ _) as [v r| |].
  - destruct (skip_ws r); congruence.
  - congruence.
  - exfalso. apply H; [|reflexivity].
    pose proof (skip_ws_length (list_ascii_of_string text)). lia.
Qed.

End FuelValues.

(** ** [clean_whitespace] *)

Section CleanWhitespaceFacts.

Context {char : Type} (isspace : char -> bool) (space : char).

Implicit Types (text word w : list char) (words : list (list char)).

Local Abbreviation nonspace := (not_space isspace).

(** A run without white space in front of the rest only lengthens the word
    under way. *)
Lemma split_from_run w : forall word text,
  forallb nonspace w = true ->
  split_from isspace word (w ++ text) = split_from isspace (word ++ w) text.
Proof.
  induction w as [|c w IH]; intros word text Hw; cbn [app].
  - rewrite app_nil_r. reflexivity.
  - cbn in Hw. apply andb_prop in Hw as [Hc Hw].
    cbn [split_from]. apply negb_true_iff in Hc. rewrite Hc.
    rewrite IH by exact Hw. rewrite <- app_assoc. reflexivity.
Qed.

Lemma split_from_words : forall text word,
  forallb nonspace word = true ->
  Forall (is_word isspace) (split_from isspace word text).
Proof.
  induction text as [|c text IH]; intros word Hword; cbn [split_from].
  - destruct word as [|a word]; [constructor|].
    constructor; [|constructor]. split; [discriminate|exact Hword].
  - destruct (isspace c) eqn:Hc.
    + destruct word as [|a word]; [apply IH; reflexivity|].
      constructor; [split; [discriminate|exact Hword]|apply IH; reflexivity].
    + apply IH. rewrite forallb_app, Hword. cbn. unfold nonspace. rewrite Hc.
      reflexivity.
Qed.

Lemma split_from_concat : forall text word,
  concat (split_from isspace word text) = word ++ List.filter nonspace text.
Proof.
  induction text as [|c text IH]; intros word; cbn [split_from List.filter].
  - destruct word; cbn; rewrite ?app_nil_r; reflexivity.
  - unfold nonspace at 1. destruct (isspace c) eqn:Hc; cbn [negb].
    + destruct word as [|a word].
      * apply IH.
      * cbn [concat]. rewrite IH. reflexivity.
    + rewrite IH, <- app_assoc. reflexivity.
Qed.

Lemma join_cons2 (sep : list char) w w' words :
  join sep (w :: w' :: words) = w ++ sep ++ join sep (w' :: words).
Proof. reflexivity. Qed.

Lemma join_words_nil words :
  Forall (is_word isspace) words -> join [space] words = [] -> words = [].
Proof.
  intros Hws. destruct Hws as [|w words [Hne _] Hws]; [reflexivity|].
  destruct words as [|w' words]; cbn [join].
  - intros ->. contradiction.
  - destruct w; [contradiction|discriminate].
Qed.

Hypothesis space_isspace : isspace space = true.

(** Splitting what [join] made of words gives the words back. *)
Lemma split_join words :
  Forall (is_word isspace) words ->
  split isspace (join [space] words) = words.
Proof.
  unfold split. induction 1 as [|w words [Hne Hw] Hws IH]; [reflexivity|].
  destruct words as [|w' words].
  - cbn [join]. pose proof (split_from_run w [] [] Hw) as Hrun.
    rewrite app_nil_r in Hrun. rewrite Hrun. cbn.
    destruct w; [contradiction|reflexivity].
  - rewrite join_cons2, split_from_run by exact Hw. cbn [app split_from].
    rewrite space_isspace, IH. destruct w; [contradiction|reflexivity].
Qed.

Lemma filter_nonspace_word w :
  forallb nonspace w = true -> List.filter nonspace w = w.
Proof.
  induction w as [|c w IH]; [reflexivity|]. cbn [forallb List.filter].
  intros [Hc Hw]%andb_prop. rewrite Hc, IH by exact Hw. reflexivity.
Qed.

Lemma filter_join words :
  Forall (is_word isspace) words ->
  List.filter nonspace (join [space] words) = concat words.
Proof.
  induction 1 as [|w words [Hne Hw] Hws IH]; [reflexivity|].
  destruct words as [|w' words].
  - cbn [join concat]. rewrite app_nil_r. apply filter_nonspace_word. exact Hw.
  - rewrite join_cons2, !List.filter_app, IH, filter_nonspace_word by exact Hw.
    cbn [concat List.filter]. unfold nonspace at 1. rewrite space_isspace.
    reflexivity.
Qed.

Lemma word_lookup_nonspace w i c :
  forallb nonspace w = true -> w !! i = Some c -> isspace c = false.
Proof.
  revert i. induction w as [|a w IH]; intros i Hw Hi; [discriminate|].
  cbn in Hw. apply andb_prop in Hw as [Ha Hw]. destruct i as [|i].
  - injection Hi as <-. apply negb_true_iff. exact Ha.
  - apply (IH i); assumption.
Qed.

(** In what [join] makes of words, a white space character is the one
    separator between a character of a word before it and one after it. *)
Lemma join_separators words :
  Forall (is_word isspace) words ->
  forall i c,
    join [space] words !! i = Some c -> isspace c = true ->
    c = space
    /\ (exists j a, i = S j /\ join [space] words !! j = Some a
                    /\ isspace a = false)
    /\ (exists b, join [space] words !! S i = Some b /\ isspace b = false).
Proof.
  induction 1 as [|w words [Hne Hw] Hws IH]; intros i c Hi Hc; [discriminate|].
  destruct words as [|w' words].
  - cbn [join] in Hi. rewrite (word_lookup_nonspace _ _ _ Hw Hi) in Hc.
    discriminate.
  - rewrite join_cons2 in *. cbn [app] in *.
    set (J := join [space] (w' :: words)) in *.
    destruct (Nat.lt_trichotomy i (length w)) as [Hlt|[Heq|Hgt]].
    + rewrite lookup_app_l in Hi by exact Hlt.
      rewrite (word_lookup_nonspace _ _ _ Hw Hi) in Hc. discriminate.
    + subst i. rewrite lookup_app_r, Nat.sub_diag in Hi by lia.
      injection Hi as <-. split; [reflexivity|]. split.
      * destruct (lookup_lt_is_Some_2 w (length w - 1)) as [a Ha].
        { destruct w; [contradiction|cbn; lia]. }
        exists (length w - 1), a. split.
        { destruct w; [contradiction|cbn; lia]. }
        split; [|exact (word_lookup_nonspace _ _ _ Hw Ha)].
        rewrite lookup_app_l; [exact Ha|].
        destruct w; [contradiction|cbn; lia].
      * inversion Hws as [|? ? [Hne' Hw'] Hws']; subst.
        destruct w' as [|b w']; [contradiction|]. exists b. split.
        { rewrite lookup_app_r by lia.
          replace (S (length w) - length w) with 1 by lia.
          subst J. destruct words; reflexivity. }
        cbn in Hw'. apply andb_prop in Hw' as [Hb _].
        apply negb_true_iff. exact Hb.
    + rewrite lookup_app_r in Hi by lia.
      destruct (i - length w) as [|k] eqn:Hk; [lia|]. cbn in Hi.
      destruct (IH k c Hi Hc) as (-> & (j & a & -> & Hj & Ha) & (b & Hb & Hb')).
      split; [reflexivity|]. split.
      * exists (length w + S j), a. split; [lia|]. split; [|exact Ha].
        rewrite lookup_app_r by lia.
        replace (length w + S j - length w) with (S j) by lia. exact Hj.
      * exists b. split; [|exact Hb'].
        rewrite lookup_app_r by lia.
        replace (S i - length w) with (S (S (S j))) by lia. exact Hb.
Qed.

End CleanWhitespaceFacts.

Section CleanWhitespaceLength.

Context {char : Type} (isspace : char -> bool) (space : char).

Lemma join_split_from_length : forall (text word : list char),
  length (join [space] (split_from isspace word text))
  <= length word + length text.
Proof.
  induction text as [|c text IH]; intros word; cbn [split_from].
  - destruct word; cbn; lia.
  - destruct (isspace c).
    + destruct word as [|a word].
      * specialize (IH []). cbn in *. lia.
      * specialize (IH []).
        destruct (split_from isspace [] text) as [|w ws].
        { cbn. lia. }
        rewrite join_cons2, !length_app. cbn in *. lia.
    + specialize (IH (word ++ [c])). rewrite length_app in IH. cbn in *. lia.
Qed.

End CleanWhitespaceLength.

Lemma filter_nonspace_nil {char : Type} (isspace : char -> bool) (text : list char) :
  List.filter (not_space isspace) text = [] <-> forallb isspace text = true.
Proof.
  induction text as [|c text IH]; cbn; [tauto|]. unfold not_space at 1.
  destruct (isspace c); cbn; [exact IH|]. split; discriminate.
Qed.

Lemma concat_words_nil {char : Type} (isspace : char -> bool)
    (words : list (list char)) :
  Forall (is_word isspace) words -> concat words = [] -> words = [].
Proof.
  intros Hws. destruct Hws as [|w words [Hne _] _]; [reflexivity|].
  cbn. destruct w; [contradiction|discriminate].
Qed.

(** X1. Cleaning a text that has been cleaned changes nothing. *)
Theorem clean_whitespace_idempotent :
  forall (char : Type) (isspace : char -> bool) (space : char)
         (text : list char),
    isspace space = true ->
    clean_whitespace isspace space (clean_whitespace isspace space text)
    = clean_whitespace isspace space text.
Proof.
  intros char isspace space text Hspace. unfold clean_whitespace.
  rewrite split_join; [reflexivity|exact Hspace|].
  apply split_from_words. reflexivity.
Qed.

Lemma clean_whitespace_idempotent_witness :
  clean_whitespace is_space " "%char
    (clean_whitespace is_space " "%char
       (list_ascii_of_string "  val  map :   'a list "))
  = list_ascii_of_string "val map : 'a list".
Proof.
  rewrite (clean_whitespace_idempotent ascii is_space " "%char) by reflexivity.
  vm_compute. reflexivity.
Defined.

(** X2. In a cleaned text every white space character is the space
    character, has a character that is not white space just before it and
    another just after it: the text neither starts nor ends with white
    space and has no two white space characters in a row. *)
Theorem clean_whitespace_single_spaces :
  forall (char : Type) (isspace : char -> bool) (space : char)
         (text : list char) (i : nat) (c : char),
    isspace space = true ->
    clean_whitespace isspace space text !! i = Some c ->
    isspace c = true ->
    c = space
    /\ (exists j a, i = S j
                    /\ clean_whitespace isspace space text !! j = Some a
                    /\ isspace a = false)
    /\ (exists b, clean_whitespace isspace space text !! S i = Some b
                  /\ isspace b = false).
Proof.
  intros char isspace space text i c Hspace Hi Hc.
  apply (join_separators isspace space); [|exact Hi|exact Hc].
  apply split_from_words. reflexivity.
Qed.

Lemma clean_whitespace_single_spaces_witness :
  clean_whitespace is_space " "%char tabbed_text !! 1 = Some " "%char
  /\ clean_whitespace is_space " "%char tabbed_text !! 2 = Some "b"%char.
Proof.
  split; [vm_compute; reflexivity|].
  destruct (clean_whitespace_single_spaces ascii is_space " "%char
              tabbed_text 1 " "%char)
    as (_ & _ & b & Hb & _);
    [reflexivity|vm_compute; reflexivity|reflexivity|].
  vm_compute. reflexivity.
Defined.

(** X3. Cleaning keeps the characters that are not white space, all of
    them and in their order, never makes the text longer, and gives the
    empty text exactly for the texts made of white space only. *)
Theorem clean_whitespace_contents :
  forall (char : Type) (isspace : char -> bool) (space : char)
         (text : list char),
    isspace space = true ->
    List.filter (not_space isspace) (clean_whitespace isspace space text)
    = List.filter (not_space isspace) text
    /\ length (clean_whitespace isspace space text) <= length text
    /\ (clean_whitespace isspace space text = [] <-> forallb isspace text = true).
Proof.
  intros char isspace space text Hspace. unfold clean_whitespace, split.
  pose proof (split_from_words isspace text [] eq_refl) as Hws.
  pose proof (split_from_concat isspace text []) as Hcat. cbn [app] in Hcat.
  split; [|split].
  - rewrite (filter_join isspace space) by assumption. exact Hcat.
  - apply (join_split_from_length isspace space text []).
  - rewrite <- filter_nonspace_nil, <- Hcat. split.
    + intros Hnil. apply (join_words_nil isspace space) in Hnil; [|exact Hws].
      rewrite Hnil. reflexivity.
    + intros Hnil. apply (concat_words_nil isspace) in Hnil; [|exact Hws].
      rewrite Hnil. reflexivity.
Qed.

Lemma clean_whitespace_contents_witness :
  length (clean_whitespace is_space " "%char
            (list_ascii_of_string "  let   x  = 1 ")) <= 15
  /\ clean_whitespace_ascii "  let   x  = 1 " = "let x = 1".
Proof.
  split; [|vm_compute; reflexivity].
  apply (proj1 (proj2 (clean_whitespace_contents ascii is_space " "%char
                         (list_ascii_of_string "  let   x  = 1 ") eq_refl))).
Defined.

(** ** Encoded positions are unambiguous *)

Section PositionsInjective.

Lemma pretty_N_char_colon (x : N) : Ascii.eqb (pretty_N_char x) ":" = false.
Proof.
  unfold pretty_N_char.
  repeat (match goal with
          | |- context [match ?y with _ => _ end] => destruct y
          end); reflexivity.
Qed.

Lemma pretty_N_go_colon_free (x : N) : forall s,
  colon_free s = true -> colon_free (pretty_N_go x s) = true.
Proof.
  induction (N.lt_wf_0 x) as [x _ IH]; intros s Hs.
  destruct (decide (x = 0)%N) as [->|Hx].
  - rewrite pretty_N_go_0. exact Hs.
  - rewrite pretty_N_go_step by lia. apply IH.
    + apply N.div_lt; lia.
    + cbn. rewrite pretty_N_char_colon. exact Hs.
Qed.

Lemma pretty_Z_colon_free (z : Z) : colon_free (pretty z) = true.
Proof.
  destruct z as [|p|p]; [reflexivity| |].
  - unfold pretty, pretty_Z, pretty, pretty_positive, pretty, pretty_N.
    destruct (decide _); [reflexivity|]. apply pretty_N_go_colon_free. reflexivity.
  - unfold pretty, pretty_Z. cbn.
    unfold pretty, pretty_positive, pretty, pretty_N.
    destruct (decide _); [reflexivity|]. apply pretty_N_go_colon_free. reflexivity.
Qed.

Lemma colon_free_append (s t : string) :
  colon_free (s +:+ t) = (colon_free s && colon_free t)%bool.
Proof.
  induction s as [|c s IH]; [reflexivity|].
  change (String c s +:+ t) with (String c (s +:+ t)).
  cbn [colon_free]. rewrite IH, andb_assoc. reflexivity.
Qed.

(** Two texts cut at their first colon agree on both sides when equal. *)
Lemma colon_split (s1 : string) : forall s2 t1 t2,
  colon_free s1 = true -> colon_free s2 = true ->
  s1 +:+ String ":" t1 = s2 +:+ String ":" t2 -> s1 = s2 /\ t1 = t2.
Proof.
  induction s1 as [|c s1 IH]; intros [|d s2] t1 t2 H1 H2 Heq;
    cbn [String.append colon_free] in *.
  - injection Heq as ->. split; reflexivity.
  - injection Heq as <- _. rewrite Ascii.eqb_refl in H2. discriminate.
  - injection Heq as -> _. rewrite Ascii.eqb_refl in H1. discriminate.
  - injection Heq as -> Heq.
    apply andb_prop in H1 as [_ H1]. apply andb_prop in H2 as [_ H2].
    destruct (IH _ _ _ H1 H2 Heq) as [-> ->]. split; reflexivity.
Qed.

Lemma fmtpos_ints_eq (l c l' c' : Z) :
  fmtpos (PosTuple [CInt l; CInt c]) = fmtpos (PosTuple [CInt l'; CInt c']) ->
  l = l' /\ c = c'.
Proof.
  cbn [fmtpos unpack2 format_coord]. intros [= Heq].
  change (":" +:+ pretty c) with (String ":" (pretty c)) in Heq.
  change (":" +:+ pretty c') with (String ":" (pretty c')) in Heq.
  apply colon_split in Heq as [Hl Hc]; try apply pretty_Z_colon_free.
  split; [exact (pretty_Z_inj _ _ Hl)|exact (pretty_Z_inj _ _ Hc)].
Qed.

End PositionsInjective.

(** X4. The encoding of integer positions is unambiguous: two pairs of
    integers with the same encoding are the same pair, and no pair is
    encoded as the token [end] of the end of the buffer. *)
Theorem fmtpos_unambiguous :
  forall (line col line' col' : Z),
    (fmtpos (PosTuple [CInt line; CInt col])
     = fmtpos (PosTuple [CInt line'; CInt col']) ->
     line = line' /\ col = col')
    /\ fmtpos (PosTuple [CInt line; CInt col]) <> fmtpos PosNone.
Proof.
  intros line col line' col'. split; [apply fmtpos_ints_eq|].
  cbn [fmtpos unpack2 format_coord]. intros [= Heq].
  assert (H : colon_free (pretty line +:+ ":" +:+ pretty col) = true)
    by (rewrite Heq; reflexivity).
  rewrite colon_free_append in H. apply andb_prop in H as [_ H].
  change (":" +:+ pretty col) with (String ":" (pretty col)) in H.
  cbn [colon_free] in H. rewrite Ascii.eqb_refl in H. discriminate.
Qed.

Lemma fmtpos_unambiguous_witness :
  fmtpos (PosTuple [CInt 10; CInt 3]) = Ok "10:3"
  /\ fmtpos (PosTuple [CInt 10; CInt 3]) <> fmtpos (PosTuple [CInt 1; CInt 3])
  /\ fmtpos (PosTuple [CInt 10; CInt 3]) <> fmtpos PosNone.
Proof.
  split; [vm_compute; reflexivity|]. split.
  - intros Heq.
    apply (proj1 (fmtpos_unambiguous 10 3 1 3)) in Heq as [Hl _]. discriminate.
  - apply (proj2 (fmtpos_unambiguous 10 3 1 3)).
Defined.

(** ** One run of the tool, one record *)

Section RunnerRecords.

Implicit Types (cl command : list string) (w : World) (h : list entry).


(** What [exec] leaves alone, however it ends. *)
Lemma exec_frame cl bp input w r w' :
  MerlinProcess.exec cl bp input w = (r, w') ->
  counter w' = counter w /\ os w' = os w
  /\ merlin_settings w' = merlin_settings w
  /\ view_settings w' = view_settings w
  /\ view_file_name w' = view_file_name w /\ view_text w' = view_text w.
Proof.
  unfold MerlinProcess.exec, try_except, bind. fold (chosen_path bp).
  destruct (chosen_path bp w) as [[path|e] w0] eqn:Hp;
    destruct (chosen_path_frame _ _ _ _ Hp)
      as (_ & Hc & _ & Hos & Hms & Hvs & Hfn & Htx).
  - cbn [app]. unfold MerlinProcess.popen, MerlinProcess.store_last_command at 1.
    cbn. destruct (if win32 (os w0) then _ else _) as [e|communicate].
    + cbn. intros [= <- <-]. unfold counter in *. cbn. repeat split; assumption.
    + cbn. destruct (communicate input) as [out err]. cbn.
      intros [= <- <-]. unfold counter in *. cbn. repeat split; assumption.
  - destruct e; cbn; intros [= <- <-]; unfold counter in *; cbn;
      repeat split; assumption.
Qed.

End RunnerRecords.



(** ** The verbosity counter under whole requests *)

Section CounterRequests.

Implicit Types (args cl : list string) (k : kw.t) (w : World).

Lemma track_verbosity_keeps_ok key args w :
  counter_ok w -> counter_ok (snd (MerlinProcess.track_verbosity key args w)).
Proof.
  intros Hok.
  destruct (track_verbosity_total key args w Hok) as (v & w' & -> & Hok' & _).
  exact Hok'.
Qed.

Lemma cmdline_counter args k w :
  counter (snd (MerlinProcess.cmdline args k w))
  = counter (snd (MerlinProcess.track_verbosity (kw.track_verbosity k) args w)).
Proof.
  unfold MerlinProcess.cmdline, bind.
  destruct (MerlinProcess.track_verbosity _ _ _) as [[v|e] w1]; [|reflexivity].
  cbn [snd]. destruct (settings_run w1) as (w2 & -> & H). unfold lift.
  destruct (opt_strs _); cbn [snd]; apply H.
Qed.

(** Whatever becomes of a command, its effect on the counter is the one
    of [track_verbosity]. *)
Lemma command_counter args k w :
  counter (snd (MerlinProcess.command args k w))
  = counter (snd (MerlinProcess.track_verbosity (kw.track_verbosity k) args w)).
Proof.
  rewrite <- cmdline_counter. unfold MerlinProcess.command, bind.
  destruct (MerlinProcess.cmdline args k w) as [[cl|e] w1]; [|reflexivity].
  cbn [snd].
  destruct (MerlinProcess.exec cl _ _ w1) as [[raw|e] w2] eqn:He;
    destruct (exec_frame _ _ _ _ _ _ He) as (Hc & _); [|exact Hc].
  destruct (MerlinProcess.response raw w2) as [r w3] eqn:Hr.
  destruct (response_frame _ _ _ _ Hr) as (Hself & _). cbn [snd].
  unfold counter in *. rewrite Hself. exact Hc.
Qed.

Lemma opt_str_raises v e : opt_str v = Raised e -> e = TypeError.
Proof. destruct v; cbn; congruence. Qed.

Lemma opt_strs_raises v e : opt_strs v = Raised e -> e = TypeError.
Proof.
  unfold opt_strs. destruct (truthy v); [|discriminate].
  destruct v; try congruence. destruct (strs xs); congruence.
Qed.

(** A request of the view either stops at a setting of the wrong type,
    having changed nothing, or is the command of the process on the
    arguments of the view. *)
Lemma view_command_cases args tv w :
  MerlinView.command args tv w = (Raised TypeError, w)
  \/ exists bp dm ex fl pk bu so,
       view_settings_typed w bp dm ex fl pk bu so
       /\ MerlinView.command args tv w
          = MerlinProcess.command args (view_kwargs w tv bp dm ex fl pk bu so) w.
Proof.
  unfold MerlinView.command, bind, MerlinView.view_get, lift, view_settings_typed.
  destruct (opt_str _) as [bp|e] eqn:Hbp;
    [|left; rewrite (opt_str_raises _ _ Hbp); reflexivity].
  repeat (match goal with
          | |- context [match opt_strs ?v with _ => _ end] =>
              let H := fresh "H" in
              destruct (opt_strs v) as [?|?] eqn:H;
              [|left; rewrite (opt_strs_raises _ _ H); reflexivity]
          end).
  right. do 7 eexists. split; [repeat split; eassumption|reflexivity].
Qed.

End CounterRequests.

(** X6. A key counts as a tracking key when it is true in Python's sense
    (not [None], [False], 0, the empty text or an empty list). On a session
    that is not tracking such a key [k], successive calls that track [k]
    emit the counts 0, 1, 2, ...: the call that follows [n] earlier ones
    emits [n]. With a key that is false, no call emits a token, however
    many came before, and the session stays as it was. *)
Theorem verbosity_counts_up :
  forall (key : track_key) (args : list string) (w : World) (n : nat),
    (key_truthy key = true ->
     key_eq (fst (counter w)) (tracked key args) = false ->
     fst (MerlinProcess.track_verbosity key args (after_tracks n key args w))
     = Ok ["-verbosity"; pretty n]
     /\ counter (after_tracks (S n) key args w) = (tracked key args, Some n))
    /\ (key_truthy key = false ->
        after_tracks n key args w = w
        /\ MerlinProcess.track_verbosity key args (after_tracks n key args w)
           = (Ok [], w)).
Proof.
  intros key args w n. split.
  - intros Hk Hne. induction n as [|n [_ IH]].
    + cbn [after_tracks]. rewrite track_verbosity_reset by assumption.
      split; reflexivity.
    + cbn [after_tracks] in *.
      rewrite (track_verbosity_again key args _ n); [| assumption | | ].
      * replace (n + 1) with (S n) by lia. split; reflexivity.
      * rewrite IH. apply key_eq_refl.
      * rewrite IH. reflexivity.
  - intros Hk.
    assert (Hsame : after_tracks n key args w = w).
    { induction n as [|n IH]; [reflexivity|].
      cbn [after_tracks]. rewrite IH, track_verbosity_off by exact Hk.
      reflexivity. }
    rewrite Hsame. split; [reflexivity|apply track_verbosity_off, Hk].
Qed.

Lemma verbosity_counts_up_witness :
  fst (MerlinProcess.track_verbosity (TStr "hover") []
         (after_tracks 12 (TStr "hover") [] bare_world))
  = Ok ["-verbosity"; "12"].
Proof.
  apply (proj1 (proj1 (verbosity_counts_up (TStr "hover") [] bare_world 12)
                  eq_refl eq_refl)).
Defined.

(** X7. The counter that [clear] leaves is sound (it holds a count whenever
    it holds a key), and every request keeps it sound, however the request
    ends: the command of the process and the command of a view. So the
    increment of a later call always finds a count to add to. *)
Theorem counter_sound_across_requests :
  (forall w : World, counter_ok (snd (MerlinProcess.clear w)))
  /\ (forall (args : list string) (k : kw.t) (w : World),
        counter_ok w -> counter_ok (snd (MerlinProcess.command args k w)))
  /\ (forall (args : list string) (tv : track_key) (w : World),
        counter_ok w -> counter_ok (snd (MerlinView.command args tv w))).
Proof.
  split; [intros w _; reflexivity|]. split.
  - intros args k w Hok. unfold counter_ok. rewrite command_counter.
    apply track_verbosity_keeps_ok. exact Hok.
  - intros args tv w Hok.
    destruct (view_command_cases args tv w)
      as [->|(bp & dm & ex & fl & pk & bu & so & _ & ->)]; [exact Hok|].
    unfold counter_ok. rewrite command_counter.
    apply track_verbosity_keeps_ok. exact Hok.
Qed.

Lemma counter_sound_across_requests_witness :
  counter_ok (snd (MerlinView.command ["type-enclosing"] (TBool true)
                     (tool_world "not json"))).
Proof.
  apply (proj2 (proj2 counter_sound_across_requests)).
  intros _. reflexivity.
Defined.

(** X8. Whatever becomes of a command of the process (the tool could not
    be started, its output could not be decoded, it reported a failure, or
    all went well), the verbosity counter afterwards is the one that
    [track_verbosity] alone leaves: a tracked request that raises has
    still been counted. *)
Theorem command_counts_whatever_the_outcome :
  forall (args : list string) (k : kw.t) (w : World),
    counter (snd (MerlinProcess.command args k w))
    = counter (snd (MerlinProcess.track_verbosity (kw.track_verbosity k) args w))
    /\ (counter_ok w -> key_truthy (kw.track_verbosity k) = true ->
        exists n : nat,
          counter (snd (MerlinProcess.command args k w))
          = (tracked (kw.track_verbosity k) args, Some n)).
Proof.
  intros args k w. split; [apply command_counter|].
  intros Hok Hk. rewrite command_counter.
  destruct (track_verbosity_total (kw.track_verbosity k) args w Hok)
    as (v & w' & -> & _ & _ & Hon & _).
  destruct (Hon Hk) as (n & _ & Hc). exists n. exact Hc.
Qed.

Lemma command_counts_whatever_the_outcome_witness :
  fst (MerlinProcess.command ["type-enclosing"] tracking_kwargs bare_world)
  = Raised (OSError FileNotFoundError)
  /\ exists n : nat,
       counter (snd (MerlinProcess.command ["type-enclosing"] tracking_kwargs
                       bare_world))
       = (TList ["type-enclosing"], Some n).
Proof.
  split; [vm_compute; reflexivity|].
  apply (proj2 (command_counts_whatever_the_outcome ["type-enclosing"]
                  tracking_kwargs bare_world)).
  - intros _. reflexivity.
  - reflexivity.
Defined.

(** ** Resolving the binary *)

Section BinaryPath.

Implicit Types (w : World) (p path : string).

Lemma binary_path_cached_run w p :
  _binary_path (self w) = Some p -> MerlinProcess.binary_path w = (Ok p, w).
Proof.
  intros Hc. unfold MerlinProcess.binary_path, bind. rewrite Hc. reflexivity.
Qed.

Lemma binary_path_caches w p w1 :
  MerlinProcess.binary_path w = (Ok p, w1) -> _binary_path (self w1) = Some p.
Proof.
  unfold MerlinProcess.binary_path. run.
  destruct (_binary_path (self w)) as [path|] eqn:Hc.
  - intros [= <- <-]. exact Hc.
  - destruct (truthy _).
    + destruct (settings_get _ _); cbn; intros [= <- <-]; reflexivity.
    + destruct (environ_PATH _) as [|dir dirs]; cbn; [discriminate|].
      case_bool_decide; cbn;
        (destruct (opam_config_var_bin _); cbn; [|discriminate]);
        destruct (isfile_and_X_OK _ _); intros [= <- <-]; reflexivity.
Qed.

Lemma binary_path_PATH w r w' :
  MerlinProcess.binary_path w = (r, w') ->
  environ_PATH w' = environ_PATH w
  \/ (("/usr/local/bin" ∉ environ_PATH w)
      /\ environ_PATH w' = environ_PATH w ++ ["/usr/local/bin"]).
Proof.
  unfold MerlinProcess.binary_path. run.
  destruct (_binary_path (self w)) as [path|].
  - intros [= <- <-]. left. reflexivity.
  - destruct (truthy _).
    + destruct (settings_get _ _); cbn; intros [= <- <-]; left; reflexivity.
    + change (environ_PATH (with_self _ w)) with (environ_PATH w).
      destruct (environ_PATH w) as [|dir dirs] eqn:Hpath; cbn;
        [intros [= <- <-]; left; exact Hpath|].
      case_bool_decide as Hin; cbn;
        (destruct (opam_config_var_bin _); cbn;
         [destruct (isfile_and_X_OK _ _)|]);
        intros [= <- <-]; cbn; rewrite ?Hpath; auto.
Qed.

End BinaryPath.

(** What [rstrip] removes: a line end, and white space beyond ASCII such
    as the no-break space U+00A0 and the line separator U+2028; an accented
    letter at the end and white space inside the text stay. *)
Example rstrip_samples :
  rstrip ("/opt/bin" +:+ String "010"%char EmptyString) = "/opt/bin"
  /\ rstrip ("/opt/bin"
             +:+ String "194"%char (String "160"%char (String " "%char EmptyString)))
     = "/opt/bin"
  /\ rstrip ("/opt/bin"
             +:+ String "226"%char (String "128"%char (String "168"%char EmptyString)))
     = "/opt/bin"
  /\ rstrip ("/opt/caf" +:+ String "195"%char (String "169"%char EmptyString))
     = "/opt/caf" +:+ String "195"%char (String "169"%char EmptyString)
  /\ rstrip "/opt/my bin " = "/opt/my bin".
Proof. repeat split; vm_compute; reflexivity. Qed.

(** X9. The resolved binary is cached: once [binary_path] has returned a
    path, it returns that path again for the same process object and
    changes nothing, whatever the settings, the search path and the file
    system have become in the meantime. *)
Theorem binary_path_is_cached :
  forall (w w1 w2 : World) (p : string),
    MerlinProcess.binary_path w = (Ok p, w1) ->
    self w2 = self w1 ->
    MerlinProcess.binary_path w2 = (Ok p, w2).
Proof.
  intros w w1 w2 p Hrun Hself. apply binary_path_cached_run.
  rewrite Hself. exact (binary_path_caches _ _ _ Hrun).
Qed.

(** A world where the settings name a binary, after a resolution made when
    they named none. *)
Lemma binary_path_is_cached_witness :
  MerlinProcess.binary_path
    {| os := sample_os; environ_PATH := [];
       merlin_settings := <["ocamlmerlin_path" := VStr "/opt/merlin"]> ∅;
       view_settings := ∅; view_file_name := None; view_text := "";
       stdout := [];
       self := self (snd (MerlinProcess.binary_path bare_world)) |}
  = (Ok "ocamlmerlin",
     {| os := sample_os; environ_PATH := [];
        merlin_settings := <["ocamlmerlin_path" := VStr "/opt/merlin"]> ∅;
        view_settings := ∅; view_file_name := None; view_text := "";
        stdout := [];
        self := self (snd (MerlinProcess.binary_path bare_world)) |}).
Proof.
  apply (binary_path_is_cached bare_world
           (snd (MerlinProcess.binary_path bare_world))).
  - vm_compute. reflexivity.
  - reflexivity.
Defined.

(** X10. [binary_path] changes the search path of the environment in one
    way only: it appends [/usr/local/bin] when that entry is missing, so
    the entry is never there twice through it; and when the binary is
    cached or named by the settings the search path is left as it was. *)
Theorem binary_path_extends_PATH_once :
  forall (w w' : World) (r : outcome string),
    MerlinProcess.binary_path w = (r, w') ->
    (environ_PATH w' = environ_PATH w
     \/ (("/usr/local/bin" ∉ environ_PATH w)
         /\ environ_PATH w' = environ_PATH w ++ ["/usr/local/bin"]))
    /\ (is_Some (_binary_path (self w)) -> environ_PATH w' = environ_PATH w)
    /\ (forall p, settings_get (merlin_settings w) "ocamlmerlin_path" = VStr p ->
                  p <> "" -> environ_PATH w' = environ_PATH w)
    /\ (forall r2 w2,
          MerlinProcess.binary_path (snd (MerlinProcess.clear w')) = (r2, w2) ->
          environ_PATH w' <> environ_PATH w ->
          environ_PATH w2 = environ_PATH w').
Proof.
  intros w w' r Hrun. split; [exact (binary_path_PATH _ _ _ Hrun)|].
  split; [|split].
  - intros [p Hp]. rewrite (binary_path_cached_run _ _ Hp) in Hrun.
    injection Hrun as _ <-. reflexivity.
  - intros p Hset Hne. revert Hrun. unfold MerlinProcess.binary_path. run.
    destruct (_binary_path (self w)); [intros [= <- <-]; reflexivity|].
    rewrite Hset. cbn. rewrite (proj2 (String.eqb_neq _ _) Hne). cbn.
    intros [= <- <-]. reflexivity.
  - intros r2 w2 Hrun2 Hchanged.
    destruct (binary_path_PATH _ _ _ Hrun) as [Hsame|[_ Hext]];
      [contradiction|].
    destruct (binary_path_PATH _ _ _ Hrun2) as [Hsame2|[Hnotin _]].
    + exact Hsame2.
    + exfalso. apply Hnotin. cbn. rewrite Hext.
      apply elem_of_app. right. apply list_elem_of_singleton. reflexivity.
Qed.

Lemma binary_path_extends_PATH_once_witness :
  environ_PATH (snd (MerlinProcess.binary_path bare_world))
  = ["/usr/bin"; "/usr/local/bin"]
  /\ environ_PATH
       (snd (MerlinProcess.binary_path
               (snd (MerlinProcess.clear
                       (snd (MerlinProcess.binary_path bare_world))))))
     = ["/usr/bin"; "/usr/local/bin"].
Proof.
  split; [vm_compute; reflexivity|].
  destruct (binary_path_extends_PATH_once bare_world
              (snd (MerlinProcess.binary_path bare_world))
              (fst (MerlinProcess.binary_path bare_world)))
    as (_ & _ & _ & Hagain); [vm_compute; reflexivity|].
  erewrite Hagain.
  - vm_compute. reflexivity.
  - apply surjective_pairing.
  - vm_compute. discriminate.
Defined.

(** X11. How a process without a cached binary resolves it. A non-empty
    text under [ocamlmerlin_path] in the settings wins. With that setting
    unset, empty or otherwise false: when [PATH] is not set in the
    environment the [KeyError] of the lookup escapes; when the output of
    opam is not UTF-8 the [UnicodeDecodeError] of the decoding escapes; in
    both cases nothing is cached; otherwise the binary [ocamlmerlin] in the
    directory that opam prints (the white space at its end removed) is
    taken when it is an executable file, and the bare name [ocamlmerlin]
    when it is not. (A true setting that is not a text is outside what is
    modelled.) *)
Theorem binary_path_resolution_order :
  forall (w : World),
    _binary_path (self w) = None ->
    (forall p,
        settings_get (merlin_settings w) "ocamlmerlin_path" = VStr p ->
        p <> "" ->
        fst (MerlinProcess.binary_path w) = Ok p)
    /\ (forall out,
          truthy (settings_get (merlin_settings w) "ocamlmerlin_path") = false ->
          environ_PATH w <> [] ->
          opam_config_var_bin (os w) = Some out ->
          fst (MerlinProcess.binary_path w)
          = Ok (if isfile_and_X_OK (os w) (rstrip out +:+ "/ocamlmerlin")
                then rstrip out +:+ "/ocamlmerlin"
                else "ocamlmerlin"))
    /\ (truthy (settings_get (merlin_settings w) "ocamlmerlin_path") = false ->
        environ_PATH w = [] ->
        fst (MerlinProcess.binary_path w) = Raised (KeyError "PATH")
        /\ _binary_path (self (snd (MerlinProcess.binary_path w))) = None)
    /\ (truthy (settings_get (merlin_settings w) "ocamlmerlin_path") = false ->
        environ_PATH w <> [] ->
        opam_config_var_bin (os w) = None ->
        fst (MerlinProcess.binary_path w) = Raised UnicodeDecodeError
        /\ _binary_path (self (snd (MerlinProcess.binary_path w))) = None).
Proof.
  intros w Hnone. unfold MerlinProcess.binary_path. run. rewrite Hnone.
  split; [|split; [|split]].
  - intros p Hset Hne. rewrite Hset. cbn.
    rewrite (proj2 (String.eqb_neq _ _) Hne). reflexivity.
  - intros out Hfalse Hpath Hopam. rewrite Hfalse.
    change (environ_PATH (with_self _ w)) with (environ_PATH w).
    destruct (environ_PATH w) as [|dir dirs]; [contradiction|].
    case_bool_decide; cbn; rewrite Hopam; cbn;
      destruct (isfile_and_X_OK _ _); reflexivity.
  - intros Hfalse Hpath. rewrite Hfalse.
    change (environ_PATH (with_self _ w)) with (environ_PATH w).
    rewrite Hpath. cbn. split; [reflexivity|].
    destruct (_settings (self w)); cbn; exact Hnone.
  - intros Hfalse Hpath Hopam. rewrite Hfalse.
    change (environ_PATH (with_self _ w)) with (environ_PATH w).
    destruct (environ_PATH w) as [|dir dirs]; [contradiction|].
    case_bool_decide; cbn; rewrite Hopam; cbn;
      (split; [reflexivity|]); destruct (_settings (self w)); cbn; exact Hnone.
Qed.

Lemma binary_path_resolution_order_witness :
  fst (MerlinProcess.binary_path (tool_world ""))
  = Ok "/home/dev/.opam/default/bin/ocamlmerlin"
  /\ fst (MerlinProcess.binary_path bare_world) = Ok "ocamlmerlin".
Proof.
  split.
  - rewrite (proj1 (proj2 (binary_path_resolution_order (tool_world "") eq_refl))
               _ eq_refl ltac:(discriminate) eq_refl).
    vm_compute. reflexivity.
  - rewrite (proj1 (proj2 (binary_path_resolution_order bare_world eq_refl))
               _ eq_refl ltac:(discriminate) eq_refl).
    vm_compute. reflexivity.
Defined.

(** ** Restart *)



(** X13. When the [stop-server] command cannot be started, [restart]
    raises the [OSError] of the spawn and clears nothing: the counter is
    the one from before, the resolved binary stays cached, and the history
    has gained the pending entry of the command. *)
Theorem restart_failed_spawn_clears_nothing :
  forall (w w0 : World) (path : string) (e : oserror),
    chosen_path None w = (Ok path, w0) ->
    Popen (os w0) (environ_PATH w0) [path; "server"; "stop-server"]
    = SpawnFails e ->
    exists w',
      MerlinProcess.restart w = (Raised (OSError e), w')
      /\ counter w' = counter w
      /\ _binary_path (self w') = Some path
      /\ history w'
         = MerlinProcess.stored [path; "server"; "stop-server"] None None
             (history w)
      /\ self w' <> MerlinProcess.fresh.
Proof.
  intros w w0 path e Hp Hs.
  eexists. unfold MerlinProcess.restart, bind.
  rewrite (exec_spawn_fails _ _ _ _ _ _ _ Hp Hs).
  split; [reflexivity|].
  destruct (chosen_path_frame _ _ _ _ Hp) as (Hh & Hc & _).
  pose proof (binary_path_caches _ _ _ Hp) as Hcache.
  unfold history, counter in *. cbn. rewrite Hh.
  split; [exact Hc|]. split; [exact Hcache|]. split; [reflexivity|].
  intros Hfresh. apply (f_equal _binary_path) in Hfresh. cbn in Hfresh.
  rewrite Hcache in Hfresh. discriminate.
Qed.

Lemma restart_failed_spawn_clears_nothing_witness :
  exists w',
    MerlinProcess.restart seasoned_world
    = (Raised (OSError FileNotFoundError), w')
    /\ counter w' = (TList ["type-enclosing"], Some 3)
    /\ history w' = [(["ocamlmerlin"; "server"; "stop-server"], None, None)].
Proof.
  edestruct (restart_failed_spawn_clears_nothing seasoned_world)
    as (w' & Hrun & Hc & _ & Hh & _).
  - vm_compute. reflexivity.
  - vm_compute. reflexivity.
  - exists w'. split; [exact Hrun|]. split.
    + rewrite Hc. reflexivity.
    + rewrite Hh. reflexivity.
Defined.

(** ** What a request leaves in the history *)

Section RequestRecords.

Implicit Types (args cl : list string) (k : kw.t) (w : World).

Lemma response_keeps raw w r w' :
  MerlinProcess.response raw w = (r, w') ->
  self w' = self w /\ environ_PATH w' = environ_PATH w /\ os w' = os w.
Proof.
  unfold MerlinProcess.response, bind, lift. cbn [print].
  destruct (Json.loads raw) as [obj|e]; [|intros [= <- <-]; repeat split].
  destruct (getitem obj "class"); [|intros [= <- <-]; repeat split].
  destruct (getitem obj "value"); [|intros [= <- <-]; repeat split].
  destruct (getitem obj "notifications") as [n|]; [|intros [= <- <-]; repeat split].
  destruct (iterate n); [|intros [= <- <-]; repeat split].
  rewrite for_each_print.
  repeat (match goal with |- context [if ?b then _ else _] => destruct b end);
    intros [= <- <-]; repeat split.
Qed.

(** With the program given, [exec] consults and changes neither the cached
    binary nor the search path, and the command it records starts with the
    program as given. *)
Lemma exec_given_path cl p input w r w' :
  MerlinProcess.exec cl (Some p) input w = (r, w') ->
  _binary_path (self w') = _binary_path (self w)
  /\ environ_PATH w' = environ_PATH w
  /\ exists response errors rest,
       history w' = (p :: cl, response, errors) :: rest.
Proof.
  unfold MerlinProcess.exec, try_except, bind, ret. cbn [app].
  unfold MerlinProcess.popen, MerlinProcess.store_last_command at 1. cbn.
  destruct (if win32 (os w) then _ else _) as [e|communicate].
  - cbn. intros [= <- <-]. unfold history. cbn. repeat split.
    destruct (stored_front (p :: cl) None None (_last_commands (self w)))
      as (rest & ->). eauto.
  - cbn. destruct (communicate input) as [out err]. cbn.
    intros [= <- <-]. unfold history. cbn. repeat split.
    destruct (stored_front (p :: cl) (Some out) (Some err)
                (MerlinProcess.stored (p :: cl) None None
                   (_last_commands (self w)))) as (rest & ->). eauto.
Qed.

End RequestRecords.



(** X15. A request of a view whose settings name the binary
    ([ocamlmerlin_path]) starts that program as named, even by the empty
    text: the binary cached by the process is neither consulted nor
    replaced, the search path is not touched, and when the argument list
    can be built the recorded command starts with the named program. *)
Theorem view_path_overrides_resolution :
  forall (args : list string) (tv : track_key) (w : World) (p : string)
         (dm ex fl pk bu so : option (list string)),
    view_settings_typed w (Some p) dm ex fl pk bu so ->
    _binary_path (self (snd (MerlinView.command args tv w)))
    = _binary_path (self w)
    /\ environ_PATH (snd (MerlinView.command args tv w)) = environ_PATH w
    /\ (forall gf, counter_ok w -> global_flags w = Ok gf ->
        exists cl response errors rest,
          history (snd (MerlinView.command args tv w))
          = (p :: cl, response, errors) :: rest).
Proof.
  intros args tv w p dm ex fl pk bu so Htyped.
  rewrite (view_command_run _ _ _ _ _ _ _ _ _ _ Htyped).
  set (k := view_kwargs w tv (Some p) dm ex fl pk bu so).
  unfold MerlinProcess.command, bind.
  destruct (MerlinProcess.cmdline args k w) as [[cl|e] w1] eqn:Hcl;
    destruct (cmdline_frame _ _ _ _ _ Hcl)
      as (Hh1 & _ & _ & Hpath1 & _ & _ & Hbp1).
  - destruct (MerlinProcess.exec cl (kw.binary_path k) (kw.input k) w1)
      as [r2 w2] eqn:He.
    destruct (exec_given_path _ _ _ _ _ _ He)
      as (Hbp2 & Hpath2 & resp & errs & rest & Hh2).
    assert (Hend : exists w3,
               snd (match r2 with
                    | Ok a => MerlinProcess.response a w2
                    | Raised e => (Raised e, w2)
                    end) = w3
               /\ self w3 = self w2 /\ environ_PATH w3 = environ_PATH w2).
    { destruct r2 as [raw|e2]; [|eexists; repeat split].
      destruct (MerlinProcess.response raw w2) as [r3 w3] eqn:Hr.
      destruct (response_keeps _ _ _ _ Hr) as (Hself & Hpath3 & _).
      exists w3. repeat split; assumption. }
    destruct Hend as (w3 & -> & Hself & Hpath3).
    split; [rewrite Hself; congruence|]. split; [congruence|].
    intros gf _ _. exists cl, resp, errs, rest.
    unfold history in *. rewrite Hself. exact Hh2.
  - cbn [snd]. split; [exact Hbp1|]. split; [exact Hpath1|].
    intros gf Hok Hgf.
    destruct (cmdline_groups args k w gf Hok Hgf) as (v & w' & Hrun & _).
    rewrite Hrun in Hcl. discriminate.
Qed.

Lemma view_path_overrides_resolution_witness :
  _binary_path (self (snd (MerlinView.command ["errors"] TNone pinned_world)))
  = Some "ocamlmerlin"
  /\ history (snd (MerlinView.command ["errors"] TNone pinned_world))
     = [(["/opt/merlin"; "server"; "errors"], None, None)].
Proof.
  destruct (view_path_overrides_resolution ["errors"] TNone pinned_world
              "/opt/merlin" None None None None None None)
    as (Hbp & _ & _).
  - vm_compute. repeat split.
  - split; [rewrite Hbp; reflexivity|vm_compute; reflexivity].
Defined.

(** ** Enabling and disabling extensions *)

Section Extensions.

Implicit Types (ext e : string) (exts added : list string) (xs ys : list pyval).

Lemma stored_ext_app ext xs ys :
  stored_ext ext (xs ++ ys) = (stored_ext ext xs || stored_ext ext ys)%bool.
Proof. apply existsb_app. Qed.

Lemma stored_ext_strs ext added :
  stored_ext ext (map VStr added) = bool_decide (ext ∈ added).
Proof.
  induction added as [|a added IH]; [reflexivity|].
  cbn [map stored_ext existsb MerlinView.is_str] in *. unfold stored_ext in IH.
  rewrite IH. destruct (String.eqb_spec a ext) as [->|Hne]; cbn.
  - rewrite bool_decide_eq_true_2; [reflexivity|]. apply list_elem_of_here.
  - apply bool_decide_ext. rewrite elem_of_cons. intuition congruence.
Qed.

(** Enabling appends, once each and in the order of the request, the
    extensions of the request that are not stored. *)
Lemma enable_loop_appends exts : forall xs,
  exists added,
    MerlinView.enable_loop exts (VList xs) = Ok (VList (xs ++ map VStr added))
    /\ NoDup added
    /\ forall e, e ∈ added <-> e ∈ exts /\ stored_ext e xs = false.
Proof.
  induction exts as [|ext exts IH]; intros xs.
  - exists []. cbn. rewrite app_nil_r. split; [reflexivity|].
    split; [constructor|]. intros e. rewrite !elem_of_nil. tauto.
  - cbn [MerlinView.enable_loop MerlinView.contains MerlinView.append].
    fold (stored_ext ext xs). destruct (stored_ext ext xs) eqn:Hst.
    + destruct (IH xs) as (added & Hrun & Hnd & Hin). exists added.
      split; [exact Hrun|]. split; [exact Hnd|].
      intros e. rewrite Hin, elem_of_cons. split; [tauto|].
      intros [[->|He] Hns]; [congruence|tauto].
    + destruct (IH (xs ++ [VStr ext])) as (added & Hrun & Hnd & Hin).
      exists (ext :: added). split.
      { rewrite Hrun, <- app_assoc. reflexivity. }
      assert (Hself : stored_ext ext (xs ++ [VStr ext]) = true).
      { rewrite stored_ext_app. cbn. rewrite String.eqb_refl, orb_true_r.
        reflexivity. }
      split.
      { constructor; [|exact Hnd]. rewrite Hin. intros [_ H]. congruence. }
      intros e. rewrite !elem_of_cons, Hin, stored_ext_app. cbn.
      rewrite orb_false_r.
      destruct (String.eqb_spec ext e) as [->|Hne].
      * rewrite orb_true_r. intuition congruence.
      * rewrite orb_false_r. intuition congruence.
Qed.

Lemma enable_loop_stored exts : forall xs,
  (forall e, e ∈ exts -> stored_ext e xs = true) ->
  MerlinView.enable_loop exts (VList xs) = Ok (VList xs).
Proof.
  induction exts as [|ext exts IH]; intros xs Hall; [reflexivity|].
  cbn [MerlinView.enable_loop MerlinView.contains]. fold (stored_ext ext xs).
  rewrite (Hall ext) by apply list_elem_of_here.
  apply IH. intros e He. apply Hall. apply list_elem_of_further. exact He.
Qed.

Lemma is_str_eq ext x : MerlinView.is_str ext x = true <-> x = VStr ext.
Proof.
  destruct x; cbn; try (split; [discriminate|congruence]).
  rewrite String.eqb_eq. split; congruence.
Qed.

Lemma stored_occurrences ext xs :
  stored_ext ext xs = true <-> 0 < occurrences ext xs.
Proof.
  unfold stored_ext, occurrences.
  induction xs as [|x xs IH]; cbn; [split; [discriminate|lia]|].
  destruct (MerlinView.is_str ext x); cbn; [split; [lia|reflexivity]|exact IH].
Qed.

Lemma remove_first_occurrences ext xs :
  stored_ext ext xs = true ->
  forall e, occurrences e (MerlinView.remove_first ext xs)
            = occurrences e xs - (if String.eqb e ext then 1 else 0).
Proof.
  unfold occurrences.
  induction xs as [|x xs IH]; intros Hst e; [discriminate|].
  cbn [MerlinView.remove_first List.filter].
  destruct (MerlinView.is_str ext x) eqn:Hx.
  - apply is_str_eq in Hx as ->. cbn [MerlinView.is_str].
    rewrite (String.eqb_sym ext e).
    destruct (String.eqb e ext); cbn [length]; lia.
  - cbn in Hst. unfold stored_ext in Hst. cbn in Hst. rewrite Hx in Hst.
    cbn in Hst. cbn [List.filter]. specialize (IH Hst e).
    pose proof (proj1 (stored_occurrences ext xs) Hst) as Hpos.
    unfold occurrences in Hpos.
    destruct (MerlinView.is_str e x) eqn:Hex; cbn [length]; [|exact IH].
    rewrite IH. destruct (String.eqb e ext) eqn:Heq; [|lia].
    apply String.eqb_eq in Heq. subst e. lia.
Qed.

Lemma remove_first_sublist ext xs :
  MerlinView.remove_first ext xs `sublist_of` xs.
Proof.
  induction xs as [|x xs IH]; cbn; [constructor|].
  destruct (MerlinView.is_str ext x).
  - apply sublist_cons. reflexivity.
  - apply sublist_skip. exact IH.
Qed.

(** Disabling takes out, for each time an extension is listed in the
    request, the first stored occurrence of it if there is one. *)
Lemma disable_loop_counts exts : forall xs,
  exists ys,
    MerlinView.disable_loop exts (VList xs) = Ok (VList ys)
    /\ ys `sublist_of` xs
    /\ forall e, occurrences e ys = occurrences e xs - listed e exts.
Proof.
  induction exts as [|ext exts IH]; intros xs.
  - exists xs. split; [reflexivity|]. split; [reflexivity|].
    intros e. cbn. lia.
  - cbn [MerlinView.disable_loop MerlinView.contains MerlinView.remove].
    fold (stored_ext ext xs). destruct (stored_ext ext xs) eqn:Hst.
    + destruct (IH (MerlinView.remove_first ext xs)) as (ys & Hrun & Hsub & Hocc).
      exists ys. split; [exact Hrun|].
      split; [etrans; [exact Hsub|apply remove_first_sublist]|].
      intros e. rewrite Hocc, (remove_first_occurrences _ _ Hst).
      unfold listed. cbn [List.filter].
      destruct (String.eqb e ext); cbn [length]; lia.
    + destruct (IH xs) as (ys & Hrun & Hsub & Hocc).
      exists ys. split; [exact Hrun|]. split; [exact Hsub|].
      intros e. rewrite Hocc. unfold listed. cbn [List.filter].
      destruct (String.eqb_spec e ext) as [->|_]; cbn [length]; [|lia].
      assert (occurrences ext xs = 0); [|lia].
      destruct (occurrences ext xs) eqn:Ho; [reflexivity|].
      assert (stored_ext ext xs = true) by (apply stored_occurrences; lia).
      congruence.
Qed.

(** [remove] takes out the first occurrence: what precedes it holds none. *)
Lemma remove_first_splits ext xs :
  stored_ext ext xs = true ->
  exists before after,
    xs = before ++ VStr ext :: after
    /\ stored_ext ext before = false
    /\ MerlinView.remove_first ext xs = before ++ after.
Proof.
  unfold stored_ext. induction xs as [|x xs IH]; [discriminate|].
  cbn [existsb MerlinView.remove_first].
  destruct (MerlinView.is_str ext x) eqn:Hx.
  - intros _. apply is_str_eq in Hx. subst x.
    exists [], xs. repeat split.
  - intros Hst. destruct (IH Hst) as (before & after & -> & Hnone & Hrm).
    exists (x :: before), after. cbn [existsb app]. rewrite Hx, Hnone, Hrm.
    repeat split.
Qed.

Lemma disable_loop_without_firsts exts : forall xs ys,
  MerlinView.disable_loop exts (VList xs) = Ok (VList ys) ->
  without_firsts exts xs ys.
Proof.
  induction exts as [|ext exts IH]; intros xs ys.
  - cbn. intros [= <-]. reflexivity.
  - cbn [MerlinView.disable_loop MerlinView.contains MerlinView.remove
         without_firsts].
    fold (stored_ext ext xs). destruct (stored_ext ext xs) eqn:Hst.
    + intros Hrun. exists (MerlinView.remove_first ext xs).
      split; [|apply IH, Hrun]. right.
      destruct (remove_first_splits _ _ Hst) as (before & after & Hxs & Hnone & Hrm).
      exists before, after. repeat split; assumption.
    + intros Hrun. exists xs. split; [left; split; [exact Hst|reflexivity]|].
      apply IH, Hrun.
Qed.

Lemma remove_first_app ext xs ys :
  stored_ext ext xs = false ->
  MerlinView.remove_first ext (xs ++ ys) = xs ++ MerlinView.remove_first ext ys.
Proof.
  unfold stored_ext. induction xs as [|x xs IH]; cbn; [reflexivity|].
  destruct (MerlinView.is_str ext x); cbn; [discriminate|].
  intros H. rewrite IH by exact H. reflexivity.
Qed.

Lemma remove_first_strs ext added1 added2 :
  ext ∉ added1 ->
  MerlinView.remove_first ext (map VStr (added1 ++ ext :: added2))
  = map VStr (added1 ++ added2).
Proof.
  induction added1 as [|a added1 IH]; intros Hnot; cbn.
  - rewrite String.eqb_refl. reflexivity.
  - apply not_elem_of_cons in Hnot as [Hne Hnot].
    rewrite (proj2 (String.eqb_neq a ext)) by congruence.
    rewrite <- IH by exact Hnot. reflexivity.
Qed.

(** Disabling what enabling has appended gives the stored list back. *)
Lemma disable_loop_appended exts : forall xs added,
  (forall e, e ∈ exts -> stored_ext e xs = false) ->
  NoDup added -> (forall e, e ∈ added -> e ∈ exts) ->
  MerlinView.disable_loop exts (VList (xs ++ map VStr added)) = Ok (VList xs).
Proof.
  induction exts as [|ext exts IH]; intros xs added Hnone Hnd Hsub.
  - destruct added as [|a added].
    + rewrite app_nil_r. reflexivity.
    + exfalso. apply (elem_of_nil a), Hsub, list_elem_of_here.
  - cbn [MerlinView.disable_loop MerlinView.contains MerlinView.remove].
    fold (stored_ext ext (xs ++ map VStr added)).
    assert (Hx : stored_ext ext xs = false) by apply Hnone, list_elem_of_here.
    assert (Hrest : forall e, e ∈ exts -> stored_ext e xs = false)
      by (intros e He; apply Hnone, list_elem_of_further, He).
    rewrite stored_ext_app, Hx, stored_ext_strs. cbn [orb].
    case_bool_decide as Hin.
    + apply list_elem_of_split in Hin as (added1 & added2 & ->).
      apply NoDup_app in Hnd as (Hnd1 & Hdisj & Hnd2).
      apply NoDup_cons in Hnd2 as (Hnot2 & Hnd2).
      assert (Hnot1 : ext ∉ added1).
      { intros H1. apply (Hdisj _ H1), list_elem_of_here. }
      rewrite remove_first_app, remove_first_strs by assumption.
      apply IH; [exact Hrest| |].
      * apply NoDup_app. split; [exact Hnd1|]. split; [|exact Hnd2].
        intros e H1 H2. apply (Hdisj _ H1), list_elem_of_further, H2.
      * intros e He. assert (Hne : e <> ext).
        { intros ->. apply elem_of_app in He as [H|H]; contradiction. }
        assert (He' : e ∈ added1 ++ ext :: added2).
        { apply elem_of_app in He as [H|H]; apply elem_of_app;
            [left; exact H|right; apply list_elem_of_further; exact H]. }
        apply Hsub, elem_of_cons in He' as [->|H]; [contradiction|exact H].
    + apply IH; [exact Hrest|exact Hnd|].
      intros e He. pose proof (Hsub e He) as H.
      apply elem_of_cons in H as [->|H]; [contradiction|exact H].
Qed.

End Extensions.

Section ExtensionRequests.

Implicit Types (exts : list string) (xs : list pyval) (w : World).

Lemma settings_get_list (m : gmap string pyval) key xs :
  settings_get m key = VList xs -> m !! key = Some (VList xs).
Proof.
  unfold settings_get. destruct (m !! key); cbn; [congruence|discriminate].
Qed.

Lemma settings_get_insert (m : gmap string pyval) key v :
  settings_get (<[key := v]> m) key = v.
Proof. unfold settings_get. rewrite lookup_insert_eq. reflexivity. Qed.

Lemma extension_enable_run exts xs ys w :
  settings_get (view_settings w) "ocamlmerlin_extensions" = VList xs ->
  MerlinView.enable_loop exts (VList xs) = Ok (VList ys) ->
  MerlinView.extension_enable exts w
  = (Ok tt, with_view_settings
              (<["ocamlmerlin_extensions" := VList ys]> (view_settings w)) w).
Proof.
  intros Hget Hloop. unfold MerlinView.extension_enable, bind.
  cbn [MerlinView.view_get]. rewrite Hget. unfold lift. rewrite Hloop.
  reflexivity.
Qed.

Lemma extension_disable_run exts xs ys w :
  settings_get (view_settings w) "ocamlmerlin_extensions" = VList xs ->
  MerlinView.disable_loop exts (VList xs) = Ok (VList ys) ->
  MerlinView.extension_disable exts w
  = (Ok tt, with_view_settings
              (<["ocamlmerlin_extensions" := VList ys]> (view_settings w)) w).
Proof.
  intros Hget Hloop. unfold MerlinView.extension_disable, bind.
  cbn [MerlinView.view_get]. rewrite Hget. unfold lift. rewrite Hloop.
  reflexivity.
Qed.

End ExtensionRequests.

(** X16. With a list stored under the extensions key, enabling keeps the
    stored values where they are and appends after them, once each, the
    extensions of the request that were not stored; afterwards every
    extension of the request is stored. *)
Theorem extension_enable_appends_missing :
  forall (exts : list string) (xs : list pyval) (w : World),
    settings_get (view_settings w) "ocamlmerlin_extensions" = VList xs ->
    exists (added : list string) (w' : World),
      MerlinView.extension_enable exts w = (Ok tt, w')
      /\ settings_get (view_settings w') "ocamlmerlin_extensions"
         = VList (xs ++ map VStr added)
      /\ NoDup added
      /\ (forall e, e ∈ added <-> e ∈ exts /\ stored_ext e xs = false)
      /\ (forall e, e ∈ exts -> stored_ext e (xs ++ map VStr added) = true).
Proof.
  intros exts xs w Hget.
  destruct (enable_loop_appends exts xs) as (added & Hloop & Hnd & Hin).
  exists added. eexists.
  split; [apply (extension_enable_run _ _ _ _ Hget Hloop)|].
  split; [apply settings_get_insert|]. split; [exact Hnd|].
  split; [exact Hin|].
  intros e He. rewrite stored_ext_app, stored_ext_strs.
  destruct (stored_ext e xs) eqn:Hst; [reflexivity|]. cbn.
  apply bool_decide_eq_true_2, Hin. split; assumption.
Qed.

(** A view with two extensions enabled. *)
Lemma extension_enable_appends_missing_witness :
  settings_get
    (view_settings
       (snd (MerlinView.extension_enable ["lwt"; "meta"; "lwt"; "here"]
               (snd (MerlinView.view_set "ocamlmerlin_extensions"
                       (VList [VStr "meta"; VStr "nonrec"]) bare_world)))))
    "ocamlmerlin_extensions"
  = VList [VStr "meta"; VStr "nonrec"; VStr "lwt"; VStr "here"].
Proof.
  destruct (extension_enable_appends_missing ["lwt"; "meta"; "lwt"; "here"]
              [VStr "meta"; VStr "nonrec"]
              (snd (MerlinView.view_set "ocamlmerlin_extensions"
                      (VList [VStr "meta"; VStr "nonrec"]) bare_world)))
    as (added & w' & Hrun & _); [vm_compute; reflexivity|].
  vm_compute. reflexivity.
Defined.

(** X17. Enabling is idempotent: with a list stored under the extensions
    key, enabling the same extensions a second time changes nothing. *)
Theorem extension_enable_idempotent :
  forall (exts : list string) (xs : list pyval) (w : World),
    settings_get (view_settings w) "ocamlmerlin_extensions" = VList xs ->
    MerlinView.extension_enable exts (snd (MerlinView.extension_enable exts w))
    = (Ok tt, snd (MerlinView.extension_enable exts w)).
Proof.
  intros exts xs w Hget.
  destruct (enable_loop_appends exts xs) as (added & Hloop & Hnd & Hin).
  rewrite (extension_enable_run _ _ _ _ Hget Hloop). cbn [snd].
  erewrite extension_enable_run.
  - cbn [with_view_settings view_settings]. rewrite insert_insert_eq.
    reflexivity.
  - apply settings_get_insert.
  - apply enable_loop_stored. intros e He.
    rewrite stored_ext_app, stored_ext_strs.
    destruct (stored_ext e xs) eqn:Hst; [reflexivity|]. cbn.
    apply bool_decide_eq_true_2, Hin. split; assumption.
Qed.

Lemma extension_enable_idempotent_witness :
  MerlinView.extension_enable ["lwt"]
    (snd (MerlinView.extension_enable ["lwt"] completion_world))
  = (Ok tt, snd (MerlinView.extension_enable ["lwt"] completion_world)).
Proof.
  apply (extension_enable_idempotent ["lwt"] [] completion_world).
  vm_compute. reflexivity.
Defined.

(** X18. With a list stored under the extensions key, disabling removes,
    for each extension of the request in turn, its first stored occurrence
    if any, and nothing else: every stored entry before that occurrence
    and after it stays where it is. So when one extension is listed, what
    is left is the part of the stored list before the first occurrence
    followed by the part after it; what stays keeps its order, and the
    number of stored occurrences of an extension drops by the number of
    times it is listed. An extension stored twice and listed once is
    therefore still stored afterwards, by its later occurrence; one stored
    at most once is not. *)
Theorem extension_disable_removes_first_occurrences :
  forall (exts : list string) (xs : list pyval) (w : World),
    settings_get (view_settings w) "ocamlmerlin_extensions" = VList xs ->
    exists (ys : list pyval) (w' : World),
      MerlinView.extension_disable exts w = (Ok tt, w')
      /\ settings_get (view_settings w') "ocamlmerlin_extensions" = VList ys
      /\ without_firsts exts xs ys
      /\ (forall e before after,
            exts = [e] ->
            xs = before ++ VStr e :: after ->
            stored_ext e before = false ->
            ys = before ++ after)
      /\ ys `sublist_of` xs
      /\ (forall e, occurrences e ys = occurrences e xs - listed e exts)
      /\ (forall e, e ∈ exts -> occurrences e xs <= 1 -> stored_ext e ys = false).
Proof.
  intros exts xs w Hget.
  destruct (disable_loop_counts exts xs) as (ys & Hloop & Hsub & Hocc).
  exists ys. eexists.
  split; [apply (extension_disable_run _ _ _ _ Hget Hloop)|].
  split; [apply settings_get_insert|].
  split; [apply disable_loop_without_firsts, Hloop|].
  split.
  { intros e before after -> -> Hnone.
    cbn [MerlinView.disable_loop MerlinView.contains MerlinView.remove] in Hloop.
    fold (stored_ext e (before ++ VStr e :: after)) in Hloop.
    rewrite stored_ext_app, Hnone in Hloop.
    cbn [stored_ext existsb MerlinView.is_str orb] in Hloop.
    rewrite String.eqb_refl in Hloop. cbn [orb] in Hloop.
    rewrite (remove_first_app _ _ _ Hnone) in Hloop.
    cbn [MerlinView.remove_first MerlinView.is_str] in Hloop.
    rewrite String.eqb_refl in Hloop. injection Hloop as <-. reflexivity. }
  split; [exact Hsub|].
  split; [exact Hocc|].
  intros e He Hone. destruct (stored_ext e ys) eqn:Hst; [|reflexivity].
  apply stored_occurrences in Hst. rewrite Hocc in Hst.
  assert (0 < listed e exts); [|lia].
  unfold listed. clear -He. induction exts as [|a exts IH].
  - apply elem_of_nil in He. contradiction.
  - cbn. apply elem_of_cons in He as [->|He].
    + rewrite String.eqb_refl. cbn. lia.
    + destruct (String.eqb e a); cbn; [lia|apply IH, He].
Qed.

Lemma extension_disable_removes_first_occurrences_witness :
  settings_get
    (view_settings
       (snd (MerlinView.extension_disable ["lwt"]
               (snd (MerlinView.view_set "ocamlmerlin_extensions"
                       (VList [VStr "lwt"; VStr "meta"; VStr "lwt"])
                       bare_world)))))
    "ocamlmerlin_extensions"
  = VList [VStr "meta"; VStr "lwt"].
Proof.
  destruct (extension_disable_removes_first_occurrences ["lwt"]
              [VStr "lwt"; VStr "meta"; VStr "lwt"]
              (snd (MerlinView.view_set "ocamlmerlin_extensions"
                      (VList [VStr "lwt"; VStr "meta"; VStr "lwt"])
                      bare_world)))
    as (ys & w' & Hrun & Hget & _ & Hfirst & _); [vm_compute; reflexivity|].
  rewrite Hrun. cbn [snd]. rewrite Hget. f_equal.
  apply (Hfirst "lwt" [] [VStr "meta"; VStr "lwt"]); reflexivity.
Defined.

(** X19. Enabling extensions of which none is stored and then disabling
    the same extensions gives back the world from before the two calls. *)
Theorem extension_enable_then_disable_restores :
  forall (exts : list string) (xs : list pyval) (w : World),
    settings_get (view_settings w) "ocamlmerlin_extensions" = VList xs ->
    (forall e, e ∈ exts -> stored_ext e xs = false) ->
    MerlinView.extension_disable exts (snd (MerlinView.extension_enable exts w))
    = (Ok tt, w).
Proof.
  intros exts xs w Hget Hnone.
  destruct (enable_loop_appends exts xs) as (added & Hloop & Hnd & Hin).
  rewrite (extension_enable_run _ _ _ _ Hget Hloop). cbn [snd].
  erewrite extension_disable_run.
  - f_equal. apply settings_get_list in Hget. destruct w. cbn in *.
    rewrite insert_insert_eq, insert_id by exact Hget. reflexivity.
  - apply settings_get_insert.
  - apply disable_loop_appended; [exact Hnone|exact Hnd|].
    intros e He. apply Hin in He. tauto.
Qed.

Lemma extension_enable_then_disable_restores_witness :
  MerlinView.extension_disable ["lwt"; "meta"; "lwt"]
    (snd (MerlinView.extension_enable ["lwt"; "meta"; "lwt"] completion_world))
  = (Ok tt, completion_world).
Proof.
  apply (extension_enable_then_disable_restores ["lwt"; "meta"; "lwt"] []
           completion_world).
  - vm_compute. reflexivity.
  - intros e _. reflexivity.
Defined.

(** ** Settings are read afresh by every request *)

Section FreshSettings.

Implicit Types (args : list string) (w : World).

Lemma strs_map_VStr (l : list string) : strs (map VStr l) = Some l.
Proof.
  induction l as [|a l IH]; [reflexivity|]. cbn. rewrite IH. reflexivity.
Qed.

Lemma opt_strs_list (l : list string) :
  opt_strs (VList (map VStr l)) = Ok (match l with [] => None | _ => Some l end).
Proof.
  destruct l as [|a l]; [reflexivity|].
  unfold opt_strs. cbn [truthy map]. change (VStr a :: map VStr l)
    with (map VStr (a :: l)). rewrite strs_map_VStr. reflexivity.
Qed.

Lemma settings_get_insert_ne (m : gmap string pyval) key key' v :
  key <> key' -> settings_get (<[key := v]> m) key' = settings_get m key'.
Proof. intros Hne. unfold settings_get. rewrite lookup_insert_ne; auto. Qed.

Lemma command_view_settings args k w :
  view_settings (snd (MerlinProcess.command args k w)) = view_settings w.
Proof.
  unfold MerlinProcess.command, bind.
  destruct (MerlinProcess.cmdline args k w) as [[cl|e] w1] eqn:Hcl;
    destruct (cmdline_frame _ _ _ _ _ Hcl) as (_ & _ & _ & _ & _ & Hvs1 & _);
    [|exact Hvs1].
  destruct (MerlinProcess.exec cl _ _ w1) as [[raw|e] w2] eqn:He;
    destruct (exec_frame _ _ _ _ _ _ He) as (_ & _ & _ & Hvs2 & _);
    [|cbn [snd]; congruence].
  destruct (MerlinProcess.response raw w2) as [r w3] eqn:Hr.
  destruct (response_frame _ _ _ _ Hr) as (_ & Hvs3 & _). cbn [snd]. congruence.
Qed.

End FreshSettings.

(** X20. The packages are read from the settings at every request: after
    [set_packages] has stored a list of names, the next request of the view
    builds one argument list and hands it to [exec] with the text of the
    view, and this list has [-package] before each of these names, in their
    order and next to one another, whatever was stored before. It is this
    list, after the program, that the operating system is asked to start
    and that the history records, whether the program starts or not. *)
Theorem set_packages_reaches_next_request :
  forall (pkgs args : list string) (tv : track_key) (w : World)
         (bp : option string) (dm ex fl pk0 bu so gf : option (list string)),
    view_settings_typed w bp dm ex fl pk0 bu so ->
    counter_ok w ->
    global_flags w = Ok gf ->
    exists (w1 w2 : World) (cl pre post : list string),
      MerlinView.set_packages (VList (map VStr pkgs)) w = (Ok tt, w1)
      /\ MerlinProcess.cmdline args
           (view_kwargs w tv bp dm ex fl
              (match pkgs with [] => None | _ :: _ => Some pkgs end) bu so) w1
         = (Ok cl, w2)
      /\ MerlinView.command args tv w1
         = (raw <- MerlinProcess.exec cl bp (Some (view_text w)) ;;
            MerlinProcess.response raw) w2
      /\ cl = pre ++ flat_map (fun p => ["-package"; p]) pkgs ++ post
      /\ (forall (path : string) (w3 : World),
            chosen_path bp w2 = (Ok path, w3) ->
            (forall e,
                Popen (os w3) (environ_PATH w3) (path :: cl) = SpawnFails e ->
                fst (MerlinView.command args tv w1) = Raised (OSError e)
                /\ exists rest,
                     history (snd (MerlinView.command args tv w1))
                     = (path :: cl, None, None) :: rest)
            /\ (forall communicate out err,
                   Popen (os w3) (environ_PATH w3) (path :: cl) = Runs communicate ->
                   communicate (Some (view_text w)) = (out, err) ->
                   exists rest,
                     history (snd (MerlinView.command args tv w1))
                     = (path :: cl, Some out, Some err) :: rest)).
Proof.
  intros pkgs args tv w bp dm ex fl pk0 bu so gf
         (Hbp & Hdm & Hex & Hfl & _ & Hbu & Hso) Hok Hgf.
  set (w1 := with_view_settings
               (<["ocamlmerlin_packages" := VList (map VStr pkgs)]>
                  (view_settings w)) w).
  set (pk := match pkgs with [] => None | _ :: _ => Some pkgs end).
  assert (Htyped : view_settings_typed w1 bp dm ex fl pk bu so).
  { unfold view_settings_typed, w1. cbn [view_settings with_view_settings].
    rewrite settings_get_insert, opt_strs_list.
    rewrite !settings_get_insert_ne by discriminate. repeat split; assumption. }
  change (view_kwargs w tv bp dm ex fl pk bu so)
    with (view_kwargs w1 tv bp dm ex fl pk bu so).
  destruct (cmdline_groups args (view_kwargs w1 tv bp dm ex fl pk bu so) w1 gf)
    as (v & w2 & Hcl & _); [exact Hok|exact Hgf|].
  assert (Hrun : MerlinView.command args tv w1
                 = (raw <- MerlinProcess.exec
                             (argument_groups args
                                (view_kwargs w1 tv bp dm ex fl pk bu so) v
                                (or_empty gf))
                             bp (Some (view_text w)) ;;
                    MerlinProcess.response raw) w2).
  { rewrite (view_command_run _ _ _ _ _ _ _ _ _ _ Htyped).
    unfold MerlinProcess.command. unfold bind at 1. rewrite Hcl. reflexivity. }
  exists w1, w2. eexists.
  exists (groups_before args (view_kwargs w1 tv bp dm ex fl pk bu so)
          ++ v ++ flagged "-extension" ex).
  eexists.
  split; [reflexivity|].
  split; [exact Hcl|].
  split; [exact Hrun|].
  split.
  { unfold argument_groups, groups_after.
    cbn [kw.extensions kw.packages view_kwargs].
    rewrite <- !app_assoc. do 3 f_equal.
    unfold flagged at 1.
    replace (or_empty pk) with pkgs by (destruct pkgs; reflexivity).
    reflexivity. }
  intros path w3 Hp. rewrite Hrun. exact (request_recorded _ _ _ _ _ _ Hp).
Qed.

Lemma set_packages_reaches_next_request_witness :
  exists (w1 : World) (cl : list string),
    MerlinView.set_packages (VList [VStr "lwt"; VStr "str"]) completion_world
    = (Ok tt, w1)
    /\ cl = ["server"; "errors"; "-filename"; "src/main.ml";
             "-package"; "lwt"; "-package"; "str"]
    /\ exists rest,
         history (snd (MerlinView.command ["errors"] TNone w1))
         = ("ocamlmerlin" :: cl, None, None) :: rest.
Proof.
  destruct (set_packages_reaches_next_request ["lwt"; "str"] ["errors"] TNone
              completion_world None None None None (Some ["core"]) None None None)
    as (w1 & w2 & cl & pre & post & Hset & Hcl & _ & _ & Hhist).
  - vm_compute. repeat split.
  - intros _. reflexivity.
  - vm_compute. reflexivity.
  - vm_compute in Hset. injection Hset as <-.
    vm_compute in Hcl. injection Hcl as <- <-.
    eexists. eexists. split; [vm_compute; reflexivity|]. split; [reflexivity|].
    edestruct Hhist as [Hfails _]; [vm_compute; reflexivity|].
    apply (Hfails FileNotFoundError). vm_compute. reflexivity.
Defined.

(** ** Verbosity of repeated type queries *)

Section TypeEnclosing.

Implicit Types (line col : Z) (w : World).

(** The arguments of a type query at a position. *)
Lemma type_enclosing_run line col w :
  MerlinView.type_enclosing line col w
  = MerlinView.command
      ["type-enclosing"; "-position"; pretty line +:+ ":" +:+ pretty col]
      (TBool true) w.
Proof. reflexivity. Qed.

Lemma view_command_counter args tv w bp dm ex fl pk bu so :
  view_settings_typed w bp dm ex fl pk bu so ->
  counter (snd (MerlinView.command args tv w))
  = counter (snd (MerlinProcess.track_verbosity tv args w))
  /\ view_settings (snd (MerlinView.command args tv w)) = view_settings w.
Proof.
  intros Htyped. rewrite (view_command_run _ _ _ _ _ _ _ _ _ _ Htyped).
  split; [apply command_counter|apply command_view_settings].
Qed.

Lemma position_args_differ line col line' col' :
  (line, col) <> (line', col') ->
  ["type-enclosing"; "-position"; pretty line +:+ ":" +:+ pretty col]
  <> ["type-enclosing"; "-position"; pretty line' +:+ ":" +:+ pretty col'].
Proof.
  intros Hne [= Heq]. apply Hne.
  destruct (fmtpos_ints_eq line col line' col') as [-> ->]; [|reflexivity].
  cbn [fmtpos unpack2 format_coord]. rewrite Heq. reflexivity.
Qed.

End TypeEnclosing.

(** X21. Type queries of a view escalate and reset with the cursor: a
    query at a position is counted under that position, asking again at
    the same position raises the count by one, and asking at another
    position starts again from 0, whatever became of the requests. *)
Theorem type_enclosing_counts_per_position :
  forall (line col line' col' : Z) (w : World) (bp : option string)
         (dm ex fl pk bu so : option (list string)),
    view_settings_typed w bp dm ex fl pk bu so ->
    counter_ok w ->
    (line, col) <> (line', col') ->
    exists n : nat,
      counter (snd (MerlinView.type_enclosing line col w))
      = (TList ["type-enclosing"; "-position";
                pretty line +:+ ":" +:+ pretty col], Some n)
      /\ counter (snd (MerlinView.type_enclosing line col
                         (snd (MerlinView.type_enclosing line col w))))
         = (TList ["type-enclosing"; "-position";
                   pretty line +:+ ":" +:+ pretty col], Some (n + 1))
      /\ counter (snd (MerlinView.type_enclosing line' col'
                         (snd (MerlinView.type_enclosing line col w))))
         = (TList ["type-enclosing"; "-position";
                   pretty line' +:+ ":" +:+ pretty col'], Some 0).
Proof.
  intros line col line' col' w bp dm ex fl pk bu so Htyped Hok Hne.
  rewrite !type_enclosing_run.
  set (args := ["type-enclosing"; "-position"; pretty line +:+ ":" +:+ pretty col]).
  set (args' := ["type-enclosing"; "-position";
                 pretty line' +:+ ":" +:+ pretty col']).
  destruct (view_command_counter args (TBool true) w _ _ _ _ _ _ _ Htyped)
    as (Hc1 & Hvs1).
  set (w1 := snd (MerlinView.command args (TBool true) w)) in *.
  assert (Htyped1 : view_settings_typed w1 bp dm ex fl pk bu so)
    by (unfold view_settings_typed; rewrite Hvs1; exact Htyped).
  destruct (track_verbosity_total (TBool true) args w Hok)
    as (v & w0 & Hrun & _ & _ & Hon & _).
  destruct (Hon eq_refl) as (n & _ & Hcount). rewrite Hrun in Hc1.
  cbn [snd tracked] in *. rewrite Hcount in Hc1.
  exists n. split; [exact Hc1|]. split.
  - destruct (view_command_counter args (TBool true) w1 _ _ _ _ _ _ _ Htyped1)
      as (-> & _).
    rewrite (track_verbosity_again (TBool true) args w1 n);
      [reflexivity|reflexivity| |rewrite Hc1; reflexivity].
    rewrite Hc1. cbn. apply bool_decide_eq_true_2. reflexivity.
  - destruct (view_command_counter args' (TBool true) w1 _ _ _ _ _ _ _ Htyped1)
      as (-> & _).
    rewrite track_verbosity_reset; [reflexivity|reflexivity|].
    rewrite Hc1. cbn. apply bool_decide_eq_false_2.
    apply position_args_differ. exact Hne.
Qed.

Lemma type_enclosing_counts_per_position_witness :
  counter (snd (MerlinView.type_enclosing 4 7
                  (snd (MerlinView.type_enclosing 4 7 completion_world))))
  = (TList ["type-enclosing"; "-position"; "4:7"], Some 1)
  /\ counter (snd (MerlinView.type_enclosing 5 0
                     (snd (MerlinView.type_enclosing 4 7 completion_world))))
     = (TList ["type-enclosing"; "-position"; "5:0"], Some 0).
Proof.
  destruct (type_enclosing_counts_per_position 4 7 5 0 completion_world
              None None None None (Some ["core"]) None None)
    as (n & H1 & H2 & H3).
  - vm_compute. repeat split.
  - intros _. reflexivity.
  - discriminate.
  - split; [vm_compute; reflexivity|]. rewrite H3. vm_compute. reflexivity.
Defined.
